(** * Strava synchroniser and sports statistics: a shallow embedding

    The program under study is the Node script of the blog repository that
    synchronises a Strava activity feed into a local cache and derives the
    statistics document of the sports page: [fetchActivities],
    [minimizeActivity], the merge, detail back-fill and watermark steps of
    [main], and [computeSportsStats].

    Conventions of the embedding:
    - JavaScript numbers are IEEE-754 doubles; they are Rocq's primitive
      binary64 floats, so sums, quotients and comparisons are the ones the
      script performs.  Integers the script only uses as integers
      (identifiers, epoch seconds and milliseconds, counters) are in [Z].
    - Strings are byte strings; an absent or null property is [None].
    - Date parsing, the local calendar and the exponent notation of very
      large numbers belong to the host and are fields of [Host].
    - [main] is a function from a [World] (environment, files, answers of
      the remote endpoints) to the list of its events (requests, writes,
      console output) and its exit status. *)

From Stdlib Require Import ZArith List String Ascii Bool Lia Floats.
From Stdlib Require Import Sorting Permutation DecimalString DecimalPos.
Import ListNotations.

Set Warnings "-inexact-float".

(** ** Language-level helpers *)

Module Js.

Local Open Scope float_scope.

(** Truthiness of a number: neither NaN nor a zero. *)
Definition truthy (f : float) : bool := negb (is_nan f || is_zero f).

(** [Number(x) || 0] on a nullable JSON number: [null], [undefined], [NaN],
    [+0] and [-0] all give [0]. *)
Definition numberOrZero (x : option float) : float :=
  match x with
  | None => 0
  | Some f => if truthy f then f else 0
  end.

(** [a > b], [a >= b], [a <= b] of the source, on top of the primitive tests. *)
Definition gt (a b : float) : bool := b <? a.
Definition ge (a b : float) : bool := b <=? a.
Definition le (a b : float) : bool := a <=? b.

(** [Math.min] and [Math.max]: NaN is contagious and [-0] is below [+0]. *)
Definition mathMin (a b : float) : float :=
  if (is_nan a || is_nan b)%bool then nan
  else if a <? b then a
  else if b <? a then b
  else if get_sign a then a else b.

Definition mathMax (a b : float) : float :=
  if (is_nan a || is_nan b)%bool then nan
  else if a <? b then b
  else if b <? a then a
  else if get_sign a then b else a.

(** The double nearest to an integer (round to nearest, ties to even). *)
Definition ofZ (z : Z) : float :=
  SF2Prim (binary_normalize prec emax z 0 false).

(** [floor (x * scale + 1/2)] for the exact value [x] of a finite double:
    [Math.round] for [scale = 1], and the integer [n] of
    [Number.prototype.toFixed] for [scale = 10 ^ digits]. *)
Definition roundHalfUp (scale : Z) (x : float) : Z :=
  match Prim2SF x with
  | S754_finite s m e =>
      let n := ((if s then Z.neg m else Z.pos m) * scale)%Z in
      if (0 <=? e)%Z then (n * 2 ^ e)%Z
      else ((2 * n + 2 ^ (- e)) / 2 ^ (1 - e))%Z
  | _ => 0%Z
  end.

Definition mathRound (x : float) : Z := roundHalfUp 1 x.

Local Open Scope string_scope.

(** Decimal digits of an integer, as a template literal prints it. *)
Definition decimal (n : Z) : string := NilZero.string_of_int (Z.to_int n).

Fixpoint zeros (n : nat) : string :=
  match n with
  | O => ""
  | S k => String "0" (zeros k)
  end.

Fixpoint takeStr (n : nat) (s : string) : string :=
  match n, s with
  | S k, String c r => String c (takeStr k r)
  | _, _ => ""
  end.

Fixpoint dropStr (n : nat) (s : string) : string :=
  match n, s with
  | S k, String _ r => dropStr k r
  | _, _ => s
  end.

(** The digit string of [toFixed]: [n] printed, padded on the left to
    [digits + 1] characters, with the point before the last [digits]. *)
Definition placePoint (digits : nat) (n : Z) : string :=
  let m := decimal n in
  match digits with
  | O => m
  | S _ =>
      let k := String.length m in
      let m := if (k <=? digits)%nat then zeros (S digits - k) ++ m else m in
      let k := String.length m in
      takeStr (k - digits) m ++ "." ++ dropStr (k - digits) m
  end.

Definition isDigit (c : ascii) : bool :=
  let n := nat_of_ascii c in ((48 <=? n) && (n <=? 57))%nat.

(** White space of [trim] and [parseInt], restricted to the ASCII range. *)
Definition isSpace (c : ascii) : bool :=
  let n := nat_of_ascii c in ((n =? 32) || ((9 <=? n) && (n <=? 13)))%nat.

Fixpoint allChars (p : ascii -> bool) (s : string) : bool :=
  match s with
  | "" => true
  | String c r => p c && allChars p r
  end.

Definition isEmpty (s : string) : bool :=
  match s with "" => true | _ => false end.

Fixpoint dropWhile (p : ascii -> bool) (s : string) : string :=
  match s with
  | "" => ""
  | String c r => if p c then dropWhile p r else s
  end.

(** Removes the longest suffix made of characters satisfying [p]. *)
Fixpoint dropWhileEnd (p : ascii -> bool) (s : string) : string :=
  match s with
  | "" => ""
  | String c r =>
      let t := dropWhileEnd p r in
      if p c && isEmpty t then "" else String c t
  end.

Definition trim (s : string) : string :=
  dropWhileEnd isSpace (dropWhile isSpace s).

Fixpoint includes (c : ascii) (s : string) : bool :=
  match s with
  | "" => false
  | String d r => Ascii.eqb c d || includes c r
  end.

(** [s.split(c)] for a one-character separator. *)
Fixpoint split (c : ascii) (s : string) : list string :=
  match s with
  | "" => [""]
  | String d r =>
      if Ascii.eqb c d then "" :: split c r
      else match split c r with
           | [] => [String d ""]
           | h :: t => String d h :: t
           end
  end.

(** The longest prefix of digits, and what follows it. *)
Fixpoint spanDigits (s : string) : string * string :=
  match s with
  | "" => ("", "")
  | String c r =>
      if isDigit c then let (d, t) := spanDigits r in (String c d, t)
      else ("", s)
  end.

Fixpoint digitsValue (acc : Z) (s : string) : Z :=
  match s with
  | "" => acc
  | String c r => digitsValue (10 * acc + (Z.of_nat (nat_of_ascii c) - 48)) r
  end.

(** [parseInt(s, 10)]: leading white space, an optional sign, then the
    longest run of digits; [nan] when there is no digit. *)
Definition parseInt (s : string) : float :=
  let s := dropWhile isSpace s in
  let (neg, s) :=
    match s with
    | String "-" r => (true, r)
    | String "+" r => (false, r)
    | _ => (false, s)
    end in
  let (d, _) := spanDigits s in
  if isEmpty d then nan
  else let v := ofZ (digitsValue 0 d) in if neg then (- v)%float else v.

(** [s.replace(/\.0+$/, '')]. *)
Fixpoint stripDotZeros (s : string) : string :=
  match s with
  | "" => ""
  | String c r =>
      if Ascii.eqb c "." && negb (isEmpty r) && allChars (Ascii.eqb "0") r
      then ""
      else String c (stripDotZeros r)
  end.

Fixpoint endsWithZero (s : string) : bool :=
  match s with
  | "" => false
  | String c "" => Ascii.eqb c "0"
  | String _ r => endsWithZero r
  end.

(** [s.replace(/(\.\d*?)0+$/, '$1')]. *)
Fixpoint stripFractionZeros (s : string) : string :=
  match s with
  | "" => ""
  | String c r =>
      if Ascii.eqb c "." && allChars isDigit r && endsWithZero r
      then String "." (dropWhileEnd (Ascii.eqb "0") r)
      else String c (stripFractionZeros r)
  end.

(** [a || b] on optional strings: the empty string is falsy. *)
Definition orStr (a b : option string) : option string :=
  match a with
  | Some (String _ _) => a
  | _ => b
  end.

(** A value inside a template literal.  An absent value prints
    [undefined]; a JSON null, which the data model does not tell apart from
    an absent value, would print [null]. *)
Definition tmpl (a : option string) : string :=
  match a with
  | Some s => s
  | None => "undefined"
  end.

End Js.

(** ** Built-ins of the host that stay abstract

    [dateMs s] is [new Date(s).getTime()] ([None] for an invalid date, whose
    time value is NaN); [localYmd s] gives [getFullYear()], [getMonth()] and
    [getDate()] of [new Date(s)] in the time zone of the process;
    [exponentForm x] is the string of a finite double of magnitude at least
    1e21, which [toFixed] and template literals print in exponent notation. *)

Record Host := {
  dateMs : string -> option Z;
  localYmd : string -> option (Z * Z * Z);
  exponentForm : float -> string;
}.

(** ** Data model *)

(** A raw activity, as the activity-list and activity-detail endpoints
    return it.  [None] is an absent (or null) property. *)
Module Raw.
Record t := {
  id : option Z;
  sport_type : option string;
  type : option string;
  name : option string;
  start_date : option string;
  start_date_local : option string;
  distance : option float;
  moving_time : option float;
  elapsed_time : option float;
  total_elevation_gain : option float;
  calories : option float;
  kilojoules : option float;
  average_speed : option float;
  max_speed : option float;
  average_temp : option float;
  average_watts : option float;
  has_heartrate : option bool;
  average_heartrate : option float;
  max_heartrate : option float;
  device_name : option string;
  trainer : option bool;
  commute : option bool;
  detail_attempted : option bool;
}.
End Raw.

(** A cached record: the object [minimizeActivity] builds. *)
Module Activity.
Record t := {
  id : option Z;
  sport_type : option string;
  name : option string;
  start_date : option string;
  start_date_local : option string;
  distance_m : option float;
  moving_time_s : option float;
  elapsed_time_s : option float;
  total_elevation_gain_m : option float;
  calories_kcal : option float;
  kilojoules_kj : option float;
  average_speed_mps : option float;
  max_speed_mps : option float;
  average_temp_c : option float;
  average_watts : option float;
  has_heartrate : option bool;
  average_heartrate : option float;
  max_heartrate : option float;
  device_name : option string;
  trainer : option bool;
  commute : option bool;
  detail_attempted : bool;
}.

(** [a.detail_attempted = true]. *)
Definition markAttempted (a : t) : t :=
  {| id := id a; sport_type := sport_type a; name := name a;
     start_date := start_date a; start_date_local := start_date_local a;
     distance_m := distance_m a; moving_time_s := moving_time_s a;
     elapsed_time_s := elapsed_time_s a;
     total_elevation_gain_m := total_elevation_gain_m a;
     calories_kcal := calories_kcal a; kilojoules_kj := kilojoules_kj a;
     average_speed_mps := average_speed_mps a;
     max_speed_mps := max_speed_mps a; average_temp_c := average_temp_c a;
     average_watts := average_watts a; has_heartrate := has_heartrate a;
     average_heartrate := average_heartrate a;
     max_heartrate := max_heartrate a; device_name := device_name a;
     trainer := trainer a; commute := commute a;
     detail_attempted := true |}.
End Activity.

(** The hand-written baseline document ([baseline.json]). *)
Module Baseline.
Record Farthest := {
  distanceKm : option float;
  f_paceText : option string;
  dateText : option string;
}.
Record BestTime := {
  timeText : option string;
  unit : option string;
  paceText : option string;
}.
Record Best := {
  farthest : option Farthest;
  best5k : option BestTime;
  best10k : option BestTime;
}.
Record Running := {
  totalDistanceKm : option float;
  avgPaceText : option string;
  sinceLabel : option string;
  best : option Best;
}.
Record t := { running : option Running }.
End Baseline.

(** The lifetime totals of the athlete-stats endpoint. *)
Module AthleteStats.
Record Totals := {
  distance : option float;
  moving_time : option float;
  count : option float;
}.
Record t := {
  all_run_totals : option Totals;
  all_ride_totals : option Totals;
}.
End AthleteStats.

(** One card of the statistics document. *)
Module Card.
Record t := {
  label : string;
  value : string;
  unit : string;
  subtext : option string;
}.
End Card.

Record RunningCards := {
  r_totalDistance : Card.t;
  r_totalTime : Card.t;
  halfMarathon : Card.t;
  fullMarathon : Card.t;
}.

Record CyclingCards := {
  c_totalDistance : Card.t;
  c_totalTime : Card.t;
  totalCount : Card.t;
  c_farthest : Card.t;
}.

(** The cards of the statistics document.  The [years] and [monthly]
    roll-ups and the [generatedAt] stamp are not part of this model. *)
Record SportsStats := {
  running : RunningCards;
  cycling : CyclingCards;
}.

(** Optional chaining, [o?.f]. *)
Definition obind {A B : Type} (o : option A) (field : A -> option B)
  : option B :=
  match o with
  | None => None
  | Some x => field x
  end.

(** ** The pure functions of the script *)

Section Script.

Variable H : Host.

Import Js.
Local Open Scope string_scope.
Local Open Scope float_scope.

(** [(a.sport_type || a.type || '').toString()]; a cached record has no
    [type] property. *)
Definition asSportType (a : Activity.t) : string :=
  match orStr (Activity.sport_type a) None with
  | Some s => s
  | None => ""
  end.

Definition isRun (a : Activity.t) : bool :=
  let t := asSportType a in
  String.eqb t "Run" || String.eqb t "TrailRun" || String.eqb t "VirtualRun"
  || String.eqb t "Treadmill".

Definition isRide (a : Activity.t) : bool :=
  let t := asSportType a in
  String.eqb t "Ride" || String.eqb t "VirtualRide" || String.eqb t "EBikeRide"
  || String.eqb t "GravelRide".

Definition clamp (n min max : float) : float := mathMax min (mathMin max n).

Definition pad2 (n : Z) : string :=
  if (n <? 10)%Z then "0" ++ decimal n else decimal n.

(** [formatDateYmdDot]; an invalid date prints NaN three times. *)
Definition formatDateYmdDot (dateLike : option string) : string :=
  match obind dateLike (localYmd H) with
  | Some (y, m, day) => decimal y ++ "." ++ pad2 (m + 1) ++ "." ++ pad2 day
  | None => "NaN.NaN.NaN"
  end.

(** [formatPaceSecPerKm].  [Math.floor(total / 60)] and [total % 60] are
    taken on the integer [total], which is what the double operations give
    for any total below 2^53. *)
Definition formatPaceSecPerKm (secPerKm : float) : option string :=
  if negb (is_finite secPerKm) || le secPerKm 0 then None
  else
    let total := mathRound secPerKm in
    let m := (total / 60)%Z in
    let s := (total mod 60)%Z in
    Some (decimal m ++ "'" ++ pad2 s ++ "''/km").

Definition formatTimeMinTextFromSec (sec : float) : option string :=
  if negb (is_finite sec) || le sec 0 then None
  else
    let total := mathRound sec in
    let m := (total / 60)%Z in
    let s := (total mod 60)%Z in
    Some (decimal m ++ ":" ++ pad2 s).

(** The [mm * 60 + ss] of the two first fields of a split time text. *)
Definition minutesSeconds (parts : list string) : option float :=
  let mm := parseInt (nth 0 parts "") in
  let ss := match parts with
            | _ :: x :: _ => parseInt x
            | _ => nan
            end in
  if is_finite mm && is_finite ss then Some (mm * 60 + ss) else None.

Definition parseBaselineTimeToSec (timeText : option string) : option float :=
  match timeText with
  | None | Some "" => None
  | Some txt =>
      let t := trim txt in
      if isEmpty t then None
      else if includes ":" t then minutesSeconds (split ":" t)
      else if includes "." t then minutesSeconds (split "." t)
      else
        let mm := parseInt t in
        if is_finite mm then Some (mm * 60) else None
  end.

(** [Number.prototype.toFixed]: [n] is the integer nearest to
    [x * 10 ^ digits], the larger one on a tie. *)
Definition toFixed (x : float) (digits : nat) : string :=
  if is_nan x then "NaN"
  else if is_infinity x then (if x <? 0 then "-Infinity" else "Infinity")
  else
    let neg := x <? 0 in
    let ax := if neg then - x else x in
    let m := if 1e21 <=? ax then exponentForm H ax
             else placePoint digits (roundHalfUp (10 ^ Z.of_nat digits) ax) in
    if neg then "-" ++ m else m.

Definition toFixedTrim (n : float) (digits : nat) : string :=
  stripFractionZeros (stripDotZeros (toFixed n digits)).

Definition minimizeActivity (a : Raw.t) : Activity.t :=
  {| Activity.id := Raw.id a;
     Activity.sport_type := orStr (Raw.sport_type a) (Raw.type a);
     Activity.name := Raw.name a;
     Activity.start_date := Raw.start_date a;
     Activity.start_date_local := Raw.start_date_local a;
     Activity.distance_m := Raw.distance a;
     Activity.moving_time_s := Raw.moving_time a;
     Activity.elapsed_time_s := Raw.elapsed_time a;
     Activity.total_elevation_gain_m := Raw.total_elevation_gain a;
     Activity.calories_kcal := Raw.calories a;
     Activity.kilojoules_kj := Raw.kilojoules a;
     Activity.average_speed_mps := Raw.average_speed a;
     Activity.max_speed_mps := Raw.max_speed a;
     Activity.average_temp_c := Raw.average_temp a;
     Activity.average_watts := Raw.average_watts a;
     Activity.has_heartrate := Raw.has_heartrate a;
     Activity.average_heartrate := Raw.average_heartrate a;
     Activity.max_heartrate := Raw.max_heartrate a;
     Activity.device_name := Raw.device_name a;
     Activity.trainer := Raw.trainer a;
     Activity.commute := Raw.commute a;
     Activity.detail_attempted :=
       match Raw.detail_attempted a with
       | Some b => b
       | None => false
       end |}.

(** The first match of [/(\d+)'(\d+)''/] that starts at the head of [s]. *)
Definition paceMatchHere (s : string) : option (string * string) :=
  let (m, r) := spanDigits s in
  if isEmpty m then None
  else match r with
       | String "'" r' =>
           let (sec, r'') := spanDigits r' in
           if isEmpty sec then None
           else match r'' with
                | String "'" (String "'" _) => Some (m, sec)
                | _ => None
                end
       | _ => None
       end.

(** [paceText.match(/(\d+)'(\d+)''/)]: the leftmost match. *)
Fixpoint paceMatch (s : string) : option (string * string) :=
  match paceMatchHere s with
  | Some r => Some r
  | None => match s with
            | "" => None
            | String _ r => paceMatch r
            end
  end.

Definition parsePaceToSeconds (paceText : option string) : float :=
  match paceText with
  | None | Some "" => 0
  | Some txt =>
      match paceMatch txt with
      | None => 0
      | Some (m, s) => parseInt m * 60 + parseInt s
      end
  end.

End Script.

(** ** [computeSportsStats]

    Every [const] of the function body is a definition of the same name. *)

Module Stats.
Section ComputeSportsStats.

Variable H : Host.
Variable baseline : Baseline.t.
Variable activities : list Activity.t.
Variable athleteStats : option AthleteStats.t.

Import Js.
Local Open Scope string_scope.
Local Open Scope float_scope.

Definition runs : list Activity.t := filter isRun activities.
Definition rides : list Activity.t := filter isRide activities.

Definition sum (arr : list Activity.t) (pick : Activity.t -> option float)
  : float :=
  fold_left (fun acc x => acc + numberOrZero (pick x)) arr 0.

(** *** Totals *)

Definition statsAllRun : option AthleteStats.Totals :=
  obind athleteStats AthleteStats.all_run_totals.
Definition statsAllRide : option AthleteStats.Totals :=
  obind athleteStats AthleteStats.all_ride_totals.

(** [baseline.running?.totalDistanceKm || 0] *)
Definition baselineTotalDistanceKm : float :=
  numberOrZero (obind (Baseline.running baseline) Baseline.totalDistanceKm).

Definition runDistanceKm : float :=
  baselineTotalDistanceKm +
  match obind statsAllRun AthleteStats.distance with
  | Some d => d / 1000
  | None => sum runs Activity.distance_m / 1000
  end.

Definition baselinePaceSec : float :=
  parsePaceToSeconds (obind (Baseline.running baseline) Baseline.avgPaceText).

Definition baselineTimeH : float :=
  baselineTotalDistanceKm * baselinePaceSec / 3600.

Definition runTimeH : float :=
  baselineTimeH +
  match obind statsAllRun AthleteStats.moving_time with
  | Some t => t / 3600
  | None => sum runs Activity.moving_time_s / 3600
  end.

Definition rideDistanceKm : float :=
  match obind statsAllRide AthleteStats.distance with
  | Some d => d / 1000
  | None => sum rides Activity.distance_m / 1000
  end.

Definition rideTimeH : float :=
  match obind statsAllRide AthleteStats.moving_time with
  | Some t => t / 3600
  | None => sum rides Activity.moving_time_s / 3600
  end.

Definition rideCount : float :=
  match obind statsAllRide AthleteStats.count with
  | Some c => c
  | None => ofZ (Z.of_nat (List.length rides))
  end.

Definition rideCalories : float :=
  sum rides (fun a =>
    match Activity.calories_kcal a, Activity.kilojoules_kj a with
    | Some c, _ => Some c
    | None, Some kj => Some (kj * 0.239006)
    | None, None => Some 0
    end).

(** *** Farthest ride and farthest run *)

(** The reducer of [bestRide] and [bestRun]: [best] is [null] or [{ a, km }]. *)
Definition farther (best : option (Activity.t * float)) (a : Activity.t)
  : option (Activity.t * float) :=
  let km := numberOrZero (Activity.distance_m a) / 1000 in
  if gt km (match best with Some (_, k) => k | None => 0 end)
  then Some (a, km) else best.

Definition bestRide : option (Activity.t * float) := fold_left farther rides None.

Definition bestRideKm : float :=
  match bestRide with Some (_, km) => km | None => 0 end.

Definition startOf (a : Activity.t) : option string :=
  orStr (Activity.start_date_local a) (Activity.start_date a).

Definition bestRideSubtext : option string :=
  match bestRide with
  | None => None
  | Some (a, _) =>
      let bestRideDate := formatDateYmdDot H (startOf a) in
      let bestRideAvgKmh :=
        match Activity.average_speed_mps a with
        | Some v => if truthy v then Some (numberOrZero (Some v) * 3.6)
                    else None
        | None => None
        end in
      match bestRideAvgKmh with
      | Some kmh =>
          if truthy kmh
          then Some ("~" ++ toFixedTrim H kmh 1 ++ " km/h @" ++ bestRideDate)
          else Some ("@" ++ bestRideDate)
      | None => Some ("@" ++ bestRideDate)
      end
  end.

Definition baselineFarthest : option Baseline.Farthest :=
  obind (obind (Baseline.running baseline) Baseline.best) Baseline.farthest.

Definition baselineFarthestKm : float :=
  numberOrZero (obind baselineFarthest Baseline.distanceKm).

Definition bestRun : option (Activity.t * float) := fold_left farther runs None.

Definition bestRunKm : float :=
  match bestRun with Some (_, km) => km | None => 0 end.

(** The initial [farthestValue] and [farthestSubtext]: the baseline's. *)
Definition baselineFarthestCard : string * option string :=
  (toFixedTrim H baselineFarthestKm 1,
   match baselineFarthest with
   | Some f => Some (tmpl (Baseline.f_paceText f) ++ " @"
                     ++ tmpl (Baseline.dateText f))
   | None => None
   end).

(** What the [if (bestRun && bestRunKm > baselineFarthestKm)] block assigns. *)
Definition localFarthestCard (a : Activity.t) (km : float)
  : string * option string :=
  let secPerKm := numberOrZero (Activity.moving_time_s a)
                  / clamp km 0.001 1e9 in
  let date := formatDateYmdDot H (startOf a) in
  (toFixedTrim H km (if ge km 10 then 1 else 2),
   match formatPaceSecPerKm secPerKm with
   | Some pace => Some (pace ++ " @" ++ date)
   | None => Some ("@" ++ date)
   end).

(** The pair [(farthestValue, farthestSubtext)] after the block. *)
Definition farthestCard : string * option string :=
  match bestRun with
  | Some (a, _) =>
      if gt bestRunKm baselineFarthestKm then localFarthestCard a bestRunKm
      else baselineFarthestCard
  | None => baselineFarthestCard
  end.

Definition farthestValue : string := fst farthestCard.
Definition farthestSubtext : option string := snd farthestCard.

(** *** Best 5K and best 10K *)

Definition baseline5k : option Baseline.BestTime :=
  obind (obind (Baseline.running baseline) Baseline.best) Baseline.best5k.
Definition baseline10k : option Baseline.BestTime :=
  obind (obind (Baseline.running baseline) Baseline.best) Baseline.best10k.

Definition baseline5kSec : option float :=
  parseBaselineTimeToSec (obind baseline5k Baseline.timeText).
Definition baseline10kSec : option float :=
  parseBaselineTimeToSec (obind baseline10k Baseline.timeText).

(** The object [{ a, km, timeSec, paceSecPerKm }] of [findBestForDistance]. *)
Record Effort := {
  a : Activity.t;
  km : float;
  timeSec : float;
  paceSecPerKm : float;
}.

(** The distance test of the loop: [Math.abs(km - targetKm) > toleranceKm]
    sends the record away. *)
Definition outsideWindow (targetKm toleranceKm : float) (x : Activity.t)
  : bool :=
  gt (abs (numberOrZero (Activity.distance_m x) / 1000 - targetKm)) toleranceKm.

(** One turn of the loop of [findBestForDistance]. *)
Definition considerEffort (targetKm toleranceKm : float)
  (best : option Effort) (x : Activity.t) : option Effort :=
  let k := numberOrZero (Activity.distance_m x) / 1000 in
  if outsideWindow targetKm toleranceKm x then best
  else
    let t := numberOrZero (Activity.moving_time_s x) in
    if le t 0 then best
    else
      let found := {| a := x; km := k; timeSec := t;
                      paceSecPerKm := t / clamp k 0.001 1e9 |} in
      match best with
      | None => Some found
      | Some b => if t <? timeSec b then Some found else best
      end.

Definition findBestForDistance (targetKm toleranceKm : float)
  : option Effort :=
  fold_left (considerEffort targetKm toleranceKm) runs None.

Definition best5k : option Effort := findBestForDistance 5 0.08.
Definition best10k : option Effort := findBestForDistance 10 0.12.

(** [best && baselineSec != null ? (best.timeSec < baselineSec ? best : null)
    : null] *)
Definition chosen (best : option Effort) (baselineSec : option float)
  : option Effort :=
  match best, baselineSec with
  | Some b, Some sec => if timeSec b <? sec then Some b else None
  | _, _ => None
  end.

Definition best5kChosen : option Effort := chosen best5k baseline5kSec.
Definition best10kChosen : option Effort := chosen best10k baseline10kSec.

(** [chosen ? formatTimeMinTextFromSec(chosen.timeSec)
    : baselineEntry?.timeText ?? ''] ([None] is [null]). *)
Definition bestValue (c : option Effort) (entry : option Baseline.BestTime)
  : option string :=
  match c with
  | Some e => formatTimeMinTextFromSec (timeSec e)
  | None => Some (match obind entry Baseline.timeText with
                  | Some t => t
                  | None => ""
                  end)
  end.

Definition bestUnit (entry : option Baseline.BestTime) : string :=
  match obind entry Baseline.unit with
  | Some u => u
  | None => "min"
  end.

Definition bestSub (c : option Effort) (entry : option Baseline.BestTime)
  : string :=
  match c with
  | Some e =>
      match formatPaceSecPerKm (paceSecPerKm e) with
      | Some p => p
      | None => "null"
      end ++ " @" ++ formatDateYmdDot H (startOf (a e))
  | None => match obind entry Baseline.paceText with
            | Some t => t
            | None => ""
            end
  end.

Definition best5kValue : option string := bestValue best5kChosen baseline5k.
Definition best5kUnit : string := bestUnit baseline5k.
Definition best5kSub : string := bestSub best5kChosen baseline5k.

Definition best10kValue : option string := bestValue best10kChosen baseline10k.
Definition best10kUnit : string := bestUnit baseline10k.
Definition best10kSub : string := bestSub best10kChosen baseline10k.

(** *** The returned document *)

Definition cyclingAvgKmPerRide : float :=
  if gt rideCount 0 then rideDistanceKm / rideCount else 0.

(** [`${Math.trunc(x)}`] *)
Definition truncText (x : float) : string :=
  if is_nan x then "NaN"
  else if is_infinity x then (if x <? 0 then "-Infinity" else "Infinity")
  else if 1e21 <=? abs x then exponentForm H x
  else match Prim2SF x with
       | S754_finite s m e =>
           let n := if (0 <=? e)%Z then (Z.pos m * 2 ^ e)%Z
                    else (Z.pos m / 2 ^ (- e))%Z in
           decimal (if s then (- n)%Z else n)
       | _ => "0"
       end.

Definition computeSportsStats : SportsStats :=
  {| running :=
       {| r_totalDistance :=
            {| Card.label :=
                 "总跑量("
                 ++ match orStr (obind (Baseline.running baseline)
                                   Baseline.sinceLabel) None with
                    | Some l => l
                    | None => "累计"
                    end ++ ")";
               Card.value := toFixedTrim H runDistanceKm 2;
               Card.unit := "km";
               Card.subtext :=
                 orStr (obind (Baseline.running baseline) Baseline.avgPaceText)
                       None |};
          r_totalTime :=
            {| Card.label := "总时长";
               Card.value := toFixedTrim H runTimeH 1;
               Card.unit := "h";
               Card.subtext := Some "在路上的时间" |};
          halfMarathon :=
            {| Card.label := "半马 PB"; Card.value := "--"; Card.unit := "";
               Card.subtext := Some "暂无记录" |};
          fullMarathon :=
            {| Card.label := "全马 PB"; Card.value := "--"; Card.unit := "";
               Card.subtext := Some "暂无记录" |} |};
     cycling :=
       {| c_totalDistance :=
            {| Card.label := "总里程";
               Card.value := toFixedTrim H rideDistanceKm 2;
               Card.unit := "km";
               Card.subtext := Some "历史累计" |};
          c_totalTime :=
            {| Card.label := "总时长";
               Card.value := toFixedTrim H rideTimeH 2;
               Card.unit := "h";
               Card.subtext := Some "在路上的时间" |};
          totalCount :=
            {| Card.label := "累计次数";
               Card.value := truncText rideCount;
               Card.unit := "次";
               Card.subtext :=
                 if gt rideCount 0
                 then Some ("~" ++ toFixedTrim H cyclingAvgKmPerRide 1
                            ++ " km/次")
                 else None |};
          c_farthest :=
            {| Card.label := "最长骑行距离";
               Card.value :=
                 toFixedTrim H bestRideKm (if ge bestRideKm 100 then 1 else 2);
               Card.unit := "km";
               Card.subtext := bestRideSubtext |} |} |}.

End ComputeSportsStats.
End Stats.

(** ** The world of a run

    What [main] reads (environment, the three JSON files) and what the
    remote endpoints answer.  Numeric environment settings hold integers. *)

Inductive EnvNumber :=
| EnvUnset                (* absent or empty *)
| EnvNaN                  (* set, but [Number] of it is NaN *)
| EnvInt (z : Z).

Inductive Http (A : Type) :=
| HttpOk (json : A)
| HttpError (status : Z) (text : string).
Arguments HttpOk {A} json.
Arguments HttpError {A} status text.

Record TokenJson := {
  access_token : option string;
  athlete_id : option Z;          (* [json.athlete?.id] *)
}.

Inductive PageBody :=
| BodyArray (arr : list Raw.t)
| BodyOther.

Record World := {
  STRAVA_CLIENT_ID : option string;
  STRAVA_CLIENT_SECRET : option string;
  STRAVA_REFRESH_TOKEN : option string;
  STRAVA_INITIAL_AFTER_EPOCH : EnvNumber;
  STRAVA_DETAIL_MAX : EnvNumber;
  baselineFile : Baseline.t;               (* [{}] when unreadable *)
  stateFile : option Z;                    (* [state.lastSyncEpoch] *)
  activitiesFile : list Activity.t;        (* [[]] when unreadable *)
  tokenEndpoint : Http TokenJson;
  statsEndpoint : Z -> Http (option AthleteStats.t);
  activitiesEndpoint : Z -> option Z -> Http PageBody;   (* page, after *)
  detailEndpoint : Z -> option Raw.t;      (* [None]: the lookup throws *)
}.

Inductive Error :=
| MissingEnvVar (name : string)
| TokenRefreshFailed (status : Z) (text : string)
| MissingAccessToken
| AthleteStatsFailed (status : Z) (text : string)
| ActivitiesFailed (status : Z) (text : string)
| ActivitiesNotArray.

Record Summary := {
  fetched : nat;
  cached_before : nat;
  cached_after : nat;
  s_detailFetched : Z;
  s_athleteId : option Z;
  hasAthleteStats : bool;
  s_nextAfterEpoch : Z;
}.

(** What a run does to the outside, in order. *)
Inductive Event :=
| TokenRequest
| StatsRequest (athleteId : Z)
| ActivitiesRequest (page : Z) (after : option Z)
| DetailRequest (activityId : Z)
| WriteActivities (merged : list Activity.t)
| WriteState (lastSyncEpoch : Z)
| WriteStats (stats : SportsStats)
| ConsoleLog (s : Summary)
| ConsoleError (e : Error).

(** A computation that emits events and either throws or returns. *)
Definition M (A : Type) : Type := list Event * (Error + A).

Definition ret {A} (x : A) : M A := ([], inr x).
Definition throw {A} (e : Error) : M A := ([], inl e).
Definition emit (ev : Event) : M unit := ([ev], inr tt).
Definition bind {A B} (m : M A) (k : A -> M B) : M B :=
  match m with
  | (t, inl e) => (t, inl e)
  | (t, inr x) => let (t', r) := k x in (t ++ t', r)
  end.

Notation "x <- m ;; k" := (bind m (fun x => k))
  (at level 61, m at next level, right associativity).
Notation "m ;;; k" := (bind m (fun _ => k))
  (at level 61, right associativity).

(** ** The steps of [main] *)

Section Run.

Variable H : Host.

Import Js.
Local Open Scope Z_scope.

Definition mustGetEnv (name : string) (v : option string) : M string :=
  match v with
  | Some (String c r) => ret (String c r)
  | _ => throw (MissingEnvVar name)
  end.

Definition truthyZ (o : option Z) : option Z :=
  match o with
  | Some z => if z =? 0 then None else Some z
  | None => None
  end.

Definition stravaRefreshAccessToken (w : World) : M (string * option Z) :=
  _ <- mustGetEnv "STRAVA_CLIENT_ID" (STRAVA_CLIENT_ID w) ;;
  _ <- mustGetEnv "STRAVA_CLIENT_SECRET" (STRAVA_CLIENT_SECRET w) ;;
  _ <- mustGetEnv "STRAVA_REFRESH_TOKEN" (STRAVA_REFRESH_TOKEN w) ;;
  emit TokenRequest ;;;
  match tokenEndpoint w with
  | HttpError status text => throw (TokenRefreshFailed status text)
  | HttpOk json =>
      match access_token json with
      | Some (String c r) => ret (String c r, athlete_id json)
      | _ => throw MissingAccessToken
      end
  end.

Definition fetchAthleteStats (w : World) (athleteId : option Z)
  : M (option AthleteStats.t) :=
  match truthyZ athleteId with
  | None => ret None
  | Some i =>
      emit (StatsRequest i) ;;;
      match statsEndpoint w i with
      | HttpError status text => throw (AthleteStatsFailed status text)
      | HttpOk json => ret json
      end
  end.

Definition per_page : nat := 200.
Definition maxPages : nat := 20.

(** The [for] loop of [fetchActivities], [pagesLeft] pages before the
    hard stop. *)
Fixpoint fetchPages (w : World) (after : option Z) (pagesLeft : nat)
  (page : Z) (out : list Raw.t) : M (list Raw.t) :=
  match pagesLeft with
  | O => ret out
  | S k =>
      emit (ActivitiesRequest page after) ;;;
      match activitiesEndpoint w page after with
      | HttpError status text => throw (ActivitiesFailed status text)
      | HttpOk BodyOther => throw ActivitiesNotArray
      | HttpOk (BodyArray arr) =>
          let out := (out ++ arr)%list in
          if (List.length arr <? per_page)%nat then ret out
          else fetchPages w after k (page + 1) out
      end
  end.

Definition fetchActivities (w : World) (afterEpoch : Z) : M (list Raw.t) :=
  fetchPages w (if 0 <? afterEpoch then Some afterEpoch else None)
    maxPages 1 [].

(** *** Merge *)

Definition keyEqb (a b : option Z) : bool :=
  match a, b with
  | Some x, Some y => x =? y
  | None, None => true
  | _, _ => false
  end.

(** A [Map] keyed by identifier, in insertion order. *)
Definition IdMap := list (option Z * Activity.t).

Fixpoint mapSet (k : option Z) (v : Activity.t) (m : IdMap) : IdMap :=
  match m with
  | [] => [(k, v)]
  | (k', v') :: r =>
      if keyEqb k k' then (k, v) :: r else (k', v') :: mapSet k v r
  end.

Definition mergeMap (cachedActivities : list Activity.t) (fresh : list Raw.t)
  : IdMap :=
  fold_left (fun m a => mapSet (Raw.id a) (minimizeActivity a) m) fresh
    (fold_left (fun m a => mapSet (Activity.id a) a m) cachedActivities []).

Definition hasId (a : Activity.t) : bool :=
  match truthyZ (Activity.id a) with Some _ => true | None => false end.

(** [new Date(a.start_date || 0).getTime()] *)
Definition startTime (a : Activity.t) : option Z :=
  match Activity.start_date a with
  | Some (String c r) => dateMs H (String c r)
  | _ => Some 0
  end.

(** The comparator of the sort, [db - da]; a NaN result counts as [0]. *)
Definition byStartDesc (a b : Activity.t) : Z :=
  match startTime a, startTime b with
  | Some da, Some db => db - da
  | _, _ => 0
  end.

(** [Array.prototype.sort]: a stable sort, written as insertion from the
    right.  With a comparator that is consistent on the array every stable
    sort returns this list.  The comparator above is consistent when the
    start dates are valid dates; with a NaN among its results the language
    leaves the order to the implementation. *)
Fixpoint insertBy {A} (cmp : A -> A -> Z) (x : A) (l : list A) : list A :=
  match l with
  | [] => [x]
  | y :: r => if cmp x y <=? 0 then x :: l else y :: insertBy cmp x r
  end.

Definition arraySort {A} (cmp : A -> A -> Z) (l : list A) : list A :=
  fold_right (insertBy cmp) [] l.

Definition merge (cachedActivities : list Activity.t) (fresh : list Raw.t)
  : list Activity.t :=
  arraySort byStartDesc
    (filter hasId (map snd (mergeMap cachedActivities fresh))).

(** [new Set(fresh.map((a) => a?.id).filter(Boolean))] *)
Definition freshIdsOf (fresh : list Raw.t) : list Z :=
  flat_map (fun a => match truthyZ (Raw.id a) with
                     | Some i => [i]
                     | None => []
                     end) fresh.

(** *** Detail back-fill *)

Definition hasEnergy (a : Activity.t) : bool :=
  match Activity.calories_kcal a, Activity.kilojoules_kj a with
  | None, None => false
  | _, _ => true
  end.

(** The loop over [merged], from the record at the head of [l] on, with
    [detailFetched] look-ups done so far.  Returns the events, the records
    as the loop leaves them, and the final counter. *)
Fixpoint backfill (w : World) (detailMax : Z) (freshIds : list Z)
  (detailFetched : Z) (l : list Activity.t)
  : list Event * (list Activity.t * Z) :=
  match l with
  | [] => ([], ([], detailFetched))
  | a :: r =>
      if detailFetched >=? detailMax then ([], (l, detailFetched))
      else
        let continue a' n :=
          let '(t, (r', n')) := backfill w detailMax freshIds n r in
          (t, (a' :: r', n')) in
        match truthyZ (Activity.id a) with
        | None => continue a detailFetched
        | Some i =>
            if negb (existsb (Z.eqb i) freshIds) then continue a detailFetched
            else if Activity.detail_attempted a then continue a detailFetched
            else if hasEnergy a
            then continue (Activity.markAttempted a) detailFetched
            else
              let '(t, rest) :=
                match detailEndpoint w i with
                | Some d =>
                    continue (Activity.markAttempted (minimizeActivity d))
                             (detailFetched + 1)
                | None => continue (Activity.markAttempted a) detailFetched
                end in
              (DetailRequest i :: t, rest)
        end
  end.

(** [Number(process.env.STRAVA_DETAIL_MAX || 30)]; [None] is NaN. *)
Definition detailMaxOf (w : World) : option Z :=
  match STRAVA_DETAIL_MAX w with
  | EnvUnset => Some 30
  | EnvNaN => None
  | EnvInt z => Some z
  end.

Definition detailBackfill (w : World) (freshIds : list Z)
  (merged : list Activity.t) : list Event * (list Activity.t * Z) :=
  match detailMaxOf w with
  | Some detailMax =>
      if 0 <? detailMax then backfill w detailMax freshIds 0 merged
      else ([], (merged, 0))
  | None => ([], (merged, 0))
  end.

(** *** Watermark *)

(** [newest?.start_date ? Math.floor(new Date(...).getTime() / 1000) : 0];
    [None] is NaN. *)
Definition newestEpochOf (merged : list Activity.t) : option Z :=
  match merged with
  | [] => Some 0
  | newest :: _ =>
      match Activity.start_date newest with
      | Some (String c r) =>
          match dateMs H (String c r) with
          | Some ms => Some (ms / 1000)
          | None => None
          end
      | _ => Some 0
      end
  end.

Definition nextAfterEpochOf (merged : list Activity.t)
  (afterEpochFromState : Z) : Z :=
  match newestEpochOf merged with
  | Some newestEpoch =>
      if 0 <? newestEpoch then Z.max 0 (newestEpoch - 60)
      else afterEpochFromState
  | None => afterEpochFromState
  end.

(** *** [main] *)

Definition afterEpochFromStateOf (w : World) : Z :=
  match stateFile w with Some z => z | None => 0 end.

Definition afterEpochOf (w : World) : Z :=
  if 0 <? afterEpochFromStateOf w then afterEpochFromStateOf w
  else match STRAVA_INITIAL_AFTER_EPOCH w with
       | EnvInt z => z
       | _ => 0
       end.

(** The body of [main], up to its last statement. *)
Definition run (w : World) : M Summary :=
  let baseline := baselineFile w in
  let cachedActivities := activitiesFile w in
  let afterEpochFromState := afterEpochFromStateOf w in
  let afterEpoch := afterEpochOf w in
  tok <- stravaRefreshAccessToken w ;;
  let athleteId := snd tok in
  athleteStats <- fetchAthleteStats w athleteId ;;
  fresh <- fetchActivities w afterEpoch ;;
  let freshIds := freshIdsOf fresh in
  let merged := merge cachedActivities fresh in
  filled <- (let '(t, res) := detailBackfill w freshIds merged in
             (t, inr res)) ;;
  let merged := fst filled in
  let detailFetched := snd filled in
  let nextAfterEpoch := nextAfterEpochOf merged afterEpochFromState in
  let stats := Stats.computeSportsStats H baseline merged athleteStats in
  emit (WriteActivities merged) ;;;
  emit (WriteState nextAfterEpoch) ;;;
  emit (WriteStats stats) ;;;
  let summary :=
    {| fetched := List.length fresh;
       cached_before := List.length cachedActivities;
       cached_after := List.length merged;
       s_detailFetched := detailFetched;
       s_athleteId := athleteId;
       hasAthleteStats :=
         match athleteStats with Some _ => true | None => false end;
       s_nextAfterEpoch := nextAfterEpoch |} in
  emit (ConsoleLog summary) ;;;
  ret summary.

(** [main().catch(...)]: the events of the process and its exit status. *)
Definition main (w : World) : list Event * Z :=
  match run w with
  | (t, inl e) => ((t ++ [ConsoleError e])%list, 1)
  | (t, inr _) => (t, 0)
  end.

End Run.

(** What the three writes of a run leave on disk for the next run. *)
Fixpoint persist (w : World) (t : list Event) : World :=
  match t with
  | [] => w
  | ev :: r =>
      let w' :=
        match ev with
        | WriteActivities merged =>
            {| STRAVA_CLIENT_ID := STRAVA_CLIENT_ID w;
               STRAVA_CLIENT_SECRET := STRAVA_CLIENT_SECRET w;
               STRAVA_REFRESH_TOKEN := STRAVA_REFRESH_TOKEN w;
               STRAVA_INITIAL_AFTER_EPOCH := STRAVA_INITIAL_AFTER_EPOCH w;
               STRAVA_DETAIL_MAX := STRAVA_DETAIL_MAX w;
               baselineFile := baselineFile w;
               stateFile := stateFile w;
               activitiesFile := merged;
               tokenEndpoint := tokenEndpoint w;
               statsEndpoint := statsEndpoint w;
               activitiesEndpoint := activitiesEndpoint w;
               detailEndpoint := detailEndpoint w |}
        | WriteState lastSyncEpoch =>
            {| STRAVA_CLIENT_ID := STRAVA_CLIENT_ID w;
               STRAVA_CLIENT_SECRET := STRAVA_CLIENT_SECRET w;
               STRAVA_REFRESH_TOKEN := STRAVA_REFRESH_TOKEN w;
               STRAVA_INITIAL_AFTER_EPOCH := STRAVA_INITIAL_AFTER_EPOCH w;
               STRAVA_DETAIL_MAX := STRAVA_DETAIL_MAX w;
               baselineFile := baselineFile w;
               stateFile := Some lastSyncEpoch;
               activitiesFile := activitiesFile w;
               tokenEndpoint := tokenEndpoint w;
               statsEndpoint := statsEndpoint w;
               activitiesEndpoint := activitiesEndpoint w;
               detailEndpoint := detailEndpoint w |}
        | _ => w
        end in
      persist w' r
  end.

(** ** Observations on a trace *)

Definition isWrite (ev : Event) : bool :=
  match ev with
  | WriteActivities _ | WriteState _ | WriteStats _ => true
  | _ => false
  end.

Definition isDetailRequest (ev : Event) : bool :=
  match ev with
  | DetailRequest _ => true
  | _ => false
  end.

(** A detail look-up that the endpoint of [w] answers. *)
Definition isAnsweredDetail (w : World) (ev : Event) : bool :=
  match ev with
  | DetailRequest i =>
      match detailEndpoint w i with Some _ => true | None => false end
  | _ => false
  end.

Definition detailRequests (t : list Event) : nat :=
  List.length (filter isDetailRequest t).

Definition answeredDetails (w : World) (t : list Event) : nat :=
  List.length (filter (isAnsweredDetail w) t).

(** ** A concrete host and concrete inputs

    A process whose time zone is UTC and whose timestamps are written
    [YYYY-MM-DDTHH:MM:SSZ], the form Strava uses. *)

Module Example.

Import Js.
Local Open Scope string_scope.

Definition num (s : string) : option Z :=
  if negb (isEmpty s) && allChars isDigit s then Some (digitsValue 0 s)
  else None.

(** Days from 1970-01-01 to a civil date of the proleptic Gregorian
    calendar. *)
Definition daysFromCivil (y m d : Z) : Z :=
  let y := (if m <=? 2 then y - 1 else y)%Z in
  let era := (y / 400)%Z in
  let yoe := (y - era * 400)%Z in
  let doy := ((153 * (if 2 <? m then m - 3 else m + 9) + 2) / 5 + d - 1)%Z in
  let doe := (yoe * 365 + yoe / 4 - yoe / 100 + doy)%Z in
  (era * 146097 + doe - 719468)%Z.

Definition isoFields (s : string)
  : option (Z * Z * Z * Z * Z * Z) :=
  match num (substring 0 4 s), num (substring 5 2 s), num (substring 8 2 s),
        num (substring 11 2 s), num (substring 14 2 s),
        num (substring 17 2 s) with
  | Some y, Some m, Some d, Some hh, Some mm, Some ss =>
      if String.eqb (substring 4 1 s) "-" && String.eqb (substring 7 1 s) "-"
         && String.eqb (substring 10 1 s) "T"
         && String.eqb (substring 13 1 s) ":"
         && String.eqb (substring 16 1 s) ":"
         && String.eqb (substring 19 2 s) "Z"
         && (1 <=? m)%Z && (m <=? 12)%Z && (1 <=? d)%Z && (d <=? 31)%Z
         && (hh <? 24)%Z && (mm <? 60)%Z && (ss <? 60)%Z
      then Some (y, m, d, hh, mm, ss)
      else None
  | _, _, _, _, _, _ => None
  end.

Definition isoUtcMs (s : string) : option Z :=
  match isoFields s with
  | Some (y, m, d, hh, mm, ss) =>
      Some ((((daysFromCivil y m d * 24 + hh) * 60 + mm) * 60 + ss) * 1000)%Z
  | None => None
  end.

Definition isoUtcYmd (s : string) : option (Z * Z * Z) :=
  match isoFields s with
  | Some (y, m, d, _, _, _) => Some (y, (m - 1)%Z, d)
  | None => None
  end.

Definition utcHost : Host :=
  {| dateMs := isoUtcMs;
     localYmd := isoUtcYmd;
     exponentForm := fun _ => "1e+21" |}.

(** A raw activity with the given identifier, sport, UTC start, distance
    in metres and moving time in seconds, and nothing else. *)
Definition raw (i : Z) (sport start : string) (distance moving : option float)
  : Raw.t :=
  {| Raw.id := Some i; Raw.sport_type := Some sport; Raw.type := Some sport;
     Raw.name := None; Raw.start_date := Some start;
     Raw.start_date_local := Some start;
     Raw.distance := distance; Raw.moving_time := moving;
     Raw.elapsed_time := moving; Raw.total_elevation_gain := None;
     Raw.calories := None; Raw.kilojoules := None;
     Raw.average_speed := None; Raw.max_speed := None;
     Raw.average_temp := None; Raw.average_watts := None;
     Raw.has_heartrate := None; Raw.average_heartrate := None;
     Raw.max_heartrate := None; Raw.device_name := None;
     Raw.trainer := None; Raw.commute := None;
     Raw.detail_attempted := None |}.

(** The cached record of such an activity. *)
Definition record (i : Z) (sport start : string)
  (distance moving : option float) : Activity.t :=
  minimizeActivity (raw i sport start distance moving).

End Example.

(** More inputs: a server, and the worlds of a few runs. *)
Module Scenario.

Import Example.
Local Open Scope string_scope.

Definition startEpoch (r : Raw.t) : Z :=
  match obind (Raw.start_date r) isoUtcMs with
  | Some ms => (ms / 1000)%Z
  | None => 0%Z
  end.

(** The activity list of a server that holds [feed]: the activities that
    start after [after], all on the first page. *)
Definition listing (feed : list Raw.t) (page : Z) (after : option Z)
  : Http PageBody :=
  HttpOk (BodyArray
    (if (page =? 1)%Z
     then filter (fun r => match after with
                           | Some e => (e <? startEpoch r)%Z
                           | None => true
                           end) feed
     else [])).

(** A world with credentials, a token answer without athlete identifier,
    the server above, and a detail endpoint that fails on every look-up. *)
Definition world (feed : list Raw.t) (detailMax : EnvNumber)
  (state : option Z) (cache : list Activity.t) : World :=
  {| STRAVA_CLIENT_ID := Some "client";
     STRAVA_CLIENT_SECRET := Some "secret";
     STRAVA_REFRESH_TOKEN := Some "refresh";
     STRAVA_INITIAL_AFTER_EPOCH := EnvUnset;
     STRAVA_DETAIL_MAX := detailMax;
     baselineFile := {| Baseline.running := None |};
     stateFile := state;
     activitiesFile := cache;
     tokenEndpoint :=
       HttpOk {| access_token := Some "access"; athlete_id := None |};
     statsEndpoint := fun _ => HttpOk None;
     activitiesEndpoint := listing feed;
     detailEndpoint := fun _ => None |}.

(** The same world with a token endpoint that answers 401. *)
Definition lockedOut : World :=
  {| STRAVA_CLIENT_ID := Some "client";
     STRAVA_CLIENT_SECRET := Some "secret";
     STRAVA_REFRESH_TOKEN := Some "refresh";
     STRAVA_INITIAL_AFTER_EPOCH := EnvUnset;
     STRAVA_DETAIL_MAX := EnvUnset;
     baselineFile := {| Baseline.running := None |};
     stateFile := None;
     activitiesFile := [];
     tokenEndpoint := HttpError 401 "Unauthorized";
     statsEndpoint := fun _ => HttpOk None;
     activitiesEndpoint := listing [];
     detailEndpoint := fun _ => None |}.

Definition morningRun : Raw.t :=
  raw 101 "Run" "2025-07-01T06:00:00Z" (Some 5000%float) (Some 1500%float).
Definition noonRun : Raw.t :=
  raw 102 "Run" "2025-07-02T12:00:00Z" (Some 8000%float) (Some 2700%float).
Definition eveningRun : Raw.t :=
  raw 103 "Run" "2025-07-03T18:00:00Z" (Some 10000%float) (Some 3300%float).

(** First run on an empty cache, then the next run on what it wrote. *)
Definition firstWorld : World := world [morningRun] EnvUnset None [].
Definition firstTrace : list Event := fst (main utcHost firstWorld).
Definition secondWorld : World := persist firstWorld firstTrace.
Definition secondTrace : list Event := fst (main utcHost secondWorld).

(** Three new activities, one look-up allowed. *)
Definition budgetWorld : World :=
  world [morningRun; noonRun; eveningRun] (EnvInt 1) None [].

(** A baseline with 500 km at the given average pace text. *)
Definition baseline500 (pace : string) : Baseline.t :=
  {| Baseline.running :=
       Some {| Baseline.totalDistanceKm := Some 500%float;
               Baseline.avgPaceText := Some pace;
               Baseline.sinceLabel := None;
               Baseline.best := None |} |}.

(** One local run of 10 km in 3600 s. *)
Definition tenKmInOneHour : list Activity.t :=
  [record 1 "Run" "2025-07-01T06:00:00Z" (Some 10000%float)
     (Some 3600%float)].

(** A baseline whose records are a farthest run of 10 km, a best 5K of
    30:00 and a best 10K of 59:01. *)
Definition baselineRecords : Baseline.t :=
  {| Baseline.running :=
       Some {| Baseline.totalDistanceKm := Some 500%float;
               Baseline.avgPaceText := Some "6'00''/km";
               Baseline.sinceLabel := None;
               Baseline.best :=
                 Some {| Baseline.farthest :=
                           Some {| Baseline.distanceKm := Some 10%float;
                                   Baseline.f_paceText := Some "5'50''/km";
                                   Baseline.dateText := Some "2024.11.03" |};
                         Baseline.best5k :=
                           Some {| Baseline.timeText := Some "30:00";
                                   Baseline.unit := Some "min";
                                   Baseline.paceText := Some "6'00''/km" |};
                         Baseline.best10k :=
                           Some {| Baseline.timeText := Some "59:01";
                                   Baseline.unit := Some "min";
                                   Baseline.paceText := Some "5'54''/km" |}
                      |} |} |}.

(** Two local runs of 5 km: one whose moving time is 0, one of 1500 s. *)
Definition stoppedWatch : Activity.t :=
  record 201 "Run" "2025-07-04T06:00:00Z" (Some 5000%float) (Some 0%float).
Definition fiveKm : Activity.t :=
  record 202 "Run" "2025-07-05T06:00:00Z" (Some 5000%float) (Some 1500%float).

(** A cached record that carries no identifier. *)
Definition anonymous : Activity.t :=
  minimizeActivity
    {| Raw.id := None; Raw.sport_type := Some "Run"; Raw.type := Some "Run";
       Raw.name := None; Raw.start_date := Some "2025-07-01T06:00:00Z";
       Raw.start_date_local := Some "2025-07-01T06:00:00Z";
       Raw.distance := Some 5000%float; Raw.moving_time := Some 1500%float;
       Raw.elapsed_time := None; Raw.total_elevation_gain := None;
       Raw.calories := None; Raw.kilojoules := None;
       Raw.average_speed := None; Raw.max_speed := None;
       Raw.average_temp := None; Raw.average_watts := None;
       Raw.has_heartrate := None; Raw.average_heartrate := None;
       Raw.max_heartrate := None; Raw.device_name := None;
       Raw.trainer := None; Raw.commute := None;
       Raw.detail_attempted := None |}.

(** A record whose clock was never set: it starts at the epoch. *)
Definition unsetClock : Activity.t :=
  record 301 "Run" "1970-01-01T00:00:00Z" (Some 5000%float) (Some 1500%float).

End Scenario.

(** ** Vocabulary of the statements *)

Section Vocabulary.

Import Js.
Local Open Scope float_scope.

(** The distance in kilometres and the moving time in seconds that the
    statistics read off a record. *)
Definition kmOf (x : Activity.t) : float :=
  numberOrZero (Activity.distance_m x) / 1000.

Definition tOf (x : Activity.t) : float :=
  numberOrZero (Activity.moving_time_s x).

Definition bestKm (best : option (Activity.t * float)) : float :=
  match best with Some (_, k) => k | None => 0 end.

(** The object the loop of [findBestForDistance] builds for a record. *)
Definition effortOf (x : Activity.t) : Stats.Effort :=
  {| Stats.a := x; Stats.km := kmOf x; Stats.timeSec := tOf x;
     Stats.paceSecPerKm := tOf x / clamp (kmOf x) 0.001 1e9 |}.

(** The records the loop does not skip: inside the distance window, with a
    positive moving time. *)
Definition candidate (targetKm toleranceKm : float) (x : Activity.t) : Prop :=
  Stats.outsideWindow targetKm toleranceKm x = false
  /\ (tOf x <=? 0) = false.

(** The rule of one best-effort card: [best] is a candidate of least moving
    time, [chosen] is [best] when its time is below the baseline's parsed
    time, and without a chosen effort the baseline's texts are shown as they
    are. *)
Definition bestEffortRule (activities : list Activity.t)
  (targetKm toleranceKm : float) (entry : option Baseline.BestTime)
  (best chosen : option Stats.Effort) (value : option string) (sub : string)
  : Prop :=
  (forall e, best = Some e ->
     exists x, In x (Stats.runs activities)
               /\ candidate targetKm toleranceKm x /\ e = effortOf x)
  /\ (forall x, In x (Stats.runs activities) ->
        candidate targetKm toleranceKm x ->
        exists e, best = Some e /\ (tOf x <? Stats.timeSec e) = false)
  /\ (forall e, chosen = Some e <->
        best = Some e
        /\ exists sec,
             parseBaselineTimeToSec (obind entry Baseline.timeText) = Some sec
             /\ (Stats.timeSec e <? sec) = true)
  /\ (forall e, chosen = Some e ->
        value = formatTimeMinTextFromSec (Stats.timeSec e))
  /\ (chosen = None ->
        value = Some (match obind entry Baseline.timeText with
                      | Some t => t
                      | None => ""%string
                      end)
        /\ sub = match obind entry Baseline.paceText with
                 | Some t => t
                 | None => ""%string
                 end).

Definition totalDistanceValue (s : SportsStats) : string :=
  Card.value (r_totalDistance (running s)).

Definition totalTimeValue (s : SportsStats) : string :=
  Card.value (r_totalTime (running s)).

Local Open Scope Z_scope.

(** [map.set(a.id, a)] *)
Definition ins (m : IdMap) (a : Activity.t) : IdMap :=
  mapSet (Activity.id a) a m.

(** [map.get(k)] *)
Fixpoint mapGet (k : option Z) (m : IdMap) : option Activity.t :=
  match m with
  | [] => None
  | (k', v) :: r => if keyEqb k k' then Some v else mapGet k r
  end.

(** The last record of [l] with identifier [k]. *)
Definition lastWithId (k : option Z) (l : list Activity.t)
  : option Activity.t :=
  find (fun a => keyEqb k (Activity.id a)) (rev l).

(** The last raw activity of [fresh] with identifier [k]. *)
Definition lastFresh (k : option Z) (fresh : list Raw.t) : option Raw.t :=
  find (fun r => keyEqb k (Raw.id r)) (rev fresh).

(** Every value is stored under its own identifier, and no key repeats. *)
Definition wellKeyed (m : IdMap) : Prop :=
  NoDup (map fst m) /\ Forall (fun kv => Activity.id (snd kv) = fst kv) m.

(** The comparator lets [x] stay in front of [y]. *)
Definition inOrder {A : Type} (cmp : A -> A -> Z) (x y : A) : Prop :=
  cmp x y <= 0.

(** [x] does not start before [y], both start times being valid dates. *)
Definition startsNoEarlier (H : Host) (x y : Activity.t) : Prop :=
  match startTime H x, startTime H y with
  | Some tx, Some ty => ty <= tx
  | _, _ => False
  end.

(** The first of the three fetching steps that throws, if one does. *)
Definition fatalStep (w : World) : option Error :=
  match stravaRefreshAccessToken w with
  | (_, inl e) => Some e
  | (_, inr tok) =>
      match fetchAthleteStats w (snd tok) with
      | (_, inl e) => Some e
      | (_, inr _) =>
          match fetchActivities w (afterEpochOf w) with
          | (_, inl e) => Some e
          | (_, inr _) => None
          end
      end
  end.

(** The requests that come before the merge. *)
Definition isFetch (ev : Event) : bool :=
  match ev with
  | TokenRequest | StatsRequest _ | ActivitiesRequest _ _ => true
  | _ => false
  end.

Definition detailMaxOr0 (w : World) : Z :=
  match detailMaxOf w with Some n => n | None => 0 end.

(** The run stopped on [e]: nothing written, [e] printed last, status 1. *)
Definition aborted (H : Host) (w : World) (e : Error) : Prop :=
  snd (main H w) = 1
  /\ filter isWrite (fst (main H w)) = []
  /\ last (fst (main H w)) TokenRequest = ConsoleError e.

(** What a page answer throws, if it does. *)
Definition pageError (r : Http PageBody) : option Error :=
  match r with
  | HttpError status text => Some (ActivitiesFailed status text)
  | HttpOk BodyOther => Some ActivitiesNotArray
  | HttpOk (BodyArray _) => None
  end.

(** A page after which the loop asks for the next one. *)
Definition fullPage (r : Http PageBody) : bool :=
  match r with
  | HttpOk (BodyArray arr) => (per_page <=? List.length arr)%nat
  | _ => false
  end.

End Vocabulary.

(** ** Vocabulary of the statements on requests and look-ups *)

Section RequestVocabulary.

Local Open Scope Z_scope.

(** The [after] parameter of the page requests: present when the watermark
    is positive. *)
Definition afterParam (afterEpoch : Z) : option Z :=
  if 0 <? afterEpoch then Some afterEpoch else None.

(** The requests for the [n] pages that start at page [first]. *)
Definition pageRequests (after : option Z) (first : Z) (n : nat)
  : list Event :=
  map (fun j => ActivitiesRequest (first + Z.of_nat j) after) (seq 0 n).

(** The activities of a page answer. *)
Definition pageItems (r : Http PageBody) : list Raw.t :=
  match r with
  | HttpOk (BodyArray arr) => arr
  | _ => []
  end.

(** The activities of the [n] pages that start at page [first], in order. *)
Definition pagesItems (w : World) (after : option Z) (first : Z) (n : nat)
  : list Raw.t :=
  flat_map (fun j => pageItems (activitiesEndpoint w (first + Z.of_nat j) after))
    (seq 0 n).

(** An environment variable that [mustGetEnv] accepts. *)
Definition isSet (v : option string) : bool :=
  match v with
  | Some (String _ _) => true
  | _ => false
  end.

(** The first credential variable that is absent or empty. *)
Definition firstMissingEnv (w : World) : option string :=
  if negb (isSet (STRAVA_CLIENT_ID w)) then Some "STRAVA_CLIENT_ID"%string
  else if negb (isSet (STRAVA_CLIENT_SECRET w))
  then Some "STRAVA_CLIENT_SECRET"%string
  else if negb (isSet (STRAVA_REFRESH_TOKEN w))
  then Some "STRAVA_REFRESH_TOKEN"%string
  else None.

(** The records the back-fill loop may change: they carry an identifier of
    this run's fetch and are not marked yet. *)
Definition eligible (freshIds : list Z) (a : Activity.t) : bool :=
  match truthyZ (Activity.id a) with
  | Some i => existsb (Z.eqb i) freshIds && negb (Activity.detail_attempted a)
  | None => false
  end.

(** Among them, the records without energy figure: the loop looks them up. *)
Definition needsLookup (freshIds : list Z) (a : Activity.t) : bool :=
  eligible freshIds a && negb (hasEnergy a).

Definition idOf (a : Activity.t) : Z :=
  match Activity.id a with
  | Some i => i
  | None => 0
  end.

(** The look-up of a record. *)
Definition lookupOf (a : Activity.t) : Event := DetailRequest (idOf a).

(** The identifiers that the detail look-ups of a trace ask for. *)
Definition lookupIds (t : list Event) : list Z :=
  flat_map (fun ev => match ev with
                      | DetailRequest i => [i]
                      | _ => []
                      end) t.

(** What the loop may leave in the place of a record [a]: [a] itself, or,
    for an eligible record, [a] marked, or the answer to its look-up,
    marked. *)
Definition backfilled (w : World) (freshIds : list Z) (a a' : Activity.t)
  : Prop :=
  a' = a
  \/ (eligible freshIds a = true
      /\ (a' = Activity.markAttempted a
          \/ (hasEnergy a = false
              /\ exists d, detailEndpoint w (idOf a) = Some d
                           /\ a' = Activity.markAttempted (minimizeActivity d)))).

End RequestVocabulary.

(** ** Vocabulary of the statements on sports *)

(** A record that the statistics count: a run or a ride. *)
Definition classified (a : Activity.t) : bool := isRun a || isRide a.

(** ** Vocabulary of the statements on the order of the merged list *)

(** Among the records whose start dates are valid, none stands before one
    that starts later. *)
Definition newestFirst (H : Host) (l : list Activity.t) : Prop :=
  forall l1 x l2 y l3 tx ty,
    l = (l1 ++ x :: l2 ++ y :: l3)%list ->
    startTime H x = Some tx -> startTime H y = Some ty -> (ty <= tx)%Z.

(** Three cached runs: one of January, one whose start date does not
    parse, one of December. *)
Module Dates.

Import Example.
Local Open Scope string_scope.

Definition january : Activity.t :=
  record 1 "Run" "2025-01-10T08:00:00Z" (Some 5000%float) (Some 1500%float).
Definition unreadable : Activity.t :=
  record 3 "Run" "garbage" (Some 5000%float) (Some 1500%float).
Definition december : Activity.t :=
  record 4 "Run" "2025-12-10T08:00:00Z" (Some 5000%float) (Some 1500%float).

End Dates.

(** ** The yearly and monthly roll-ups of [computeSportsStats]

    The record [SportsStats] holds the cards of the returned document; its
    [years] and [monthly] parts are the four definitions that end this
    module. *)

Module Rollup.

(** A [Map], or an object used as one, with string keys: the entries in
    the order in which their keys were first set. *)
Definition StrMap (V : Type) : Type := list (string * V).

Fixpoint get {V : Type} (k : string) (m : StrMap V) : option V :=
  match m with
  | [] => None
  | (k', v) :: r => if String.eqb k k' then Some v else get k r
  end.

Fixpoint set {V : Type} (k : string) (v : V) (m : StrMap V) : StrMap V :=
  match m with
  | [] => [(k, v)]
  | (k', v') :: r =>
      if String.eqb k k' then (k, v) :: r else (k', v') :: set k v r
  end.

(** The accumulator [{ month, distanceKm, count, movingTimeHours }] of
    [groupMonthly], and the entry it returns for it. *)
Record MonthSum := {
  month : string;
  distanceKm : float;
  count : Z;
  movingTimeHours : float;
}.

Record Month := {
  m_month : string;
  m_distanceKm : string;
  m_count : Z;
  m_movingTimeHours : string;
}.

(** The accumulator [{ distance, time, count }] of [computeYearlyStats],
    and the entry it returns for it. *)
Record YearSum := {
  distance : float;
  time : float;
  y_count : Z;
}.

Record Year := {
  yr_distance : string;
  yr_time : string;
  yr_count : Z;
}.

Section Rollups.

Variable H : Host.

Import Js.
Local Open Scope string_scope.
Local Open Scope float_scope.

(** [monthKey]; an invalid date prints NaN twice. *)
Definition monthKey (dateLike : option string) : string :=
  match obind dateLike (localYmd H) with
  | Some (y, m, _) => decimal y ++ "-" ++ pad2 (m + 1)
  | None => "NaN-NaN"
  end.

(** One turn of the loop of [groupMonthly]. *)
Definition addMonthly (m : StrMap MonthSum) (a : Activity.t)
  : StrMap MonthSum :=
  let key := monthKey (Stats.startOf a) in
  let prev := match get key m with
              | Some p => p
              | None => {| month := key; distanceKm := 0; count := 0;
                           movingTimeHours := 0 |}
              end in
  set key
    {| month := month prev;
       distanceKm :=
         distanceKm prev + numberOrZero (Activity.distance_m a) / 1000;
       count := count prev + 1;
       movingTimeHours :=
         movingTimeHours prev
         + numberOrZero (Activity.moving_time_s a) / 3600 |}
    m.

(** The comparator [(a, b) => (a.month < b.month ? 1 : -1)]. *)
Definition byMonthDesc (a b : MonthSum) : Z :=
  if String.ltb (month a) (month b) then 1%Z else (-1)%Z.

Definition formatMonth (x : MonthSum) : Month :=
  {| m_month := month x;
     m_distanceKm := toFixedTrim H (distanceKm x) 2;
     m_count := count x;
     m_movingTimeHours := toFixedTrim H (movingTimeHours x) 2 |}.

(** [groupMonthly].  The comparator never answers 0, not even for an entry
    and itself, so the language leaves the order of the result to the
    implementation; [arraySort] gives one such order, the later month
    first.  Which entries the result holds does not depend on it. *)
Definition groupMonthly (arr : list Activity.t) : list Month :=
  map formatMonth
    (arraySort byMonthDesc (map snd (fold_left addMonthly arr []))).

(** [getYear]; an invalid date prints NaN. *)
Definition getYear (dateStr : option string) : string :=
  match obind dateStr (localYmd H) with
  | Some (y, _, _) => decimal y
  | None => "NaN"
  end.

Definition newYear : YearSum := {| distance := 0; time := 0; y_count := 0 |}.

(** One turn of the first loop of [computeYearlyStats]. *)
Definition addYearly (years : StrMap YearSum) (a : Activity.t)
  : StrMap YearSum :=
  let y := getYear (Stats.startOf a) in
  let cur := match get y years with
             | Some c => c
             | None => newYear
             end in
  set y
    {| distance := distance cur + numberOrZero (Activity.distance_m a) / 1000;
       time := time cur + numberOrZero (Activity.moving_time_s a) / 3600;
       y_count := y_count cur + 1 |}
    years.

(** The [if (baselineData)] block: the baseline goes to the year 2025, and
    leaves its count alone. *)
Definition addBaseline (years : StrMap YearSum)
  (baselineData : option Baseline.Running) : StrMap YearSum :=
  match baselineData with
  | None => years
  | Some b =>
      let bDist := numberOrZero (Baseline.totalDistanceKm b) in
      let bPace := parsePaceToSeconds (Baseline.avgPaceText b) in
      let bTime := bDist * bPace / 3600 in
      let cur := match get "2025" years with
                 | Some c => c
                 | None => newYear
                 end in
      set "2025"
        {| distance := distance cur + bDist;
           time := time cur + bTime;
           y_count := y_count cur |}
        years
  end.

Definition formatYear (c : YearSum) : Year :=
  {| yr_distance := toFixedTrim H (distance c) 2;
     yr_time := toFixedTrim H (time c) 1;
     yr_count := y_count c |}.

(** The comparison of the default [sort()]: by code units. *)
Definition byCodeUnits (a b : string) : Z :=
  match String.compare a b with
  | Lt => (-1)%Z
  | Eq => 0%Z
  | Gt => 1%Z
  end.

(** [out[y] = { ... }] for a key [y] of [years]. *)
Definition putYear (years : StrMap YearSum) (out : StrMap Year) (y : string)
  : StrMap Year :=
  match get y years with
  | Some c => set y (formatYear c) out
  | None => out
  end.

(** [computeYearlyStats].  The result is the object [out] as a map; the
    order in which the language enumerates the keys of [years] and of
    [out] (keys that write an array index first, in ascending order) is not
    part of it, and no statement below depends on it. *)
Definition computeYearlyStats (activities : list Activity.t)
  (baselineData : option Baseline.Running) : StrMap Year :=
  let years := addBaseline (fold_left addYearly activities []) baselineData in
  fold_left (putYear years)
    (rev (arraySort byCodeUnits (map fst years))) [].

(** The four roll-ups of the returned document. *)
Definition runYears (baseline : Baseline.t) (activities : list Activity.t)
  : StrMap Year :=
  computeYearlyStats (Stats.runs activities) (Baseline.running baseline).

Definition rideYears (activities : list Activity.t) : StrMap Year :=
  computeYearlyStats (Stats.rides activities) None.

Definition runMonthly (activities : list Activity.t) : list Month :=
  groupMonthly (Stats.runs activities).

Definition rideMonthly (activities : list Activity.t) : list Month :=
  groupMonthly (Stats.rides activities).

End Rollups.
End Rollup.

(** ** Vocabulary of the statements on roll-ups *)

Section RollupVocabulary.

Local Open Scope float_scope.

(** The records of [arr] whose key is [k]. *)
Definition keyed (key : Activity.t -> string) (k : string)
  (arr : list Activity.t) : list Activity.t :=
  filter (fun a => String.eqb k (key a)) arr.

(** A sum of kilometres and a sum of hours as the roll-ups accumulate
    them: record by record, in the order of the list, from [start]. *)
Definition kmSum (start : float) (arr : list Activity.t) : float :=
  fold_left (fun acc a => acc + kmOf a) arr start.

Definition hoursSum (start : float) (arr : list Activity.t) : float :=
  fold_left (fun acc a => acc + tOf a / 3600) arr start.

Definition monthOf (H : Host) (a : Activity.t) : string :=
  Rollup.monthKey H (Stats.startOf a).

Definition yearOf (H : Host) (a : Activity.t) : string :=
  Rollup.getYear H (Stats.startOf a).

(** The distance and the time that the baseline adds to the year 2025. *)
Definition baselineKm (baselineData : option Baseline.Running) : float :=
  match baselineData with
  | Some b => Js.numberOrZero (Baseline.totalDistanceKm b)
  | None => 0
  end.

Definition baselineHours (baselineData : option Baseline.Running) : float :=
  match baselineData with
  | Some b =>
      Js.numberOrZero (Baseline.totalDistanceKm b)
      * parsePaceToSeconds (Baseline.avgPaceText b) / 3600
  | None => 0
  end.

(** The turn of both loops: the entry of the record's key, or a new one,
    is updated and set. *)
Definition tally {V : Type} (key : Activity.t -> string) (init : string -> V)
  (upd : V -> Activity.t -> V) (m : Rollup.StrMap V) (a : Activity.t)
  : Rollup.StrMap V :=
  Rollup.set (key a)
    (upd (match Rollup.get (key a) m with
          | Some p => p
          | None => init (key a)
          end) a)
    m.

Definition newMonth (k : string) : Rollup.MonthSum :=
  {| Rollup.month := k; Rollup.distanceKm := 0; Rollup.count := 0;
     Rollup.movingTimeHours := 0 |}.

Definition moreMonth (p : Rollup.MonthSum) (a : Activity.t)
  : Rollup.MonthSum :=
  {| Rollup.month := Rollup.month p;
     Rollup.distanceKm := Rollup.distanceKm p + kmOf a;
     Rollup.count := Rollup.count p + 1;
     Rollup.movingTimeHours := Rollup.movingTimeHours p + tOf a / 3600 |}.

Definition moreYear (c : Rollup.YearSum) (a : Activity.t) : Rollup.YearSum :=
  {| Rollup.distance := Rollup.distance c + kmOf a;
     Rollup.time := Rollup.time c + tOf a / 3600;
     Rollup.y_count := Rollup.y_count c + 1 |}.

(** The counts of the entries of a map of months, added up. *)
Definition countSum (m : Rollup.StrMap Rollup.MonthSum) : Z :=
  fold_right Z.add 0%Z (map Rollup.count (map snd m)).

(** The baseline is present and [k] is the year it goes to. *)
Definition baselineYear (baselineData : option Baseline.Running) (k : string)
  : bool :=
  String.eqb k "2025"
  && match baselineData with Some _ => true | None => false end.

End RollupVocabulary.

(** ** Vocabulary of the statements on printed numbers *)

Section NumberVocabulary.

Local Open Scope string_scope.

(** A decimal text without the zeros that end its fraction, and without
    the point when nothing is left of the fraction. *)
Definition trimFraction (whole frac : string) : string :=
  let f := Js.dropWhileEnd (Ascii.eqb "0") frac in
  if Js.isEmpty f then whole else whole ++ "." ++ f.

(** The number [toFixed] prints after the sign. *)
Definition magnitude (n : float) : float :=
  if (n <? 0)%float then (- n)%float else n.

(** The sign [toFixed] prints. *)
Definition signText (n : float) : string :=
  if (n <? 0)%float then "-" else "".

End NumberVocabulary.

(** * Order facts on doubles *)

Section FloatOrder.

Local Open Scope float_scope.

Lemma lex_lt_trans (e1 e2 e3 : Z) (m1 m2 m3 : positive) :
  match (e1 ?= e2)%Z with
  | Eq => Pos.compare_cont Eq m1 m2 | Lt => Lt | Gt => Gt end = Lt ->
  match (e2 ?= e3)%Z with
  | Eq => Pos.compare_cont Eq m2 m3 | Lt => Lt | Gt => Gt end = Lt ->
  match (e1 ?= e3)%Z with
  | Eq => Pos.compare_cont Eq m1 m3 | Lt => Lt | Gt => Gt end = Lt.
Proof.
  change (Pos.compare_cont Eq) with Pos.compare.
  destruct (Z.compare_spec e1 e2), (Z.compare_spec e2 e3),
    (Z.compare_spec e1 e3); subst; try discriminate; try lia; auto.
  rewrite !Pos.compare_lt_iff. apply Pos.lt_trans.
Qed.

Lemma lex_gt_trans (e1 e2 e3 : Z) (m1 m2 m3 : positive) :
  match (e1 ?= e2)%Z with
  | Eq => CompOpp (Pos.compare_cont Eq m1 m2) | Lt => Gt | Gt => Lt end = Lt ->
  match (e2 ?= e3)%Z with
  | Eq => CompOpp (Pos.compare_cont Eq m2 m3) | Lt => Gt | Gt => Lt end = Lt ->
  match (e1 ?= e3)%Z with
  | Eq => CompOpp (Pos.compare_cont Eq m1 m3) | Lt => Gt | Gt => Lt end = Lt.
Proof.
  change (Pos.compare_cont Eq) with Pos.compare.
  destruct (Z.compare_spec e1 e2), (Z.compare_spec e2 e3),
    (Z.compare_spec e1 e3); subst; try discriminate; try lia; auto.
  destruct (Pos.compare_spec m1 m2), (Pos.compare_spec m2 m3),
    (Pos.compare_spec m1 m3); subst; simpl; try discriminate; try lia; auto.
Qed.

Lemma SFcompare_Lt_trans (a b c : spec_float) :
  SFcompare a b = Some Lt -> SFcompare b c = Some Lt ->
  SFcompare a c = Some Lt.
Proof.
  destruct a as [sa|sa| |sa ma ea], b as [sb|sb| |sb mb eb],
    c as [sc|sc| |sc mc ec]; simpl; try discriminate;
    try (destruct sa; try discriminate); try (destruct sb; try discriminate);
    try (destruct sc; try discriminate); auto; intros Hab Hbc;
    injection Hab as Hab; injection Hbc as Hbc; f_equal.
  - eapply lex_gt_trans; eassumption.
  - eapply lex_lt_trans; eassumption.
Qed.

Lemma ltb_trans (a b c : float) :
  (a <? b) = true -> (b <? c) = true -> (a <? c) = true.
Proof.
  rewrite !ltb_spec. unfold SFltb. intros Hab Hbc.
  destruct (SFcompare (Prim2SF a) (Prim2SF b)) as [[]|] eqn:Eab;
    try discriminate.
  destruct (SFcompare (Prim2SF b) (Prim2SF c)) as [[]|] eqn:Ebc;
    try discriminate.
  now rewrite (SFcompare_Lt_trans _ _ _ Eab Ebc).
Qed.

Lemma SFcompare_refl_not_Lt (a : spec_float) : SFcompare a a <> Some Lt.
Proof.
  destruct a as [s|s| |s m e]; simpl; try discriminate.
  - destruct s; discriminate.
  - change (Pos.compare_cont Eq) with Pos.compare.
    destruct s; rewrite Z.compare_refl, Pos.compare_refl; discriminate.
Qed.

Lemma ltb_irrefl (a : float) : (a <? a) = false.
Proof.
  rewrite ltb_spec. unfold SFltb.
  destruct (SFcompare (Prim2SF a) (Prim2SF a)) as [[]|] eqn:E; auto.
  now apply SFcompare_refl_not_Lt in E.
Qed.

Lemma SFcompare_Eq_sym (a b : spec_float) :
  SFcompare a b = Some Eq -> SFcompare b a = Some Eq.
Proof.
  destruct a as [sa|sa| |sa ma ea], b as [sb|sb| |sb mb eb]; simpl;
    try discriminate; auto;
    try (destruct sa; try discriminate); try (destruct sb; try discriminate);
    auto; change (Pos.compare_cont Eq) with Pos.compare;
    rewrite (Z.compare_antisym ea eb), (Pos.compare_antisym ma mb);
    destruct (ea ?= eb)%Z; simpl; try discriminate;
    destruct (ma ?= mb)%positive; simpl; try discriminate; auto.
Qed.

(** Doubles that [==] holds equal are not below one another. *)
Lemma eqb_not_gtb (a b : float) : (a =? b) = true -> (b <? a) = false.
Proof.
  rewrite eqb_spec, ltb_spec. unfold SFeqb, SFltb. intros E.
  destruct (SFcompare (Prim2SF a) (Prim2SF b)) as [[]|] eqn:Eab;
    try discriminate.
  now rewrite (SFcompare_Eq_sym _ _ Eab).
Qed.

(** What is not below a bound is not below anything smaller. *)
Lemma not_ltb_below (x lo hi : float) :
  (lo <? hi) = true -> (x <? hi) = false -> (x <? lo) = false.
Proof.
  intros Hlt Hx. destruct (x <? lo) eqn:E; auto.
  now rewrite (ltb_trans _ _ _ E Hlt) in Hx.
Qed.

(** What a bound is not below, nothing greater is below either. *)
Lemma not_ltb_above (x lo hi : float) :
  (lo <? hi) = true -> (lo <? x) = false -> (hi <? x) = false.
Proof.
  intros Hlt Hx. destruct (hi <? x) eqn:E; auto.
  now rewrite (ltb_trans _ _ _ Hlt E) in Hx.
Qed.

End FloatOrder.

(** * Running totals *)

Section Totals.

Local Open Scope string_scope.

(** C1, as stated, fails: with the pace text written 6:00 the baseline
    contributes no time, so the total-time card reads 1 and not 51.0; the
    total-distance card reads 510, its trailing zeros trimmed. *)
Lemma C1_colon_pace_counterexample :
  let s := Stats.computeSportsStats Example.utcHost
             (Scenario.baseline500 "6:00") Scenario.tenKmInOneHour None in
  totalDistanceValue s = "510" /\ totalTimeValue s = "1"
  /\ ~ (totalDistanceValue s = "510.00" /\ totalTimeValue s = "51.0").
Proof.
  vm_compute. repeat split. intros [? ?]. discriminate.
Qed.

(** C1, amended: with a baseline of 500 km, no lifetime running totals and
    one local run of 10 km in 3600 s, the running total-distance card reads
    510; the total-time card reads 51 (50 h of baseline plus 1 h local) when
    the average pace text is written 6'00'', the form [parsePaceToSeconds]
    reads, and 1 when it is written 6:00, which that function does not
    read. *)
Theorem C1_running_totals_scenario :
  forall (H : Host) (baseline : Baseline.t) (activities : list Activity.t)
         (athleteStats : option AthleteStats.t)
         (r : Baseline.Running) (a : Activity.t),
    Baseline.running baseline = Some r ->
    Baseline.totalDistanceKm r = Some 500%float ->
    Stats.statsAllRun athleteStats = None ->
    Stats.runs activities = [a] ->
    Activity.distance_m a = Some 10000%float ->
    Activity.moving_time_s a = Some 3600%float ->
    let s := Stats.computeSportsStats H baseline activities athleteStats in
    (Baseline.avgPaceText r = Some "6'00''" ->
     totalDistanceValue s = "510" /\ totalTimeValue s = "51")
    /\ (Baseline.avgPaceText r = Some "6:00" ->
        totalDistanceValue s = "510" /\ totalTimeValue s = "1").
Proof.
  intros H baseline activities athleteStats r a Hr Hkm Hstats Hruns Hd Ht s.
  unfold s, totalDistanceValue, totalTimeValue, Stats.computeSportsStats.
  cbn [running r_totalDistance r_totalTime Card.value].
  unfold Stats.runDistanceKm, Stats.runTimeH, Stats.baselineTimeH,
    Stats.baselinePaceSec, Stats.baselineTotalDistanceKm, Stats.sum.
  rewrite Hr, Hstats, Hruns. cbn [obind fold_left]. rewrite Hkm, Hd, Ht.
  split; intros ->; split; vm_compute; reflexivity.
Qed.

Lemma C1_witness :
  let s := Stats.computeSportsStats Example.utcHost
             (Scenario.baseline500 "6'00''") Scenario.tenKmInOneHour None in
  totalDistanceValue s = "510" /\ totalTimeValue s = "51".
Proof.
  refine (proj1 (C1_running_totals_scenario Example.utcHost
            (Scenario.baseline500 "6'00''") Scenario.tenKmInOneHour None _ _
            eq_refl eq_refl eq_refl eq_refl eq_refl eq_refl) eq_refl).
Defined.

End Totals.

(** * The farthest run *)

Section FarthestRun.

Import Js.
Local Open Scope float_scope.

Lemma farther_cases (best : option (Activity.t * float)) (x : Activity.t) :
  (Stats.farther best x = Some (x, kmOf x) /\ (bestKm best <? kmOf x) = true)
  \/ (Stats.farther best x = best /\ (bestKm best <? kmOf x) = false).
Proof.
  unfold Stats.farther, gt. fold (kmOf x). fold (bestKm best).
  destruct (bestKm best <? kmOf x); auto.
Qed.

Lemma farther_keeps_bound (l : list Activity.t) :
  forall best v,
    (bestKm best <? v) = false ->
    (bestKm (fold_left Stats.farther l best) <? v) = false.
Proof.
  induction l as [|x l IH]; intros best v Hv; simpl; auto.
  apply IH.
  destruct (farther_cases best x) as [[-> Hlt]|[-> _]]; auto.
  simpl. eapply not_ltb_above; eassumption.
Qed.

Lemma farther_is_max (l : list Activity.t) :
  forall best x, In x l ->
    (bestKm (fold_left Stats.farther l best) <? kmOf x) = false.
Proof.
  induction l as [|y l IH]; intros best x Hin; [destruct Hin|].
  simpl. destruct Hin as [->|Hin]; [|now apply IH].
  apply farther_keeps_bound.
  destruct (farther_cases best x) as [[-> _]|[-> Hnlt]]; auto.
  simpl. apply ltb_irrefl.
Qed.

Lemma farther_picks (l : list Activity.t) :
  forall best a k,
    fold_left Stats.farther l best = Some (a, k) ->
    best = Some (a, k) \/ (In a l /\ k = kmOf a).
Proof.
  induction l as [|y l IH]; intros best a k Hf; simpl in *; auto.
  apply IH in Hf. destruct Hf as [Hf|[Hin Hk]]; [|now right; auto].
  destruct (farther_cases best y) as [[E _]|[E _]]; rewrite E in Hf.
  - injection Hf as -> ->. right. auto.
  - now left.
Qed.

(** C7: the local distance [bestRunKm] is the greatest distance of a local
    running record; the farthest-run value and subtext differ from the
    baseline's only if that distance is strictly greater than the
    baseline's; when the two are equal the value stays the baseline distance
    and the subtext stays the baseline's pace and date; and when a local
    record is strictly farther, value and subtext are the ones computed from
    that record. *)
Theorem C7_farthest_run_is_strict :
  forall (H : Host) (baseline : Baseline.t) (activities : list Activity.t),
    let localKm := Stats.bestRunKm activities in
    let baseKm := Stats.baselineFarthestKm baseline in
    (forall x, In x (Stats.runs activities) -> (localKm <? kmOf x) = false)
    /\ (forall a k, Stats.bestRun activities = Some (a, k) ->
          In a (Stats.runs activities) /\ k = kmOf a /\ localKm = k)
    /\ (Stats.farthestCard H baseline activities
          <> Stats.baselineFarthestCard H baseline ->
        (baseKm <? localKm) = true)
    /\ ((localKm =? baseKm) = true ->
        Stats.farthestValue H baseline activities = toFixedTrim H baseKm 1
        /\ Stats.farthestSubtext H baseline activities
           = snd (Stats.baselineFarthestCard H baseline))
    /\ (forall a k, Stats.bestRun activities = Some (a, k) ->
          (baseKm <? k) = true ->
          Stats.farthestCard H baseline activities
          = Stats.localFarthestCard H a k).
Proof.
  intros H baseline activities localKm baseKm.
  assert (Hkeep : (baseKm <? localKm) = false ->
            Stats.farthestCard H baseline activities
            = Stats.baselineFarthestCard H baseline).
  { unfold Stats.farthestCard, gt. fold localKm baseKm. intros ->.
    now destruct (Stats.bestRun activities) as [[? ?]|]. }
  split; [|split; [|split; [|split]]].
  - intros x Hin. apply (farther_is_max _ None x Hin).
  - intros a k Hb. unfold localKm, Stats.bestRunKm. rewrite Hb.
    apply (farther_picks _ None) in Hb. destruct Hb as [|[? ?]]; easy.
  - intros Hne. destruct (baseKm <? localKm) eqn:E; [reflexivity|].
    elim Hne. now apply Hkeep.
  - intros Htie. apply eqb_not_gtb in Htie.
    unfold Stats.farthestValue, Stats.farthestSubtext.
    now rewrite (Hkeep Htie).
  - intros a k Hb Hlt. unfold Stats.farthestCard, gt, Stats.bestRunKm.
    rewrite Hb. fold baseKm. now rewrite Hlt.
Qed.

(** A local run of 10 km against a baseline record of 10 km: the tie keeps
    the baseline. *)
Lemma C7_witness :
  Stats.farthestValue Example.utcHost Scenario.baselineRecords
    Scenario.tenKmInOneHour = "10"%string
  /\ Stats.farthestSubtext Example.utcHost Scenario.baselineRecords
       Scenario.tenKmInOneHour = Some "5'50''/km @2024.11.03"%string.
Proof.
  exact (proj1 (proj2 (proj2 (proj2
           (C7_farthest_run_is_strict Example.utcHost
              Scenario.baselineRecords Scenario.tenKmInOneHour))))
           eq_refl).
Defined.

End FarthestRun.

(** * Best efforts over a fixed distance *)

Section BestEffort.

Import Js.
Local Open Scope float_scope.

Variables targetKm toleranceKm : float.

Lemma considerEffort_cases (best : option Stats.Effort) (x : Activity.t) :
  (candidate targetKm toleranceKm x
   /\ Stats.considerEffort targetKm toleranceKm best x = Some (effortOf x)
   /\ match best with
      | Some b => (tOf x <? Stats.timeSec b) = true
      | None => True
      end)
  \/ (Stats.considerEffort targetKm toleranceKm best x = best
      /\ (candidate targetKm toleranceKm x ->
          exists b, best = Some b /\ (tOf x <? Stats.timeSec b) = false)).
Proof.
  unfold Stats.considerEffort, candidate, le. fold (tOf x). fold (kmOf x).
  fold (effortOf x).
  destruct (Stats.outsideWindow targetKm toleranceKm x);
    [right; split; [reflexivity|intros [? _]; discriminate]|].
  destruct (tOf x <=? 0);
    [right; split; [reflexivity|intros [_ ?]; discriminate]|].
  destruct best as [b|]; [|left; auto].
  destruct (tOf x <? Stats.timeSec b) eqn:E; [left; auto|].
  right. split; [reflexivity|]. intros _. now exists b.
Qed.

Lemma loop_keeps_bound (l : list Activity.t) :
  forall b v, (v <? Stats.timeSec b) = false ->
    exists e,
      fold_left (Stats.considerEffort targetKm toleranceKm) l (Some b)
      = Some e
      /\ (v <? Stats.timeSec e) = false.
Proof.
  induction l as [|x l IH]; intros b v Hv; simpl; [now exists b|].
  destruct (considerEffort_cases (Some b) x) as [(_ & -> & Hlt)|[-> _]].
  - apply IH. simpl. eapply not_ltb_below; eassumption.
  - now apply IH.
Qed.

Lemma loop_is_min (l : list Activity.t) :
  forall best x, In x l -> candidate targetKm toleranceKm x ->
    exists e,
      fold_left (Stats.considerEffort targetKm toleranceKm) l best = Some e
      /\ (tOf x <? Stats.timeSec e) = false.
Proof.
  induction l as [|y l IH]; intros best x Hin Hc; [destruct Hin|].
  simpl. destruct Hin as [->|Hin]; [|now apply IH].
  destruct (considerEffort_cases best x) as [(_ & -> & _)|[-> Hb]].
  - apply loop_keeps_bound. simpl. apply ltb_irrefl.
  - destruct (Hb Hc) as (b & -> & Hnlt). now apply loop_keeps_bound.
Qed.

Lemma loop_picks (l : list Activity.t) :
  forall best e,
    fold_left (Stats.considerEffort targetKm toleranceKm) l best = Some e ->
    best = Some e
    \/ exists x, In x l /\ candidate targetKm toleranceKm x /\ e = effortOf x.
Proof.
  induction l as [|y l IH]; intros best e Hl; simpl in *; auto.
  apply IH in Hl. destruct Hl as [Hl|(x & Hin & Hc & ->)].
  - destruct (considerEffort_cases best y) as [(Hc & E & _)|[E _]];
      rewrite E in Hl.
    + injection Hl as <-. right. exists y. auto.
    + now left.
  - right. exists x. auto.
Qed.

Lemma chosen_iff (best : option Stats.Effort) (sec : option float)
  (e : Stats.Effort) :
  Stats.chosen best sec = Some e <->
  best = Some e /\ exists s, sec = Some s /\ (Stats.timeSec e <? s) = true.
Proof.
  unfold Stats.chosen. destruct best as [b|], sec as [s|]; split;
    try discriminate; try (intros [? _]; discriminate);
    try (intros [_ (? & ? & _)]; discriminate).
  - destruct (Stats.timeSec b <? s) eqn:E; [|discriminate].
    intros [= <-]. split; auto. now exists s.
  - intros [[= <-] (s' & [= <-] & ->)]. reflexivity.
Qed.

Lemma bestEffortRule_holds (H : Host) (activities : list Activity.t)
  (entry : option Baseline.BestTime) :
  let best := Stats.findBestForDistance activities targetKm toleranceKm in
  let c := Stats.chosen best
             (parseBaselineTimeToSec (obind entry Baseline.timeText)) in
  bestEffortRule activities targetKm toleranceKm entry best c
    (Stats.bestValue c entry) (Stats.bestSub H c entry).
Proof.
  intros best c. unfold bestEffortRule.
  split; [|split; [|split; [|split]]].
  - intros e He. apply (loop_picks _ None) in He.
    destruct He as [He|He]; [discriminate|exact He].
  - intros x Hin Hc. exact (loop_is_min _ None x Hin Hc).
  - intros e. apply chosen_iff.
  - intros e He. unfold Stats.bestValue. now rewrite He.
  - intros He. unfold Stats.bestValue, Stats.bestSub. now rewrite He.
Qed.

End BestEffort.

Section BestEffortCards.

Local Open Scope float_scope.

(** C8, as stated, fails: of two local runs of exactly 5 km, one with a
    moving time of 0 s and one of 1500 s, the record selected for the best
    5K is the second, although the moving time of the first is less. *)
Lemma C8_zero_time_counterexample :
  let activities := [Scenario.stoppedWatch; Scenario.fiveKm] in
  In Scenario.stoppedWatch (Stats.runs activities)
  /\ Stats.outsideWindow 5 0.08 Scenario.stoppedWatch = false
  /\ Stats.best5k activities = Some (effortOf Scenario.fiveKm)
  /\ (tOf Scenario.stoppedWatch <? tOf Scenario.fiveKm) = true
  /\ Stats.best5kValue Scenario.baselineRecords activities
     = Some "25:00"%string.
Proof.
  vm_compute. repeat split; auto.
Qed.

(** The baseline time text read as minutes and seconds, with a colon or a
    point, and as whole minutes otherwise. *)
Remark parseBaselineTimeToSec_samples :
  parseBaselineTimeToSec (Some "59:01"%string) = Some 3541
  /\ parseBaselineTimeToSec (Some "27.31"%string) = Some 1651
  /\ parseBaselineTimeToSec (Some " 45 "%string) = Some 2700
  /\ parseBaselineTimeToSec (Some "soon"%string) = None
  /\ parseBaselineTimeToSec None = None.
Proof. vm_compute. auto. Qed.

(** The distance test runs on doubles: a run of 5080 m is outside the
    window of 0.08 km around 5 km, a run of 5079 m is inside. *)
Remark window_test_on_doubles :
  Stats.outsideWindow 5 0.08
    (Example.record 1 "Run" "2025-07-01T06:00:00Z" (Some 5080) (Some 1500))
  = true
  /\ Stats.outsideWindow 5 0.08
       (Example.record 1 "Run" "2025-07-01T06:00:00Z" (Some 5079)
          (Some 1500))
     = false.
Proof. vm_compute. auto. Qed.

(** C8, amended: for the best 5K (window 0.08 km around 5 km) and the best
    10K (window 0.12 km around 10 km), the selected effort is a local
    running record that passes the distance test and has a positive moving
    time, and no such record has a smaller moving time; it is chosen over
    the baseline exactly when the baseline's time text parses and the
    effort's time is strictly below the parsed time; a chosen effort shows
    its own formatted time, and otherwise the baseline's time text and pace
    text are shown unchanged. *)
Theorem C8_best_5k_10k_rule :
  forall (H : Host) (baseline : Baseline.t) (activities : list Activity.t),
    bestEffortRule activities 5 0.08 (Stats.baseline5k baseline)
      (Stats.best5k activities) (Stats.best5kChosen baseline activities)
      (Stats.best5kValue baseline activities)
      (Stats.best5kSub H baseline activities)
    /\ bestEffortRule activities 10 0.12 (Stats.baseline10k baseline)
         (Stats.best10k activities) (Stats.best10kChosen baseline activities)
         (Stats.best10kValue baseline activities)
         (Stats.best10kSub H baseline activities).
Proof.
  intros H baseline activities. split.
  - exact (bestEffortRule_holds 5 0.08 H activities
             (Stats.baseline5k baseline)).
  - exact (bestEffortRule_holds 10 0.12 H activities
             (Stats.baseline10k baseline)).
Qed.

(** A local run of 10 km in 3600 s against a baseline 10K of 59:01: the
    effort is not chosen and the baseline's texts stay. *)
Lemma C8_witness :
  Stats.best10kValue Scenario.baselineRecords Scenario.tenKmInOneHour
  = Some "59:01"%string
  /\ Stats.best10kSub Example.utcHost Scenario.baselineRecords
       Scenario.tenKmInOneHour = "5'54''/km"%string.
Proof.
  exact (proj2 (proj2 (proj2 (proj2 (proj2
           (C8_best_5k_10k_rule Example.utcHost Scenario.baselineRecords
              Scenario.tenKmInOneHour))))) eq_refl).
Defined.

End BestEffortCards.

(** * The identifier-keyed map *)

Section IdMapFacts.

Local Open Scope Z_scope.

Lemma key_dec (a b : option Z) : {a = b} + {a <> b}.
Proof. decide equality. apply Z.eq_dec. Qed.

Lemma keyEqb_eq (a b : option Z) : keyEqb a b = true <-> a = b.
Proof.
  destruct a as [x|], b as [y|]; simpl; split; try discriminate; auto.
  - intros E. apply Z.eqb_eq in E. now subst.
  - intros [= ->]. apply Z.eqb_refl.
Qed.

Lemma keyEqb_refl (a : option Z) : keyEqb a a = true.
Proof. now apply keyEqb_eq. Qed.

Lemma keyEqb_neq (a b : option Z) : keyEqb a b = false <-> a <> b.
Proof.
  rewrite <- keyEqb_eq. destruct (keyEqb a b); split; congruence.
Qed.

Lemma mapGet_none (k : option Z) (m : IdMap) :
  mapGet k m = None <-> ~ In k (map fst m).
Proof.
  induction m as [|[k' v] m IH]; simpl; [tauto|].
  destruct (keyEqb k k') eqn:E.
  - apply keyEqb_eq in E. subst. split; [discriminate|tauto].
  - apply keyEqb_neq in E. rewrite IH. split; [intros ? [?|?]|]; intuition.
Qed.

Lemma mapGet_in (k : option Z) (v : Activity.t) (m : IdMap) :
  NoDup (map fst m) -> In (k, v) m -> mapGet k m = Some v.
Proof.
  induction m as [|[k' v'] m IH]; simpl; [tauto|].
  intros Hnd [[= -> ->]|Hin]; [now rewrite keyEqb_refl|].
  inversion Hnd as [|? ? Hnotin Hnd']; subst.
  destruct (keyEqb k k') eqn:E; [|now apply IH].
  apply keyEqb_eq in E. subst. elim Hnotin.
  now apply (in_map fst) in Hin.
Qed.

Lemma mapGet_some_in (k : option Z) (v : Activity.t) (m : IdMap) :
  mapGet k m = Some v -> In (k, v) m.
Proof.
  induction m as [|[k' v'] m IH]; simpl; [discriminate|].
  destruct (keyEqb k k') eqn:E; [|now right; apply IH].
  apply keyEqb_eq in E. subst. intros [= ->]. now left.
Qed.

Lemma mapSet_keys (k : option Z) (v : Activity.t) (m : IdMap) :
  map fst (mapSet k v m)
  = match mapGet k m with
    | Some _ => map fst m
    | None => (map fst m ++ [k])%list
    end.
Proof.
  induction m as [|[k' v'] m IH]; simpl; auto.
  destruct (keyEqb k k') eqn:E; simpl.
  - apply keyEqb_eq in E. now subst.
  - rewrite IH. now destruct (mapGet k m).
Qed.

Lemma mapSet_get (k k0 : option Z) (v : Activity.t) (m : IdMap) :
  mapGet k0 (mapSet k v m) = if keyEqb k0 k then Some v else mapGet k0 m.
Proof.
  induction m as [|[k' v'] m IH]; simpl.
  - now destruct (keyEqb k0 k).
  - destruct (keyEqb k k') eqn:E; simpl.
    + apply keyEqb_eq in E. subst k'. now destruct (keyEqb k0 k).
    + rewrite IH. destruct (keyEqb k0 k') eqn:E'; auto.
      destruct (keyEqb k0 k) eqn:E''; auto.
      apply keyEqb_eq in E', E''. subst. now rewrite keyEqb_refl in E.
Qed.

Lemma mapSet_absent (k : option Z) (v : Activity.t) (m : IdMap) :
  ~ In k (map fst m) -> mapSet k v m = (m ++ [(k, v)])%list.
Proof.
  induction m as [|[k' v'] m IH]; simpl; auto. intros Hno.
  destruct (keyEqb k k') eqn:E.
  - apply keyEqb_eq in E. subst. tauto.
  - f_equal. apply IH. tauto.
Qed.

Lemma mapSet_members (k : option Z) (v : Activity.t) (m : IdMap)
  (kv : option Z * Activity.t) :
  In kv (mapSet k v m) -> kv = (k, v) \/ In kv m.
Proof.
  induction m as [|[k' v'] m IH]; simpl.
  - intros [<-|[]]. now left.
  - destruct (keyEqb k k'); simpl; intros [<-|Hin]; auto.
    destruct (IH Hin); auto.
Qed.

Lemma ins_wellKeyed (m : IdMap) (a : Activity.t) :
  wellKeyed m -> wellKeyed (ins m a).
Proof.
  unfold ins. intros [Hnd Hid]. split.
  - rewrite mapSet_keys. destruct (mapGet (Activity.id a) m) eqn:E; auto.
    apply mapGet_none in E. apply NoDup_app; auto.
    + repeat constructor. simpl. tauto.
    + intros x Hx [<-|[]]. tauto.
  - clear Hnd. induction m as [|[k' v'] m IH]; simpl.
    + now repeat constructor.
    + inversion Hid; subst.
      destruct (keyEqb (Activity.id a) k'); constructor; auto.
Qed.

Lemma fold_ins_wellKeyed (l : list Activity.t) :
  forall m, wellKeyed m -> wellKeyed (fold_left ins l m).
Proof.
  induction l as [|a l IH]; simpl; auto using ins_wellKeyed.
Qed.

Lemma lastWithId_snoc (k : option Z) (l : list Activity.t) (a : Activity.t) :
  lastWithId k (l ++ [a])
  = if keyEqb k (Activity.id a) then Some a else lastWithId k l.
Proof.
  unfold lastWithId. now rewrite rev_app_distr.
Qed.

Lemma fold_ins_get (l : list Activity.t) :
  forall m k,
    mapGet k (fold_left ins l m)
    = match lastWithId k l with Some a => Some a | None => mapGet k m end.
Proof.
  induction l as [|a l IH] using rev_ind; intros m k; [reflexivity|].
  rewrite fold_left_app, lastWithId_snoc. simpl. unfold ins at 1.
  rewrite mapSet_get. now destruct (keyEqb k (Activity.id a)).
Qed.

(** A list without repeated identifiers is stored as it is. *)
Lemma fold_ins_fresh_keys (l : list Activity.t) :
  forall m,
    NoDup (map Activity.id l) ->
    (forall a, In a l -> ~ In (Activity.id a) (map fst m)) ->
    fold_left ins l m = (m ++ map (fun a => (Activity.id a, a)) l)%list.
Proof.
  induction l as [|a l IH]; intros m Hnd Hnew; simpl.
  - now rewrite app_nil_r.
  - inversion Hnd as [|? ? Hnotin Hnd']; subst.
    unfold ins at 2. rewrite mapSet_absent by (apply Hnew; now left).
    rewrite IH; auto.
    + now rewrite <- app_assoc.
    + intros b Hb. rewrite map_app, in_app_iff. simpl.
      intros [Hin|[Heq|[]]].
      * now apply (Hnew b (or_intror Hb)).
      * apply Hnotin. rewrite Heq. now apply in_map.
Qed.

(** Storing [l] into a map rewrites the values under the keys of [l] and
    puts the new keys behind. *)
Lemma fold_ins_shape (l : list Activity.t) :
  forall m, NoDup (map fst m) ->
    exists extra,
      fold_left ins l m
      = (map (fun kv => (fst kv,
                         match lastWithId (fst kv) l with
                         | Some a => a
                         | None => snd kv
                         end)) m ++ extra)%list
      /\ forall kv, In kv extra ->
           ~ In (fst kv) (map fst m) /\ In (fst kv) (map Activity.id l)
           /\ Activity.id (snd kv) = fst kv.
Proof.
  induction l as [|a l IH] using rev_ind; intros m Hnd.
  - exists []. simpl. rewrite app_nil_r. split; [|intros ? []].
    rewrite <- (map_id m) at 1. apply map_ext. now intros [? ?].
  - destruct (IH m Hnd) as (extra & E & Hex).
    rewrite fold_left_app. simpl. rewrite E. unfold ins.
    set (upd := fun l0 (kv : option Z * Activity.t) =>
                  (fst kv, match lastWithId (fst kv) l0 with
                           | Some a0 => a0
                           | None => snd kv
                           end)).
    destruct (in_dec key_dec (Activity.id a) (map fst m)) as [Hin|Hno].
    + exists extra. split.
      * clear E IH Hex. fold (upd l). fold (upd (l ++ [a])%list).
        induction m as [|[k' v'] m IHm]; [destruct Hin|].
        simpl in *. inversion Hnd as [|? ? Hnotin Hnd']; subst.
        unfold upd at 3. simpl. rewrite lastWithId_snoc.
        destruct (keyEqb (Activity.id a) k') eqn:Ek.
        -- apply keyEqb_eq in Ek. subst k'. rewrite keyEqb_refl.
           f_equal. f_equal. apply map_ext_in. intros [k2 v2] H2.
           unfold upd. simpl. rewrite lastWithId_snoc.
           destruct (keyEqb k2 (Activity.id a)) eqn:E2; auto.
           apply keyEqb_eq in E2. subst. elim Hnotin.
           now apply (in_map fst) in H2.
        -- assert (Ek' : keyEqb k' (Activity.id a) = false).
           { apply keyEqb_neq. apply keyEqb_neq in Ek. congruence. }
           rewrite Ek'. unfold upd at 1. simpl. f_equal.
           apply IHm; auto.
           destruct Hin as [Heq|Hin]; auto.
           subst. now rewrite keyEqb_refl in Ek.
      * intros kv Hkv. destruct (Hex kv Hkv) as (? & ? & ?).
        repeat split; auto. rewrite map_app, in_app_iff. now left.
    + exists (mapSet (Activity.id a) a extra). split.
      * fold (upd l). fold (upd (l ++ [a])%list).
        assert (Eupd : map (upd (l ++ [a])%list) m = map (upd l) m).
        { apply map_ext_in. intros [k2 v2] H2. unfold upd. simpl.
          rewrite lastWithId_snoc.
          destruct (keyEqb k2 (Activity.id a)) eqn:E2; auto.
          apply keyEqb_eq in E2. subst. elim Hno.
          now apply (in_map fst) in H2. }
        rewrite Eupd.
        assert (Hno' : ~ In (Activity.id a) (map fst (map (upd l) m))).
        { rewrite map_map. simpl. exact Hno. }
        clear - Hno'. induction (map (upd l) m) as [|[k' v'] m' IHm];
          simpl in *; auto.
        destruct (keyEqb (Activity.id a) k') eqn:Ek.
        -- apply keyEqb_eq in Ek. subst. tauto.
        -- f_equal. apply IHm. tauto.
      * intros kv Hkv. apply mapSet_members in Hkv.
        destruct Hkv as [->|Hin'].
        -- simpl. repeat split; auto. rewrite map_app, in_app_iff.
           right. now left.
        -- destruct (Hex kv Hin') as (? & ? & ?). repeat split; auto.
           rewrite map_app, in_app_iff. now left.
Qed.

End IdMapFacts.

(** * The stable sort *)

Section SortFacts.

Local Open Scope Z_scope.

Context {A : Type}.
Variable cmp : A -> A -> Z.

Hypothesis cmp_antisym : forall x y, 0 < cmp x y -> cmp y x <= 0.

Lemma insertBy_perm (x : A) (l : list A) :
  Permutation (insertBy cmp x l) (x :: l).
Proof.
  induction l as [|y l IH]; simpl; auto.
  destruct (cmp x y <=? 0); auto.
  rewrite IH. apply perm_swap.
Qed.

Lemma arraySort_perm (l : list A) : Permutation (arraySort cmp l) l.
Proof.
  induction l as [|x l IH]; simpl; auto.
  rewrite insertBy_perm. now constructor.
Qed.

Lemma insertBy_sorted (x : A) (l : list A) :
  Sorted (inOrder cmp) l -> Sorted (inOrder cmp) (insertBy cmp x l).
Proof.
  induction 1 as [|y l Hs IH Hhd]; simpl.
  - repeat constructor.
  - destruct (Z.leb_spec (cmp x y) 0) as [Hle|Hgt].
    + repeat constructor; auto.
    + constructor; auto.
      destruct l as [|z l]; simpl.
      * constructor. now apply cmp_antisym.
      * destruct (Z.leb_spec (cmp x z) 0).
        -- constructor. now apply cmp_antisym.
        -- inversion Hhd; subst. now constructor.
Qed.

Lemma arraySort_sorted (l : list A) : Sorted (inOrder cmp) (arraySort cmp l).
Proof.
  induction l as [|x l IH]; simpl; [constructor|].
  now apply insertBy_sorted.
Qed.

(** Sorting what is in order already changes nothing. *)
Lemma arraySort_fixed (l : list A) :
  Sorted (inOrder cmp) l -> arraySort cmp l = l.
Proof.
  induction 1 as [|x l Hs IH Hhd]; simpl; auto.
  rewrite IH. destruct Hhd as [|y l Hxy]; simpl; auto.
  unfold inOrder in Hxy. destruct (Z.leb_spec (cmp x y) 0); auto. lia.
Qed.

End SortFacts.

(** * The merge *)

Section MergeFacts.

Local Open Scope Z_scope.

Variable H : Host.

Lemma byStartDesc_antisym (x y : Activity.t) :
  0 < byStartDesc H x y -> byStartDesc H y x <= 0.
Proof.
  unfold byStartDesc. destruct (startTime H x), (startTime H y); lia.
Qed.

Lemma mergeMap_fold (cached : list Activity.t) (fresh : list Raw.t) :
  mergeMap cached fresh
  = fold_left ins (map minimizeActivity fresh) (fold_left ins cached []).
Proof.
  unfold mergeMap. fold ins.
  generalize (fold_left ins cached []).
  induction fresh as [|r fresh IH]; intros m; simpl; auto.
Qed.

Lemma mergeMap_wellKeyed (cached : list Activity.t) (fresh : list Raw.t) :
  wellKeyed (mergeMap cached fresh).
Proof.
  rewrite mergeMap_fold. do 2 apply fold_ins_wellKeyed.
  split; constructor.
Qed.

Lemma lastWithId_minimized (k : option Z) (fresh : list Raw.t) :
  lastWithId k (map minimizeActivity fresh)
  = option_map minimizeActivity (lastFresh k fresh).
Proof.
  unfold lastWithId, lastFresh. rewrite <- map_rev.
  induction (rev fresh) as [|r l IH]; simpl; auto.
  change (Activity.id (minimizeActivity r)) with (Raw.id r).
  now destruct (keyEqb k (Raw.id r)).
Qed.

Lemma lastWithId_some (k : option Z) (l : list Activity.t) (a : Activity.t) :
  lastWithId k l = Some a -> In a l /\ Activity.id a = k.
Proof.
  unfold lastWithId. intros E. apply find_some in E. destruct E as [Hin E].
  apply in_rev in Hin. apply keyEqb_eq in E. auto.
Qed.

Lemma lastFresh_exists (k : option Z) (fresh : list Raw.t) :
  In k (map Raw.id fresh) -> exists r, lastFresh k fresh = Some r.
Proof.
  intros Hin. apply in_map_iff in Hin. destruct Hin as (r & <- & Hin).
  unfold lastFresh.
  destruct (find (fun r0 => keyEqb (Raw.id r) (Raw.id r0)) (rev fresh))
    as [r'|] eqn:E; [now exists r'|].
  apply in_rev in Hin. apply (find_none _ _ E) in Hin.
  now rewrite keyEqb_refl in Hin.
Qed.

(** What the map holds under a key: the last fresh record with that
    identifier, minimized, and else the last cached one. *)
Lemma mergeMap_get (cached : list Activity.t) (fresh : list Raw.t)
  (k : option Z) :
  mapGet k (mergeMap cached fresh)
  = match lastFresh k fresh with
    | Some r => Some (minimizeActivity r)
    | None => lastWithId k cached
    end.
Proof.
  rewrite mergeMap_fold, !fold_ins_get, lastWithId_minimized. simpl.
  destruct (lastFresh k fresh); simpl; auto.
  now destruct (lastWithId k cached).
Qed.

Lemma in_merge (cached : list Activity.t) (fresh : list Raw.t)
  (a : Activity.t) :
  In a (merge H cached fresh) <->
  hasId a = true /\ mapGet (Activity.id a) (mergeMap cached fresh) = Some a.
Proof.
  unfold merge.
  destruct (mergeMap_wellKeyed cached fresh) as [Hnd Hid].
  split.
  - intros Hin.
    apply (Permutation_in _ (arraySort_perm _ _)) in Hin.
    apply filter_In in Hin. destruct Hin as [Hin Hk]. split; auto.
    apply in_map_iff in Hin. destruct Hin as ([k v] & <- & Hin).
    rewrite Forall_forall in Hid. specialize (Hid _ Hin). simpl in *.
    rewrite Hid. now apply mapGet_in.
  - intros [Hk Hg]. apply mapGet_some_in in Hg.
    apply (Permutation_in _ (Permutation_sym (arraySort_perm _ _))).
    apply filter_In. split; auto. now apply (in_map snd) in Hg.
Qed.

Lemma NoDup_map_snd_ids (m : IdMap) :
  wellKeyed m -> NoDup (map Activity.id (map snd m)).
Proof.
  intros [Hnd Hid]. rewrite map_map.
  erewrite map_ext_in; [exact Hnd|].
  intros kv Hkv. rewrite Forall_forall in Hid. now apply Hid.
Qed.

(** Filtering keeps identifiers pairwise distinct. *)
Lemma filter_ids_NoDup (keep : Activity.t -> bool) (l : list Activity.t) :
  NoDup (map Activity.id l) -> NoDup (map Activity.id (filter keep l)).
Proof.
  induction l as [|x l IH]; simpl; auto.
  intros Hnd. inversion Hnd as [|? ? Hnotin Hnd']; subst.
  destruct (keep x); simpl; auto. constructor; auto.
  intros Hin. apply Hnotin. apply in_map_iff in Hin.
  destruct Hin as (y & <- & Hy). apply filter_In in Hy.
  apply in_map. tauto.
Qed.

Lemma filter_all {A} (p : A -> bool) (l : list A) :
  Forall (fun a => p a = true) l -> filter p l = l.
Proof.
  induction 1 as [|x l Hx _ IH]; simpl; auto. now rewrite Hx, IH.
Qed.

Lemma filter_none {A} (p : A -> bool) (l : list A) :
  (forall a, In a l -> p a = false) -> filter p l = [].
Proof.
  induction l as [|x l IH]; simpl; auto. intros Hl.
  rewrite (Hl x (or_introl eq_refl)). apply IH.
  intros a Ha. apply Hl. now right.
Qed.

Lemma merge_NoDup (cached : list Activity.t) (fresh : list Raw.t) :
  NoDup (map Activity.id (merge H cached fresh)).
Proof.
  unfold merge.
  eapply Permutation_NoDup.
  - apply Permutation_map, Permutation_sym, arraySort_perm.
  - apply filter_ids_NoDup, NoDup_map_snd_ids, mergeMap_wellKeyed.
Qed.

Lemma merge_hasId (cached : list Activity.t) (fresh : list Raw.t) :
  Forall (fun a => hasId a = true) (merge H cached fresh).
Proof.
  apply Forall_forall. intros a Ha. now apply in_merge in Ha.
Qed.

(** A record of the merged set is the last fresh record of its identifier,
    minimized, when there is one, and a cached record otherwise. *)
Lemma merge_override (cached : list Activity.t) (fresh : list Raw.t)
  (a : Activity.t) :
  In a (merge H cached fresh) ->
  match lastFresh (Activity.id a) fresh with
  | Some r => a = minimizeActivity r
  | None => In a cached
  end.
Proof.
  intros Ha. apply in_merge in Ha. destruct Ha as [_ Hg].
  rewrite mergeMap_get in Hg.
  destruct (lastFresh (Activity.id a) fresh) as [r|].
  - now injection Hg.
  - now apply lastWithId_some in Hg.
Qed.

Lemma merge_present (cached : list Activity.t) (fresh : list Raw.t)
  (k : option Z) (r : Raw.t) :
  truthyZ k <> None -> lastFresh k fresh = Some r ->
  In (minimizeActivity r) (merge H cached fresh).
Proof.
  intros Hk Hr. apply in_merge.
  assert (Hid : Raw.id r = k).
  { unfold lastFresh in Hr. apply find_some in Hr.
    destruct Hr as [_ Hr]. apply keyEqb_eq in Hr. auto. }
  change (Activity.id (minimizeActivity r)) with (Raw.id r).
  rewrite Hid. split.
  - unfold hasId.
    change (Activity.id (minimizeActivity r)) with (Raw.id r).
    rewrite Hid. now destruct (truthyZ k).
  - rewrite mergeMap_get. now rewrite Hr.
Qed.

Lemma merge_sorted (cached : list Activity.t) (fresh : list Raw.t) :
  Sorted (inOrder (byStartDesc H)) (merge H cached fresh).
Proof.
  apply arraySort_sorted, byStartDesc_antisym.
Qed.

Lemma sorted_valid_strongly (l : list Activity.t) :
  (forall a, In a l -> startTime H a <> None) ->
  Sorted (inOrder (byStartDesc H)) l ->
  StronglySorted (startsNoEarlier H) l.
Proof.
  intros Hvalid Hs.
  assert (Hs' : Sorted (fun x y => startsNoEarlier H x y
                                   /\ startTime H y <> None) l).
  { induction Hs as [|x l Hs IH Hhd]; constructor.
    - apply IH. intros a Ha. apply Hvalid. now right.
    - destruct Hhd as [|y l Hxy]; constructor.
      unfold inOrder, byStartDesc, startsNoEarlier in *.
      pose proof (Hvalid x (or_introl eq_refl)) as Hx.
      pose proof (Hvalid y (or_intror (or_introl eq_refl))) as Hy.
      destruct (startTime H x), (startTime H y); try tauto.
      split; [lia|discriminate]. }
  apply Sorted_StronglySorted in Hs'.
  - clear - Hs'. induction Hs' as [|x l Hs IH Hall]; constructor; auto.
    eapply Forall_impl; [|exact Hall]. now intros ? [? _].
  - intros x y z [Hxy Hy] [Hyz Hz]. split; auto.
    unfold startsNoEarlier in *.
    destruct (startTime H x), (startTime H y), (startTime H z);
      try tauto. lia.
Qed.

(** C6: in the merged set no two records share an identifier; every record
    has a non-empty identifier; a record whose identifier occurs in the
    fresh set is exactly the minimized last fresh activity of that
    identifier (no field of a cached record survives), every other record
    comes from the cache, and every fresh activity with a non-empty
    identifier is present in that form; and, the start dates of the merged
    records being valid dates, the set is sorted by UTC start time, newest
    first. *)
Theorem C6_merged_set_invariants :
  forall (cached : list Activity.t) (fresh : list Raw.t),
    let merged := merge H cached fresh in
    NoDup (map Activity.id merged)
    /\ Forall (fun a => hasId a = true) merged
    /\ (forall a, In a merged ->
          match lastFresh (Activity.id a) fresh with
          | Some r => a = minimizeActivity r
          | None => In a cached
          end)
    /\ (forall k r, truthyZ k <> None -> lastFresh k fresh = Some r ->
          In (minimizeActivity r) merged)
    /\ ((forall a, In a merged -> startTime H a <> None) ->
        StronglySorted (startsNoEarlier H) merged).
Proof.
  intros cached fresh merged.
  split; [|split; [|split; [|split]]].
  - apply merge_NoDup.
  - apply merge_hasId.
  - apply merge_override.
  - apply merge_present.
  - intros Hvalid. apply sorted_valid_strongly; auto. apply merge_sorted.
Qed.

Lemma merge_again (cached : list Activity.t) (fresh : list Raw.t) :
  merge H (merge H cached fresh) fresh = merge H cached fresh.
Proof.
  set (M := merge H cached fresh).
  pose proof (merge_NoDup cached fresh) as Hnd.
  pose proof (merge_hasId cached fresh) as Hids.
  pose proof (merge_override cached fresh) as Hover.
  pose proof (merge_present cached fresh) as Hpres.
  fold M in Hnd, Hids, Hover, Hpres.
  unfold merge at 1. rewrite mergeMap_fold.
  rewrite (fold_ins_fresh_keys M []); auto. simpl.
  set (zipM := map (fun a => (Activity.id a, a)) M).
  assert (Hkeys : map fst zipM = map Activity.id M).
  { unfold zipM. rewrite map_map. reflexivity. }
  destruct (fold_ins_shape (map minimizeActivity fresh) zipM)
    as (extra & -> & Hex).
  { now rewrite Hkeys. }
  rewrite map_app, filter_app.
  assert (E1 : map snd
                 (map (fun kv : option Z * Activity.t =>
                         (fst kv,
                          match lastWithId (fst kv)
                                  (map minimizeActivity fresh) with
                          | Some a => a
                          | None => snd kv
                          end)) zipM) = M).
  { unfold zipM. rewrite !map_map. simpl.
    rewrite <- (map_id M) at 2. apply map_ext_in. intros a Ha.
    rewrite lastWithId_minimized. specialize (Hover a Ha).
    destruct (lastFresh (Activity.id a) fresh); simpl; auto. }
  rewrite E1, (filter_all _ M Hids), filter_none.
  - rewrite app_nil_r. apply arraySort_fixed. apply merge_sorted.
  - intros v Hv. apply in_map_iff in Hv. destruct Hv as (kv & <- & Hkv).
    destruct (Hex kv Hkv) as (Hnew & Hfrom & Hid).
    destruct (hasId (snd kv)) eqn:Ehas; auto.
    elim Hnew. rewrite Hkeys.
    rewrite map_map in Hfrom.
    change (map (fun x => Activity.id (minimizeActivity x)) fresh)
      with (map Raw.id fresh) in Hfrom.
    destruct (lastFresh_exists _ _ Hfrom) as (r & Hr).
    assert (Hin : In (minimizeActivity r) M).
    { apply (Hpres (fst kv) r); auto.
      unfold hasId in Ehas. rewrite Hid in Ehas.
      now destruct (truthyZ (fst kv)). }
    apply (in_map Activity.id) in Hin.
    unfold lastFresh in Hr. apply find_some in Hr. destruct Hr as [_ Hr].
    apply keyEqb_eq in Hr. rewrite Hr. exact Hin.
Qed.

Lemma merge_nothing (cache : list Activity.t) :
  NoDup (map Activity.id cache) ->
  Forall (fun a => hasId a = true) cache ->
  merge H cache [] = arraySort (byStartDesc H) cache.
Proof.
  intros Hnd Hids. unfold merge, mergeMap. simpl. fold ins.
  rewrite fold_ins_fresh_keys; auto. simpl.
  rewrite map_map. simpl. rewrite map_id. now rewrite filter_all.
Qed.

(** C5, amended: merging a fresh set into a cache and then merging the same
    fresh set into the result gives the same set again, for every cache and
    every fresh set; and merging an empty fresh set into a cache whose
    records carry non-empty, pairwise distinct identifiers gives that cache
    sorted, a permutation of it. *)
Theorem C5_merge_idempotent :
  forall (cached : list Activity.t) (fresh : list Raw.t),
    merge H (merge H cached fresh) fresh = merge H cached fresh
    /\ (NoDup (map Activity.id cached) ->
        Forall (fun a => hasId a = true) cached ->
        merge H cached [] = arraySort (byStartDesc H) cached
        /\ Permutation (merge H cached []) cached).
Proof.
  intros cached fresh. split; [apply merge_again|].
  intros Hnd Hids. rewrite merge_nothing; auto. split; auto.
  apply arraySort_perm.
Qed.

End MergeFacts.

Section MergeExamples.

Import Example Scenario.

(** C5, as stated, fails: merging an empty fresh set into a cache that
    holds a record without identifier drops that record, which is more than
    sorting. *)
Lemma C5_anonymous_record_counterexample :
  merge utcHost [anonymous] [] = []
  /\ ~ Permutation (merge utcHost [anonymous] []) [anonymous].
Proof.
  split; [reflexivity|]. intros Hp.
  apply Permutation_length in Hp. discriminate.
Qed.

(** A cache of two runs with identifiers 101 and 103, given oldest first,
    and nothing fresh: the merge is that cache sorted. *)
Lemma C5_witness :
  merge utcHost [minimizeActivity morningRun; minimizeActivity eveningRun] []
  = arraySort (byStartDesc utcHost)
      [minimizeActivity morningRun; minimizeActivity eveningRun].
Proof.
  refine (proj1 (proj2 (C5_merge_idempotent utcHost
            [minimizeActivity morningRun; minimizeActivity eveningRun] [])
            _ _)).
  - simpl. repeat constructor; simpl; intuition discriminate.
  - repeat constructor.
Defined.

(** C6, as stated, fails: with a start date that does not parse between
    them in the cache, a run of January stays before a run of December.
    Every comparison the sort makes involves the unreadable date and
    answers NaN, so nothing moves. *)
Lemma C6_unreadable_date_counterexample :
  let merged := merge utcHost [Dates.january; Dates.unreadable;
                               Dates.december] [] in
  merged = [Dates.january; Dates.unreadable; Dates.december]
  /\ startTime utcHost Dates.january = Some 1736496000000%Z
  /\ startTime utcHost Dates.unreadable = None
  /\ startTime utcHost Dates.december = Some 1765353600000%Z
  /\ ~ newestFirst utcHost merged
  /\ ~ StronglySorted (startsNoEarlier utcHost) merged.
Proof.
  cbv zeta.
  assert (Hm : merge utcHost [Dates.january; Dates.unreadable;
                              Dates.december] []
               = [Dates.january; Dates.unreadable; Dates.december])
    by (vm_compute; reflexivity).
  rewrite Hm.
  split; [reflexivity|]. split; [vm_compute; reflexivity|].
  split; [vm_compute; reflexivity|]. split; [vm_compute; reflexivity|].
  split.
  - intro Hn.
    assert (Hle : (1765353600000 <= 1736496000000)%Z).
    { apply (Hn [] Dates.january [Dates.unreadable] Dates.december []);
        [reflexivity|vm_compute; reflexivity|vm_compute; reflexivity]. }
    lia.
  - intro Hs. inversion Hs as [|? ? _ Hall]; subst.
    inversion Hall as [|? ? Hju _]; subst. vm_compute in Hju. exact Hju.
Qed.

(** The same cache with the noon run freshly fetched: the merged set is
    sorted newest first. *)
Lemma C6_witness :
  StronglySorted (startsNoEarlier utcHost)
    (merge utcHost [minimizeActivity morningRun; minimizeActivity eveningRun]
       [noonRun]).
Proof.
  refine (proj2 (proj2 (proj2 (proj2 (C6_merged_set_invariants utcHost
            [minimizeActivity morningRun; minimizeActivity eveningRun]
            [noonRun])))) _).
  intros a Ha. vm_compute in Ha.
  destruct Ha as [<-|[<-|[<-|[]]]]; vm_compute; discriminate.
Defined.

End MergeExamples.

(** * The run *)

Section RunFacts.

Local Open Scope Z_scope.

Variable H : Host.

Local Opaque per_page.

(** Each step emits its own kind of request and nothing else. *)
Lemma refresh_events (P : Event -> Prop) (w : World) :
  P TokenRequest -> Forall P (fst (stravaRefreshAccessToken w)).
Proof.
  intros HP.
  unfold stravaRefreshAccessToken, mustGetEnv, bind, emit, ret, throw.
  destruct (STRAVA_CLIENT_ID w) as [[|? ?]|]; simpl; auto.
  destruct (STRAVA_CLIENT_SECRET w) as [[|? ?]|]; simpl; auto.
  destruct (STRAVA_REFRESH_TOKEN w) as [[|? ?]|]; simpl; auto.
  destruct (tokenEndpoint w) as [json|? ?]; simpl; auto.
  destruct (access_token json) as [[|? ?]|]; simpl; auto.
Qed.

Lemma stats_events (P : Event -> Prop) (w : World) (athleteId : option Z) :
  (forall i, P (StatsRequest i)) ->
  Forall P (fst (fetchAthleteStats w athleteId)).
Proof.
  intros HP. unfold fetchAthleteStats, bind, emit, ret, throw.
  destruct (truthyZ athleteId) as [i|]; simpl; auto.
  destruct (statsEndpoint w i); simpl; auto.
Qed.

Lemma pages_events (P : Event -> Prop) (w : World) (after : option Z)
  (n : nat) :
  (forall page, P (ActivitiesRequest page after)) ->
  forall page out, Forall P (fst (fetchPages w after n page out)).
Proof.
  intros HP. induction n as [|n IH]; intros page out; simpl; auto.
  unfold bind, emit, throw, ret.
  destruct (activitiesEndpoint w page after) as [[arr|]|? ?]; simpl; auto.
  destruct (List.length arr <? per_page)%nat; simpl; auto.
  specialize (IH (page + 1) (out ++ arr)%list).
  destruct (fetchPages w after n (page + 1) (out ++ arr)) as [t r].
  simpl in *. auto.
Qed.

Lemma activities_events (P : Event -> Prop) (w : World) (afterEpoch : Z) :
  (forall page after, P (ActivitiesRequest page after)) ->
  Forall P (fst (fetchActivities w afterEpoch)).
Proof.
  intros HP. unfold fetchActivities. apply pages_events. auto.
Qed.

Lemma backfill_events (P : Event -> Prop) (w : World) (detailMax : Z)
  (freshIds : list Z) (l : list Activity.t) :
  (forall i, P (DetailRequest i)) ->
  forall n, Forall P (fst (backfill w detailMax freshIds n l)).
Proof.
  intros HP. induction l as [|a l IH]; intros n; simpl; auto.
  destruct (n >=? detailMax); simpl; auto.
  assert (Hsame : forall a',
    Forall P (fst (let '(t, (r', n')) := backfill w detailMax freshIds n l in
                   (t, (a' :: r', n'))))).
  { intros a'. specialize (IH n).
    now destruct (backfill w detailMax freshIds n l) as [t [r' n']]. }
  destruct (truthyZ (Activity.id a)) as [i|]; [|apply Hsame].
  destruct (negb (existsb (Z.eqb i) freshIds)); [apply Hsame|].
  destruct (Activity.detail_attempted a); [apply Hsame|].
  destruct (hasEnergy a); [apply Hsame|].
  destruct (detailEndpoint w i) as [d|].
  - specialize (IH (n + 1)).
    destruct (backfill w detailMax freshIds (n + 1) l) as [t [r' n']].
    simpl in *. auto.
  - specialize (IH n).
    destruct (backfill w detailMax freshIds n l) as [t [r' n']].
    simpl in *. auto.
Qed.

Lemma detailBackfill_events (P : Event -> Prop) (w : World)
  (freshIds : list Z) (merged : list Activity.t) :
  (forall i, P (DetailRequest i)) ->
  Forall P (fst (detailBackfill w freshIds merged)).
Proof.
  intros HP. unfold detailBackfill.
  destruct (detailMaxOf w) as [dm|]; simpl; auto.
  destruct (0 <? dm); simpl; auto. now apply backfill_events.
Qed.

(** The shape of a run: the events of the fetching steps, then either the
    error, or the look-ups of the back-fill followed by the three writes
    and the summary. *)
Lemma main_cases (w : World) :
  exists t,
    Forall (fun ev => isFetch ev = true) t
    /\ match fatalStep w with
       | Some e => main H w = ((t ++ [ConsoleError e])%list, 1)
       | None =>
           exists tok athleteStats fresh t1 t2 t3,
             stravaRefreshAccessToken w = (t1, inr tok)
             /\ fetchAthleteStats w (snd tok) = (t2, inr athleteStats)
             /\ fetchActivities w (afterEpochOf w) = (t3, inr fresh)
             /\ t = (t1 ++ t2 ++ t3)%list
             /\ let filled := detailBackfill w (freshIdsOf fresh)
                                (merge H (activitiesFile w) fresh) in
                let merged := fst (snd filled) in
                let next := nextAfterEpochOf H merged
                              (afterEpochFromStateOf w) in
                let stats := Stats.computeSportsStats H (baselineFile w)
                               merged athleteStats in
                exists summary,
                  s_detailFetched summary = snd (snd filled)
                  /\ main H w
                     = ((t ++ fst filled
                           ++ [WriteActivities merged; WriteState next;
                               WriteStats stats; ConsoleLog summary])%list,
                        0)
       end.
Proof.
  assert (T1 : Forall (fun ev => isFetch ev = true)
                 (fst (stravaRefreshAccessToken w)))
    by now apply refresh_events.
  unfold main, run, fatalStep.
  destruct (stravaRefreshAccessToken w) as [t1 [e|tok]] eqn:E1; simpl in *.
  { exists t1. auto. }
  assert (T2 : Forall (fun ev => isFetch ev = true)
                 (fst (fetchAthleteStats w (snd tok))))
    by now apply stats_events.
  destruct (fetchAthleteStats w (snd tok)) as [t2 [e|athleteStats]] eqn:E2;
    simpl in *.
  { exists (t1 ++ t2)%list. split; [now apply Forall_app|reflexivity]. }
  assert (T3 : Forall (fun ev => isFetch ev = true)
                 (fst (fetchActivities w (afterEpochOf w))))
    by now apply activities_events.
  destruct (fetchActivities w (afterEpochOf w)) as [t3 [e|fresh]] eqn:E3;
    simpl in *.
  { exists (t1 ++ t2 ++ t3)%list. split.
    - apply Forall_app; split; auto. now apply Forall_app.
    - now rewrite <- !app_assoc. }
  exists (t1 ++ t2 ++ t3)%list. split.
  { apply Forall_app; split; auto. now apply Forall_app. }
  exists tok, athleteStats, fresh, t1, t2, t3.
  repeat (split; [assumption || reflexivity|]).
  destruct (detailBackfill w (freshIdsOf fresh)
              (merge H (activitiesFile w) fresh)) as [t4 [merged n]].
  simpl. eexists. split; [|rewrite <- !app_assoc; reflexivity].
  reflexivity.
Qed.

Lemma answered_app (w : World) (t t' : list Event) :
  answeredDetails w (t ++ t')
  = (answeredDetails w t + answeredDetails w t')%nat.
Proof.
  unfold answeredDetails. now rewrite filter_app, length_app.
Qed.

Lemma requests_app (t t' : list Event) :
  detailRequests (t ++ t') = (detailRequests t + detailRequests t')%nat.
Proof.
  unfold detailRequests. now rewrite filter_app, length_app.
Qed.

Lemma fetch_no_detail (w : World) (t : list Event) :
  Forall (fun ev => isFetch ev = true) t ->
  answeredDetails w t = 0%nat /\ detailRequests t = 0%nat
  /\ filter isWrite t = [].
Proof.
  unfold answeredDetails, detailRequests.
  induction 1 as [|ev t Hev _ IH]; simpl; auto.
  destruct IH as (IH1 & IH2 & IH3).
  destruct ev; try discriminate; simpl; auto.
Qed.

(** The counter grows by the answered look-ups, and those never take it
    past the maximum. *)
Lemma backfill_budget (w : World) (detailMax : Z) (freshIds : list Z)
  (l : list Activity.t) :
  forall n,
    let r := backfill w detailMax freshIds n l in
    snd (snd r) = n + Z.of_nat (answeredDetails w (fst r))
    /\ snd (snd r) <= Z.max n detailMax
    /\ filter isWrite (fst r) = [].
Proof.
  induction l as [|a l IH]; intros n; cbv zeta; simpl.
  - unfold answeredDetails. simpl. repeat split; lia.
  - destruct (Z.geb_spec n detailMax) as [Hge|Hlt].
    { unfold answeredDetails. simpl. repeat split; lia. }
    assert (Hsame : forall a',
      let r := let '(t, (r', n')) := backfill w detailMax freshIds n l in
               (t, (a' :: r', n')) in
      snd (snd r) = n + Z.of_nat (answeredDetails w (fst r))
      /\ snd (snd r) <= Z.max n detailMax
      /\ filter isWrite (fst r) = []).
    { intros a'. specialize (IH n).
      destruct (backfill w detailMax freshIds n l) as [t [r' n']].
      exact IH. }
    destruct (truthyZ (Activity.id a)) as [i|]; [|apply Hsame].
    destruct (negb (existsb (Z.eqb i) freshIds)); [apply Hsame|].
    destruct (Activity.detail_attempted a); [apply Hsame|].
    destruct (hasEnergy a); [apply Hsame|].
    destruct (detailEndpoint w i) as [d|] eqn:Ed.
    + specialize (IH (n + 1)).
      destruct (backfill w detailMax freshIds (n + 1) l) as [t [r' n']].
      simpl in *. unfold answeredDetails in *. simpl. rewrite Ed. simpl.
      repeat split; try tauto; lia.
    + specialize (IH n).
      destruct (backfill w detailMax freshIds n l) as [t [r' n']].
      simpl in *. unfold answeredDetails in *. simpl. rewrite Ed. simpl.
      repeat split; try tauto; lia.
Qed.

Lemma detailBackfill_budget (w : World) (freshIds : list Z)
  (merged : list Activity.t) :
  let r := detailBackfill w freshIds merged in
  snd (snd r) = Z.of_nat (answeredDetails w (fst r))
  /\ Z.of_nat (answeredDetails w (fst r)) <= Z.max 0 (detailMaxOr0 w)
  /\ filter isWrite (fst r) = []
  /\ (detailMaxOr0 w <= 0 -> fst r = []).
Proof.
  unfold detailBackfill, detailMaxOr0.
  destruct (detailMaxOf w) as [dm|];
    [|simpl; unfold answeredDetails; simpl; repeat split; lia].
  destruct (Z.ltb_spec 0 dm) as [Hpos|Hnon].
  - destruct (backfill_budget w dm freshIds merged 0) as (E & Hle & Hw).
    cbv zeta in *. rewrite E in *. simpl in *.
    repeat split; auto; lia.
  - simpl. unfold answeredDetails. simpl. repeat split; auto; lia.
Qed.

(** What the maximum does bound in every run: the look-ups that are
    answered.  With the setting at 0 or below, or not a number, no look-up
    is issued at all. *)
Lemma detail_budget_counts_answers (w : World) :
  let t := fst (main H w) in
  Z.of_nat (answeredDetails w t) <= Z.max 0 (detailMaxOr0 w)
  /\ (STRAVA_DETAIL_MAX w = EnvUnset -> (answeredDetails w t <= 30)%nat)
  /\ (forall z, STRAVA_DETAIL_MAX w = EnvInt z -> z <= 0 ->
        detailRequests t = 0%nat)
  /\ (STRAVA_DETAIL_MAX w = EnvNaN -> detailRequests t = 0%nat).
Proof.
  intros t.
  assert (Hmain : Z.of_nat (answeredDetails w t) <= Z.max 0 (detailMaxOr0 w)
                  /\ (detailMaxOr0 w <= 0 -> detailRequests t = 0%nat)).
  { unfold t. destruct (main_cases w) as (t0 & Hfetch & Hm).
    destruct (fetch_no_detail w t0 Hfetch) as (Ha & Hr & _).
    destruct (fatalStep w) as [e|].
    - rewrite Hm. simpl. rewrite answered_app, requests_app, Ha, Hr.
      unfold answeredDetails, detailRequests. simpl. lia.
    - destruct Hm as (tok & st & fresh & t1 & t2 & t3 & _ & _ & _ & _ & Hm).
      cbv zeta in Hm. destruct Hm as (summary & _ & ->). simpl.
      destruct (detailBackfill_budget w (freshIdsOf fresh)
                  (merge H (activitiesFile w) fresh)) as (_ & Hle & _ & Hz).
      cbv zeta in *.
      rewrite !answered_app, !requests_app, Ha, Hr.
      split.
      + unfold answeredDetails at 2. simpl. lia.
      + intros Hnon. rewrite (Hz Hnon).
        unfold detailRequests. reflexivity. }
  destruct Hmain as [Hle Hzero].
  unfold detailMaxOr0, detailMaxOf in *.
  split; [exact Hle|]. split; [|split].
  - intros E. rewrite E in Hle. lia.
  - intros z E Hz. apply Hzero. now rewrite E.
  - intros E. apply Hzero. rewrite E. lia.
Qed.

Lemma fatal_aborts (w : World) (e : Error) :
  fatalStep w = Some e -> aborted H w e.
Proof.
  intros Hf. destruct (main_cases w) as (t & Hfetch & Hm).
  rewrite Hf in Hm. unfold aborted. rewrite Hm. simpl.
  destruct (fetch_no_detail w t Hfetch) as (_ & _ & Hw).
  rewrite filter_app, Hw, last_last. auto.
Qed.

Lemma fetchPages_fails (w : World) (after : option Z) (e : Error) :
  forall (n k : nat) (page : Z) (out : list Raw.t),
    (k < n)%nat ->
    (forall j, (j < k)%nat ->
       fullPage (activitiesEndpoint w (page + Z.of_nat j) after) = true) ->
    pageError (activitiesEndpoint w (page + Z.of_nat k) after) = Some e ->
    snd (fetchPages w after n page out) = inl e.
Proof.
  induction n as [|n IH]; intros k page out Hk Hfull Herr; [lia|].
  simpl. unfold bind, emit, throw, ret.
  destruct k as [|k].
  - rewrite Z.add_0_r in Herr.
    destruct (activitiesEndpoint w page after) as [[arr|]|? ?];
      simpl in *; congruence.
  - pose proof (Hfull 0%nat ltac:(lia)) as H0. rewrite Z.add_0_r in H0.
    destruct (activitiesEndpoint w page after) as [[arr|]|? ?];
      simpl in *; try discriminate.
    apply Nat.leb_le in H0.
    destruct (Nat.ltb_spec (List.length arr) per_page) as [|_]; [lia|].
    specialize (IH k (page + 1) (out ++ arr)%list).
    destruct (fetchPages w after n (page + 1) (out ++ arr)) as [t r].
    simpl in *. apply IH; try lia.
    + intros j Hj. specialize (Hfull (S j) ltac:(lia)).
      now replace (page + 1 + Z.of_nat j) with (page + Z.of_nat (S j)) by lia.
    + now replace (page + 1 + Z.of_nat k) with (page + Z.of_nat (S k)) by lia.
Qed.

(** C9: when the credential exchange throws, or the lifetime-totals fetch
    throws, or the activity-list fetch throws, the run writes none of its
    three outputs, prints the error as its last event and exits with status
    1.  The steps throw in the cases the claim names: an error answer of
    the token endpoint, an error answer of the totals endpoint, and an
    error answer or a body that is not an array on any page the loop
    reaches.  A run in which no step throws exits with status 0 and makes
    exactly the three writes. *)
Theorem C9_fatal_errors_write_nothing :
  forall (w : World),
    (forall e, snd (stravaRefreshAccessToken w) = inl e -> aborted H w e)
    /\ (forall tok e,
          snd (stravaRefreshAccessToken w) = inr tok ->
          snd (fetchAthleteStats w (snd tok)) = inl e -> aborted H w e)
    /\ (forall tok athleteStats e,
          snd (stravaRefreshAccessToken w) = inr tok ->
          snd (fetchAthleteStats w (snd tok)) = inr athleteStats ->
          snd (fetchActivities w (afterEpochOf w)) = inl e -> aborted H w e)
    /\ (forall status text,
          STRAVA_CLIENT_ID w <> None -> STRAVA_CLIENT_ID w <> Some ""%string ->
          STRAVA_CLIENT_SECRET w <> None ->
          STRAVA_CLIENT_SECRET w <> Some ""%string ->
          STRAVA_REFRESH_TOKEN w <> None ->
          STRAVA_REFRESH_TOKEN w <> Some ""%string ->
          tokenEndpoint w = HttpError status text ->
          snd (stravaRefreshAccessToken w)
          = inl (TokenRefreshFailed status text))
    /\ (forall i athleteId status text,
          truthyZ athleteId = Some i ->
          statsEndpoint w i = HttpError status text ->
          snd (fetchAthleteStats w athleteId)
          = inl (AthleteStatsFailed status text))
    /\ (forall afterEpoch k e,
          (k < maxPages)%nat ->
          let after := if 0 <? afterEpoch then Some afterEpoch else None in
          (forall j, (j < k)%nat ->
             fullPage (activitiesEndpoint w (1 + Z.of_nat j) after) = true) ->
          pageError (activitiesEndpoint w (1 + Z.of_nat k) after) = Some e ->
          snd (fetchActivities w afterEpoch) = inl e)
    /\ (fatalStep w = None ->
        snd (main H w) = 0
        /\ exists merged next stats,
             filter isWrite (fst (main H w))
             = [WriteActivities merged; WriteState next; WriteStats stats]).
Proof.
  intros w.
  split; [|split; [|split; [|split; [|split; [|split]]]]].
  - intros e He. apply fatal_aborts. unfold fatalStep.
    destruct (stravaRefreshAccessToken w) as [t [e'|tok]]; simpl in *;
      congruence.
  - intros tok e Ht He. apply fatal_aborts. unfold fatalStep.
    destruct (stravaRefreshAccessToken w) as [t [e'|tok']]; simpl in *;
      [discriminate|]. injection Ht as ->.
    destruct (fetchAthleteStats w (snd tok)) as [t' [e'|st]]; simpl in *;
      congruence.
  - intros tok st e Ht Hs He. apply fatal_aborts. unfold fatalStep.
    destruct (stravaRefreshAccessToken w) as [t [e'|tok']]; simpl in *;
      [discriminate|]. injection Ht as ->.
    destruct (fetchAthleteStats w (snd tok)) as [t' [e'|st']]; simpl in *;
      [discriminate|].
    destruct (fetchActivities w (afterEpochOf w)) as [t'' [e'|fr]];
      simpl in *; congruence.
  - intros status text Hi Hi' Hs Hs' Hr Hr' Hend.
    unfold stravaRefreshAccessToken, mustGetEnv, bind, emit, throw, ret.
    destruct (STRAVA_CLIENT_ID w) as [[|? ?]|]; try congruence.
    destruct (STRAVA_CLIENT_SECRET w) as [[|? ?]|]; try congruence.
    destruct (STRAVA_REFRESH_TOKEN w) as [[|? ?]|]; try congruence.
    simpl. now rewrite Hend.
  - intros i athleteId status text Hi Hend.
    unfold fetchAthleteStats, bind, emit, throw, ret.
    rewrite Hi. simpl. now rewrite Hend.
  - intros afterEpoch k e Hk after Hfull Herr.
    unfold fetchActivities. fold after.
    now apply (fetchPages_fails w after e maxPages k 1 []).
  - intros Hnone. destruct (main_cases w) as (t & Hfetch & Hm).
    rewrite Hnone in Hm.
    destruct Hm as (tok & st & fresh & t1 & t2 & t3 & _ & _ & _ & _ & Hm).
    cbv zeta in Hm. destruct Hm as (summary & _ & ->). simpl.
    split; [reflexivity|]. do 3 eexists.
    destruct (fetch_no_detail w t Hfetch) as (_ & _ & Hw).
    destruct (detailBackfill_budget w (freshIdsOf fresh)
                (merge H (activitiesFile w) fresh)) as (_ & _ & Hw' & _).
    cbv zeta in Hw'. rewrite !filter_app, Hw, Hw'. simpl. reflexivity.
Qed.

(** C4, amended: with an empty merged set the next watermark is the one
    read from the state.  With a merged set whose first record has a start
    date that is a valid date, of epoch seconds E = floor(ms / 1000): when E
    is positive the next watermark is max(0, E - 60), which is at most E and
    equals E - 60 from E = 60 on; when E is zero or negative it is the one
    read from the state.  It is the one read from the state as well when
    the first record has no start date, or one that is not a valid date. *)
Theorem C4_next_watermark :
  forall (merged : list Activity.t) (afterEpochFromState : Z),
    let next := nextAfterEpochOf H merged afterEpochFromState in
    (merged = [] -> next = afterEpochFromState)
    /\ (forall newest rest c s ms,
          merged = newest :: rest ->
          Activity.start_date newest = Some (String c s) ->
          dateMs H (String c s) = Some ms ->
          let newestEpoch := ms / 1000 in
          (0 < newestEpoch ->
           next = Z.max 0 (newestEpoch - 60) /\ next <= newestEpoch
           /\ (60 <= newestEpoch -> next = newestEpoch - 60))
          /\ (newestEpoch <= 0 -> next = afterEpochFromState))
    /\ (forall newest rest,
          merged = newest :: rest ->
          (Activity.start_date newest = None
           \/ Activity.start_date newest = Some ""%string
           \/ exists s, Activity.start_date newest = Some s
                        /\ dateMs H s = None) ->
          next = afterEpochFromState).
Proof.
  intros merged afterEpochFromState next. subst next.
  unfold nextAfterEpochOf. split; [|split].
  - intros ->. reflexivity.
  - intros newest rest c s ms -> Hs Hms. simpl.
    rewrite Hs, Hms. set (newestEpoch := ms / 1000). split.
    + intros Hpos. destruct (Z.ltb_spec 0 newestEpoch); [|lia].
      repeat split; lia.
    + intros Hneg. destruct (Z.ltb_spec 0 newestEpoch); [lia|reflexivity].
  - intros newest rest -> [E|[E|(s & E & Hd)]]; simpl; rewrite E; auto.
    destruct s; auto. now rewrite Hd.
Qed.

(** C10: a token answer without athlete identifier makes
    [fetchAthleteStats] return the absent value with no request and no
    error; if the activity list is fetched without error, the run then
    exits with status 0, asks for no lifetime totals, and writes the
    statistics computed without them; and without lifetime totals the
    running cards show the baseline plus the sums over the local running
    records, the cycling cards the sums and the number of the local cycling
    records. *)
Theorem C10_no_athlete_id_uses_local_totals :
  forall (w : World) (json : TokenJson) (baseline : Baseline.t)
         (activities : list Activity.t),
    truthyZ (athlete_id json) = None ->
    fetchAthleteStats w (athlete_id json) = ([], inr None)
    /\ (forall t tok,
          tokenEndpoint w = HttpOk json ->
          stravaRefreshAccessToken w = (t, inr tok) ->
          (forall e, snd (fetchActivities w (afterEpochOf w)) <> inl e) ->
          snd (main H w) = 0
          /\ (forall i, ~ In (StatsRequest i) (fst (main H w)))
          /\ exists merged,
               In (WriteStats (Stats.computeSportsStats H (baselineFile w)
                                 merged None)) (fst (main H w)))
    /\ (let s := Stats.computeSportsStats H baseline activities None in
        let runs := Stats.runs activities in
        let rides := Stats.rides activities in
        Card.value (r_totalDistance (running s))
        = toFixedTrim H
            (Stats.baselineTotalDistanceKm baseline
             + Stats.sum runs Activity.distance_m / 1000)%float 2
        /\ Card.value (r_totalTime (running s))
           = toFixedTrim H
               (Stats.baselineTimeH baseline
                + Stats.sum runs Activity.moving_time_s / 3600)%float 1
        /\ Card.value (c_totalDistance (cycling s))
           = toFixedTrim H (Stats.sum rides Activity.distance_m / 1000)%float 2
        /\ Card.value (c_totalTime (cycling s))
           = toFixedTrim H
               (Stats.sum rides Activity.moving_time_s / 3600)%float 2
        /\ Card.value (totalCount (cycling s))
           = Stats.truncText H (Js.ofZ (Z.of_nat (List.length rides)))).
Proof.
  intros w json baseline activities Hid.
  assert (Hstats : fetchAthleteStats w (athlete_id json) = ([], inr None)).
  { unfold fetchAthleteStats. now rewrite Hid. }
  split; [exact Hstats|]. split; [|repeat split].
  intros t tok Hend Htok Hact.
  assert (Hsnd : snd tok = athlete_id json).
  { unfold stravaRefreshAccessToken, mustGetEnv, bind, emit, throw, ret
      in Htok.
    destruct (STRAVA_CLIENT_ID w) as [[|? ?]|]; try discriminate.
    destruct (STRAVA_CLIENT_SECRET w) as [[|? ?]|]; try discriminate.
    destruct (STRAVA_REFRESH_TOKEN w) as [[|? ?]|]; try discriminate.
    simpl in Htok. rewrite Hend in Htok.
    destruct (access_token json) as [[|? ?]|]; try discriminate.
    simpl in Htok. now injection Htok as _ <-. }
  destruct (main_cases w) as (t0 & Hfetch & Hm).
  assert (Hnone : fatalStep w = None).
  { unfold fatalStep. rewrite Htok, Hsnd, Hstats.
    destruct (fetchActivities w (afterEpochOf w)) as [t' [e|fr]]; auto.
    now elim (Hact e). }
  rewrite Hnone in Hm.
  destruct Hm as (tok' & st & fresh & t1 & t2 & t3 & E1 & E2 & E3 & -> & Hm).
  rewrite Htok in E1. injection E1 as <- <-.
  rewrite Hsnd, Hstats in E2. injection E2 as <- <-.
  cbv zeta in Hm. destruct Hm as (summary & _ & ->). simpl.
  split; [reflexivity|]. split.
  - intros i Hin.
    set (P := fun ev => ev <> StatsRequest i).
    assert (HP : Forall P
              ((t ++ [] ++ t3)
               ++ fst (detailBackfill w (freshIdsOf fresh)
                         (merge H (activitiesFile w) fresh))
               ++ [WriteActivities
                     (fst (snd (detailBackfill w (freshIdsOf fresh)
                                  (merge H (activitiesFile w) fresh))));
                   WriteState
                     (nextAfterEpochOf H
                        (fst (snd (detailBackfill w (freshIdsOf fresh)
                                     (merge H (activitiesFile w) fresh))))
                        (afterEpochFromStateOf w));
                   WriteStats
                     (Stats.computeSportsStats H (baselineFile w)
                        (fst (snd (detailBackfill w (freshIdsOf fresh)
                                     (merge H (activitiesFile w) fresh))))
                        None);
                   ConsoleLog summary])%list).
    { rewrite !Forall_app. repeat split.
      - replace t with (fst (stravaRefreshAccessToken w))
          by now rewrite Htok.
        apply refresh_events. discriminate.
      - constructor.
      - replace t3 with (fst (fetchActivities w (afterEpochOf w)))
          by now rewrite E3.
        apply activities_events. discriminate.
      - apply detailBackfill_events. discriminate.
      - repeat constructor; discriminate. }
    rewrite Forall_forall in HP. now apply (HP _ Hin).
  - eexists. rewrite !in_app_iff. right. right. simpl. eauto.
Qed.

End RunFacts.

(** * Runs on concrete worlds *)

Section RunExamples.

Import Example Scenario.
Local Open Scope Z_scope.

(** C2, on the code: the first run looks the morning run up (the look-up
    fails) and writes it to the cache with [detail_attempted] set, together
    with a watermark 60 s before its start.  The next run fetches the same
    activity again, because it starts after that watermark; the merge puts
    the freshly minimized record, whose flag is false, in the place of the
    cached one; and the back-fill looks the record up a second time. *)
Theorem C2_refetched_record_is_looked_up_again :
  detailRequests firstTrace = 1%nat
  /\ In (DetailRequest 101) firstTrace
  /\ map Activity.id (activitiesFile secondWorld) = [Some 101]
  /\ map Activity.detail_attempted (activitiesFile secondWorld) = [true]
  /\ stateFile secondWorld = Some (startEpoch morningRun - 60)
  /\ fetchActivities secondWorld (afterEpochOf secondWorld)
     = ([ActivitiesRequest 1 (Some (startEpoch morningRun - 60))],
        inr [morningRun])
  /\ map Activity.detail_attempted
       (merge utcHost (activitiesFile secondWorld) [morningRun]) = [false]
  /\ In (DetailRequest 101) secondTrace
  /\ detailRequests (firstTrace ++ secondTrace) = 2%nat.
Proof.
  vm_compute. repeat split; auto.
Qed.

(** C3, on the code: with the maximum set to 1 and three new activities
    without energy data whose look-ups all fail, the run issues three
    detail requests; none is answered and the counter stays at 0. *)
Theorem C3_failed_lookups_escape_the_maximum :
  detailMaxOf budgetWorld = Some 1
  /\ filter isDetailRequest (fst (main utcHost budgetWorld))
     = [DetailRequest 103; DetailRequest 102; DetailRequest 101]
  /\ detailRequests (fst (main utcHost budgetWorld)) = 3%nat
  /\ answeredDetails budgetWorld (fst (main utcHost budgetWorld)) = 0%nat
  /\ ~ (Z.of_nat (detailRequests (fst (main utcHost budgetWorld))) <= 1).
Proof.
  vm_compute. repeat split; auto.
Qed.

(** C4, as stated, fails: the merged set holds one record, which starts at
    the epoch (floor of its epoch seconds is 0), and the state's watermark
    is 1700000000; the next watermark is 1700000000, neither 0 - 60 nor at
    most 0. *)
Lemma C4_epoch_zero_counterexample :
  newestEpochOf utcHost [unsetClock] = Some 0
  /\ nextAfterEpochOf utcHost [unsetClock] 1700000000 = 1700000000
  /\ nextAfterEpochOf utcHost [unsetClock] 1700000000 <> 0 - 60
  /\ ~ (nextAfterEpochOf utcHost [unsetClock] 1700000000 <= 0).
Proof.
  vm_compute. repeat split; try discriminate; auto.
Qed.

(** A merged set whose newest record starts on 2025-07-03 at 18:00:00 UTC:
    the next watermark is 60 s before. *)
Lemma C4_witness :
  nextAfterEpochOf utcHost
    [minimizeActivity eveningRun; minimizeActivity morningRun] 0
  = 1751565600 - 60.
Proof.
  refine (proj2 (proj2 (proj1 (proj1 (proj2
            (C4_next_watermark utcHost
               [minimizeActivity eveningRun; minimizeActivity morningRun] 0))
            _ _ _ _ 1751565600000 eq_refl eq_refl eq_refl) _)) _).
  - reflexivity.
  - vm_compute. discriminate.
Defined.

(** The token endpoint answers 401: nothing is written, the error is
    printed, the status is 1. *)
Lemma C9_witness :
  aborted utcHost lockedOut (TokenRefreshFailed 401 "Unauthorized").
Proof.
  exact (proj1 (C9_fatal_errors_write_nothing utcHost lockedOut)
           (TokenRefreshFailed 401 "Unauthorized") eq_refl).
Defined.

(** The first world answers the token request without athlete identifier:
    no totals request, no error, the absent value. *)
Lemma C10_witness :
  fetchAthleteStats firstWorld None = ([], inr None).
Proof.
  exact (proj1 (C10_no_athlete_id_uses_local_totals utcHost firstWorld
                  {| access_token := Some "access"%string;
                     athlete_id := None |}
                  (baselineFile firstWorld) [] eq_refl)).
Defined.

End RunExamples.

(** * More order facts on doubles, and [clamp] *)

Section FloatOrderMore.

Local Open Scope float_scope.

Lemma SFcompare_antisym (a b : spec_float) :
  SFcompare b a = option_map CompOpp (SFcompare a b).
Proof.
  destruct a as [sa|sa| |sa ma ea], b as [sb|sb| |sb mb eb]; simpl;
    try reflexivity;
    try (destruct sa; reflexivity); try (destruct sb; reflexivity);
    try (destruct sa, sb; reflexivity).
  change (Pos.compare_cont Eq) with Pos.compare.
  rewrite (Z.compare_antisym ea eb), (Pos.compare_antisym ma mb).
  destruct sa, sb; try reflexivity;
    destruct (ea ?= eb)%Z; simpl; try reflexivity;
    destruct (ma ?= mb)%positive; reflexivity.
Qed.

Lemma SFcompare_refl (a : spec_float) :
  a <> S754_nan -> SFcompare a a = Some Eq.
Proof.
  destruct a as [s|s| |s m e]; simpl; try congruence.
  - destruct s; reflexivity.
  - intros _. change (Pos.compare_cont Eq) with Pos.compare.
    destruct s; rewrite Z.compare_refl, Pos.compare_refl; reflexivity.
Qed.

Lemma SFcompare_some (a b : spec_float) (c : comparison) :
  SFcompare a b = Some c -> a <> S754_nan /\ b <> S754_nan.
Proof.
  destruct a, b; simpl; try discriminate; split; discriminate.
Qed.

Lemma SFcompare_total (a b : spec_float) :
  a <> S754_nan -> b <> S754_nan -> exists c, SFcompare a b = Some c.
Proof.
  destruct a, b; simpl; try congruence; eauto.
Qed.

Lemma is_nan_false (a : float) :
  is_nan a = false <-> Prim2SF a <> S754_nan.
Proof.
  unfold is_nan. rewrite negb_false_iff, eqb_spec. unfold SFeqb. split.
  - destruct (SFcompare (Prim2SF a) (Prim2SF a)) as [c|] eqn:E;
      [|discriminate].
    intros _. exact (proj1 (SFcompare_some _ _ _ E)).
  - intro Hn. rewrite (SFcompare_refl _ Hn). reflexivity.
Qed.

Lemma ltb_not_nan (a b : float) :
  (a <? b) = true -> is_nan a = false /\ is_nan b = false.
Proof.
  rewrite ltb_spec, !is_nan_false. unfold SFltb.
  destruct (SFcompare (Prim2SF a) (Prim2SF b)) as [c|] eqn:E; [|discriminate].
  intros _. exact (SFcompare_some _ _ _ E).
Qed.

Lemma ltb_asym (a b : float) : (a <? b) = true -> (b <? a) = false.
Proof.
  intro Hab. destruct (b <? a) eqn:Hba; [|reflexivity].
  rewrite <- (ltb_irrefl a). symmetry. exact (ltb_trans _ _ _ Hab Hba).
Qed.

Lemma ltb_leb (a b : float) : (a <? b) = true -> (a <=? b) = true.
Proof.
  rewrite ltb_spec, leb_spec. unfold SFltb, SFleb.
  destruct (SFcompare (Prim2SF a) (Prim2SF b)) as [[]|]; auto.
Qed.

(** Between two numbers, the one that is not below the other is above or
    equal to it. *)
Lemma not_ltb_leb (a b : float) :
  is_nan a = false -> is_nan b = false -> (b <? a) = false ->
  (a <=? b) = true.
Proof.
  rewrite !is_nan_false, ltb_spec, leb_spec. unfold SFltb, SFleb.
  intros Ha Hb. rewrite (SFcompare_antisym (Prim2SF a) (Prim2SF b)).
  destruct (SFcompare_total _ _ Ha Hb) as [c ->].
  destruct c; simpl; congruence.
Qed.

Lemma mathMin_cases (a b : float) :
  is_nan a = false -> is_nan b = false ->
  (Js.mathMin a b = a \/ Js.mathMin a b = b)
  /\ (a <? Js.mathMin a b) = false /\ (b <? Js.mathMin a b) = false.
Proof.
  intros Ha Hb. unfold Js.mathMin. rewrite Ha, Hb. cbn [orb].
  destruct (a <? b) eqn:Hab.
  - repeat split; auto using ltb_irrefl, ltb_asym.
  - destruct (b <? a) eqn:Hba.
    + repeat split; auto using ltb_irrefl.
    + destruct (get_sign a); repeat split; auto using ltb_irrefl.
Qed.

Lemma mathMax_cases (a b : float) :
  is_nan a = false -> is_nan b = false ->
  (Js.mathMax a b = a \/ Js.mathMax a b = b)
  /\ (Js.mathMax a b <? a) = false /\ (Js.mathMax a b <? b) = false.
Proof.
  intros Ha Hb. unfold Js.mathMax. rewrite Ha, Hb. cbn [orb].
  destruct (a <? b) eqn:Hab.
  - repeat split; auto using ltb_irrefl, ltb_asym.
  - destruct (b <? a) eqn:Hba.
    + repeat split; auto using ltb_irrefl.
    + destruct (get_sign a); repeat split; auto using ltb_irrefl.
Qed.

End FloatOrderMore.

Section ClampTheorems.

Local Open Scope float_scope.

(** X19 ([clamp]).  With a lower bound below the upper bound, [clamp]
    sends every number into the closed interval between them and leaves a
    number strictly inside the interval as it is; NaN is sent to NaN. *)
Theorem X19_clamp_stays_within_its_bounds :
  forall n lo hi : float,
    (lo <? hi) = true ->
    let r := clamp n lo hi in
    (is_nan n = true -> is_nan r = true)
    /\ (is_nan n = false -> (lo <=? r) = true /\ (r <=? hi) = true)
    /\ ((lo <? n) = true -> (n <? hi) = true -> r = n).
Proof.
  intros n lo hi Hlh r. subst r. unfold clamp.
  destruct (ltb_not_nan lo hi Hlh) as [Hlo Hhi].
  split; [|split].
  - intro Hn. unfold Js.mathMin. rewrite Hn, orb_true_r.
    unfold Js.mathMax. replace (is_nan nan) with true by reflexivity.
    rewrite orb_true_r. reflexivity.
  - intro Hn.
    destruct (mathMin_cases hi n Hhi Hn) as (Hm & Hm1 & Hm2).
    set (m := Js.mathMin hi n) in *.
    assert (Hmn : is_nan m = false) by (destruct Hm as [->| ->]; assumption).
    destruct (mathMax_cases lo m Hlo Hmn) as (Hr & Hr1 & Hr2).
    set (r := Js.mathMax lo m) in *.
    assert (Hrn : is_nan r = false) by (destruct Hr as [->| ->]; assumption).
    split; [apply not_ltb_leb; assumption|].
    apply not_ltb_leb; try assumption.
    destruct Hr as [->| ->]; [apply ltb_asym; exact Hlh|exact Hm1].
  - intros Hln Hnh. destruct (ltb_not_nan lo n Hln) as [_ Hn].
    unfold Js.mathMin. rewrite Hhi, Hn. cbn [orb].
    rewrite (ltb_asym n hi Hnh), Hnh.
    unfold Js.mathMax. rewrite Hlo, Hn. cbn [orb]. rewrite Hln. reflexivity.
Qed.

Lemma X19_witness :
  clamp 0 0.001 1e9 = 0.001 /\ clamp 12.5 0.001 1e9 = 12.5
  /\ (clamp 2e9 0.001 1e9 <=? 1e9) = true.
Proof.
  destruct (X19_clamp_stays_within_its_bounds 2e9 0.001 1e9 eq_refl)
    as (_ & Hin & _).
  split; [reflexivity|]. split; [reflexivity|].
  exact (proj2 (Hin eq_refl)).
Defined.

End ClampTheorems.

(** * Number texts *)

Section NumberTexts.

Import Js.
Local Open Scope Z_scope.

Lemma digitsValue_acc (d : Decimal.uint) :
  forall acc : positive,
    digitsValue (Z.pos acc) (NilEmpty.string_of_uint d)
    = Z.pos (Pos.of_uint_acc d acc).
Proof.
  induction d; intro acc;
    cbn [NilEmpty.string_of_uint Pos.of_uint_acc digitsValue];
    [reflexivity
    |rewrite <- IHd; f_equal;
     match goal with
     | |- context [Z.of_nat (nat_of_ascii ?c)] =>
         let v := eval vm_compute in (Z.of_nat (nat_of_ascii c)) in
         change (Z.of_nat (nat_of_ascii c)) with v
     end; lia ..].
Qed.

Lemma digitsValue_uint (d : Decimal.uint) :
  digitsValue 0 (NilEmpty.string_of_uint d) = Z.of_N (Pos.of_uint d).
Proof.
  induction d; cbn [NilEmpty.string_of_uint Pos.of_uint digitsValue Z.of_N];
    [reflexivity|exact IHd|rewrite <- digitsValue_acc; f_equal ..].
Qed.

Lemma digits_uint (d : Decimal.uint) :
  allChars isDigit (NilEmpty.string_of_uint d) = true.
Proof. induction d; simpl; auto. Qed.

Lemma decimal_pos (p : positive) :
  decimal (Z.pos p) = NilEmpty.string_of_uint (Pos.to_uint p).
Proof.
  unfold decimal. simpl. unfold NilZero.string_of_uint.
  pose proof (Unsigned.to_uint_nonnil p).
  destruct (Pos.to_uint p); congruence.
Qed.

Lemma decimal_value (z : Z) : 0 <= z -> digitsValue 0 (decimal z) = z.
Proof.
  destruct z as [|p|p]; intro Hz; [reflexivity| |lia].
  rewrite decimal_pos, digitsValue_uint, Unsigned.of_to. reflexivity.
Qed.

Lemma decimal_digits (z : Z) : 0 <= z -> allChars isDigit (decimal z) = true.
Proof.
  destruct z as [|p|p]; intro Hz; [reflexivity| |lia].
  rewrite decimal_pos. apply digits_uint.
Qed.

Lemma decimal_nonempty (z : Z) : isEmpty (decimal z) = false.
Proof.
  destruct z as [|p|p]; try reflexivity.
  rewrite decimal_pos. pose proof (Unsigned.to_uint_nonnil p).
  destruct (Pos.to_uint p); try reflexivity; congruence.
Qed.

End NumberTexts.

(** * Texts of paces and times *)

Section PaceAndTimeTexts.

Import Js.
Local Open Scope string_scope.

Lemma digit_is_plain (c : ascii) :
  isDigit c = true ->
  isSpace c = false /\ c <> "-"%char /\ c <> "+"%char /\ c <> "'"%char
  /\ c <> ":"%char /\ c <> "."%char.
Proof.
  destruct c as [[] [] [] [] [] [] [] []]; intro Hd; try discriminate Hd;
    repeat split; try reflexivity; discriminate.
Qed.

Lemma spanDigits_all (d : string) :
  allChars isDigit d = true -> spanDigits d = (d, "").
Proof.
  induction d as [|c d IH]; simpl; [reflexivity|].
  intro Hd. apply andb_prop in Hd as [Hc Hd]. rewrite Hc, (IH Hd). reflexivity.
Qed.

Lemma spanDigits_app (d : string) (c : ascii) (r : string) :
  allChars isDigit d = true -> isDigit c = false ->
  spanDigits (d ++ String c r) = (d, String c r).
Proof.
  intros Hd Hc. induction d as [|x d IH]; simpl.
  - rewrite Hc. reflexivity.
  - simpl in Hd. apply andb_prop in Hd as [Hx Hd]. rewrite Hx, (IH Hd).
    reflexivity.
Qed.

(** [parseInt] of a text of digits is the number they write. *)
Lemma parseInt_digits (d : string) :
  isEmpty d = false -> allChars isDigit d = true ->
  parseInt d = ofZ (digitsValue 0 d).
Proof.
  intros Hne Hd. unfold parseInt.
  destruct d as [|c r]; [discriminate|].
  pose proof Hd as Hall. simpl in Hd. apply andb_prop in Hd as [Hc _].
  destruct (digit_is_plain c Hc) as (Hs & Hm & Hp & _).
  cbn [dropWhile]. rewrite Hs.
  assert (Hsign : match String c r with
                  | String "-" r0 => (true, r0)
                  | String "+" r0 => (false, r0)
                  | _ => (false, String c r)
                  end = (false, String c r)).
  { destruct c as [[] [] [] [] [] [] [] []]; try reflexivity;
      congruence. }
  rewrite Hsign, (spanDigits_all _ Hall). reflexivity.
Qed.

Lemma pad2_digits (n : Z) :
  (0 <= n)%Z ->
  isEmpty (pad2 n) = false /\ allChars isDigit (pad2 n) = true
  /\ digitsValue 0 (pad2 n) = n.
Proof.
  intro Hn. unfold pad2. destruct (n <? 10)%Z.
  - cbn [append isEmpty allChars digitsValue].
    rewrite (decimal_digits n Hn). repeat split.
    change (10 * 0 + (Z.of_nat (nat_of_ascii "0") - 48))%Z with 0%Z.
    apply decimal_value, Hn.
  - rewrite decimal_nonempty, (decimal_digits n Hn), (decimal_value n Hn).
    repeat split.
Qed.

Lemma paceMatch_here (s : string) (r : string * string) :
  paceMatchHere s = Some r -> paceMatch s = Some r.
Proof. intro Hs. destruct s; cbn [paceMatch]; rewrite Hs; reflexivity. Qed.

Lemma paceMatchHere_fields (m sec rest : string) :
  isEmpty m = false -> allChars isDigit m = true ->
  isEmpty sec = false -> allChars isDigit sec = true ->
  paceMatchHere (m ++ "'" ++ sec ++ "''" ++ rest) = Some (m, sec).
Proof.
  intros Hm Hmd Hs Hsd. unfold paceMatchHere.
  cbn [append]. rewrite (spanDigits_app m "'" _ Hmd eq_refl), Hm.
  rewrite (spanDigits_app sec "'" _ Hsd eq_refl), Hs. reflexivity.
Qed.

Lemma app_nonempty (a b : string) : isEmpty a = false -> isEmpty (a ++ b) = false.
Proof. destruct a; [discriminate|reflexivity]. Qed.

Lemma parsePaceToSeconds_fields (m sec rest : string) :
  isEmpty m = false -> allChars isDigit m = true ->
  isEmpty sec = false -> allChars isDigit sec = true ->
  parsePaceToSeconds (Some (m ++ "'" ++ sec ++ "''" ++ rest))
  = (ofZ (digitsValue 0 m) * 60 + ofZ (digitsValue 0 sec))%float.
Proof.
  intros Hm Hmd Hs Hsd. unfold parsePaceToSeconds.
  pose proof (paceMatch_here _ _ (paceMatchHere_fields m sec rest Hm Hmd Hs Hsd))
    as Hmatch.
  pose proof (app_nonempty m ("'" ++ sec ++ "''" ++ rest) Hm) as Hne.
  destruct (m ++ "'" ++ sec ++ "''" ++ rest) as [|c r]; [discriminate|].
  rewrite Hmatch, (parseInt_digits m Hm Hmd), (parseInt_digits sec Hs Hsd).
  reflexivity.
Qed.

(** A positive finite double rounds to a natural number. *)
Lemma mathRound_nonneg (x : float) :
  le x 0 = false -> (0 <= mathRound x)%Z.
Proof.
  unfold le, mathRound, roundHalfUp. rewrite leb_spec.
  destruct (Prim2SF x) as [s|s| |s m e]; try lia.
  destruct s; [discriminate|]. intros _. cbv zeta iota beta.
  destruct (0 <=? e)%Z eqn:He.
  - apply Z.mul_nonneg_nonneg; [lia|]. apply Z.pow_nonneg. lia.
  - apply Z.leb_gt in He. apply Z.div_pos.
    + assert (0 <= 2 ^ (- e))%Z by (apply Z.pow_nonneg; lia). lia.
    + apply Z.pow_pos_nonneg; lia.
Qed.

Lemma spanDigits_rest (c : ascii) (s : string) :
  includes c s = false -> includes c (snd (spanDigits s)) = false.
Proof.
  induction s as [|d s IH]; [reflexivity|].
  cbn [includes spanDigits]. intro Hs. apply orb_false_elim in Hs as [Hd Hs].
  destruct (isDigit d).
  - specialize (IH Hs). destruct (spanDigits s) as [m r]. exact IH.
  - cbn [snd includes]. rewrite Hd, Hs. reflexivity.
Qed.

Lemma paceMatchHere_none (s : string) :
  includes "'" s = false -> paceMatchHere s = None.
Proof.
  intro Hs. apply spanDigits_rest in Hs. unfold paceMatchHere.
  destruct (spanDigits s) as [m r]. cbn [snd] in Hs.
  destruct (isEmpty m); [reflexivity|].
  destruct r as [|c r]; [reflexivity|].
  cbn [includes] in Hs. apply orb_false_elim in Hs as [Hc _].
  destruct c as [[] [] [] [] [] [] [] []]; try reflexivity; discriminate Hc.
Qed.

Lemma paceMatch_none (s : string) :
  includes "'" s = false -> paceMatch s = None.
Proof.
  induction s as [|d s IH]; intro Hs.
  - reflexivity.
  - cbn [paceMatch]. rewrite (paceMatchHere_none _ Hs).
    cbn [includes] in Hs. apply orb_false_elim in Hs as [_ Hs]. exact (IH Hs).
Qed.

(** ** Splitting and trimming a text of two digit fields *)

Lemma split_plain (c : ascii) (s : string) :
  includes c s = false -> split c s = [s].
Proof.
  induction s as [|d s IH]; [reflexivity|].
  cbn [includes split]. intro Hs. apply orb_false_elim in Hs as [Hd Hs].
  rewrite Hd, (IH Hs). reflexivity.
Qed.

Lemma split_fields (c : ascii) (a b : string) :
  includes c a = false -> includes c b = false ->
  split c (a ++ String c b) = [a; b].
Proof.
  intros Ha Hb. induction a as [|d a IH].
  - cbn [append split]. rewrite Ascii.eqb_refl, (split_plain c b Hb).
    reflexivity.
  - cbn [includes] in Ha. apply orb_false_elim in Ha as [Hd Ha].
    cbn [append split]. rewrite Hd, (IH Ha). reflexivity.
Qed.

Lemma includes_app (c : ascii) (a b : string) :
  includes c (a ++ b) = includes c a || includes c b.
Proof.
  induction a as [|d a IH]; [reflexivity|].
  cbn [append includes]. rewrite IH. apply orb_assoc.
Qed.

Lemma digits_exclude (c : ascii) (d : string) :
  isDigit c = false -> allChars isDigit d = true -> includes c d = false.
Proof.
  intros Hc. induction d as [|x d IH]; [reflexivity|].
  cbn [allChars includes]. intro Hd. apply andb_prop in Hd as [Hx Hd].
  rewrite (IH Hd), orb_false_r. apply Ascii.eqb_neq. intros ->. congruence.
Qed.

Lemma dropWhileEnd_digits (d : string) :
  allChars isDigit d = true -> dropWhileEnd isSpace d = d.
Proof.
  induction d as [|c d IH]; [reflexivity|].
  cbn [allChars dropWhileEnd]. intro Hd. apply andb_prop in Hd as [Hc Hd].
  rewrite (IH Hd). destruct (digit_is_plain c Hc) as [-> _]. reflexivity.
Qed.

Lemma dropWhileEnd_app (a b : string) :
  isEmpty b = false -> dropWhileEnd isSpace b = b ->
  dropWhileEnd isSpace (a ++ b) = a ++ b.
Proof.
  intros Hb Hk. induction a as [|c a IH]; [exact Hk|].
  cbn [append dropWhileEnd]. rewrite IH.
  destruct a; cbn [append]; destruct b; try discriminate;
    cbn [isEmpty]; rewrite andb_false_r; reflexivity.
Qed.

(** A text of two digit fields around a non-space separator is its own
    [trim]. *)
Lemma trim_fields (sep : ascii) (mm ss : string) :
  isEmpty mm = false -> allChars isDigit mm = true ->
  isEmpty ss = false -> allChars isDigit ss = true ->
  trim (mm ++ String sep ss) = mm ++ String sep ss.
Proof.
  intros Hm Hmd Hs Hsd. unfold trim.
  assert (Hhead : dropWhile isSpace (mm ++ String sep ss)
                  = mm ++ String sep ss).
  { destruct mm as [|c r]; [discriminate|].
    cbn [allChars] in Hmd. apply andb_prop in Hmd as [Hc _].
    cbn [append dropWhile]. destruct (digit_is_plain c Hc) as [-> _].
    reflexivity. }
  rewrite Hhead. apply dropWhileEnd_app; [reflexivity|].
  change (String sep ss) with (String sep "" ++ ss).
  apply dropWhileEnd_app; [exact Hs|]. apply dropWhileEnd_digits, Hsd.
Qed.

(** The seconds of a time text are a finite number. *)
Lemma ofZ_small_finite (s : Z) :
  (0 <= s < 60)%Z -> is_finite (ofZ s) = true.
Proof.
  intro Hs.
  assert (Hall : forallb (fun n => is_finite (ofZ (Z.of_nat n))) (seq 0 60)
                 = true) by (vm_compute; reflexivity).
  rewrite forallb_forall in Hall. specialize (Hall (Z.to_nat s)).
  rewrite Z2Nat.id in Hall by lia. apply Hall. apply in_seq. lia.
Qed.

Lemma minutesSeconds_fields (mm ss : string) :
  isEmpty mm = false -> allChars isDigit mm = true ->
  isEmpty ss = false -> allChars isDigit ss = true ->
  minutesSeconds [mm; ss]
  = if is_finite (ofZ (digitsValue 0 mm)) && is_finite (ofZ (digitsValue 0 ss))
    then Some (ofZ (digitsValue 0 mm) * 60 + ofZ (digitsValue 0 ss))%float
    else None.
Proof.
  intros Hm Hmd Hs Hsd. unfold minutesSeconds. cbn [nth].
  rewrite (parseInt_digits mm Hm Hmd), (parseInt_digits ss Hs Hsd).
  reflexivity.
Qed.

Lemma parseBaselineTimeToSec_fields (sep : ascii) (mm ss : string) :
  sep = ":"%char \/ sep = "."%char ->
  isEmpty mm = false -> allChars isDigit mm = true ->
  isEmpty ss = false -> allChars isDigit ss = true ->
  parseBaselineTimeToSec (Some (mm ++ String sep ss))
  = minutesSeconds [mm; ss].
Proof.
  intros Hsep Hm Hmd Hs Hsd. unfold parseBaselineTimeToSec.
  rewrite (trim_fields sep mm ss Hm Hmd Hs Hsd).
  pose proof (app_nonempty mm (String sep ss) Hm) as Hne.
  assert (Hcolon : forall c, isDigit c = false ->
            includes c (mm ++ String sep ss) = Ascii.eqb c sep).
  { intros c Hc. rewrite includes_app. cbn [includes].
    rewrite (digits_exclude c mm Hc Hmd), (digits_exclude c ss Hc Hsd).
    rewrite orb_false_r. reflexivity. }
  pose proof (Hcolon ":"%char eq_refl) as H1.
  pose proof (Hcolon "."%char eq_refl) as H2.
  assert (Hsplit : split sep (mm ++ String sep ss) = [mm; ss]).
  { apply split_fields; apply digits_exclude; auto;
      destruct Hsep as [-> | ->]; reflexivity. }
  destruct (mm ++ String sep ss) as [|c r] eqn:Htxt; [discriminate|].
  rewrite Hne, H1, H2.
  destruct Hsep as [-> | ->]; cbn [Ascii.eqb Bool.eqb]; cbv iota;
    rewrite Hsplit; reflexivity.
Qed.

End PaceAndTimeTexts.

Section TextTheorems.

Import Js.
Local Open Scope string_scope.

(** X1 ([parsePaceToSeconds]).  A pace text that contains no apostrophe
    counts as zero seconds per kilometre, whatever else it says. *)
Theorem X1_pace_without_apostrophe_is_zero :
  forall txt : string,
    includes "'" txt = false -> parsePaceToSeconds (Some txt) = 0%float.
Proof.
  intros txt Htxt. unfold parsePaceToSeconds.
  destruct txt as [|c r]; [reflexivity|].
  rewrite (paceMatch_none _ Htxt). reflexivity.
Qed.

Lemma X1_witness : parsePaceToSeconds (Some "6:00 min/km") = 0%float.
Proof. apply X1_pace_without_apostrophe_is_zero. reflexivity. Defined.

(** X2 ([formatPaceSecPerKm], [parsePaceToSeconds]).  A pace text written
    by [formatPaceSecPerKm] for a value below 2^53 (the range in which the
    embedding of the formatter is exact) is read back by
    [parsePaceToSeconds] as sixty times its minutes plus its seconds, the
    minutes and seconds being those of the rounded value. *)
Theorem X2_pace_text_round_trip :
  forall (x : float) (p : string),
    (x <? 9007199254740992)%float = true ->
    formatPaceSecPerKm x = Some p ->
    let total := mathRound x in
    (0 <= total)%Z
    /\ parsePaceToSeconds (Some p)
       = (ofZ (total / 60) * 60 + ofZ (total mod 60))%float.
Proof.
  intros x p _ Hp total. unfold formatPaceSecPerKm in Hp.
  destruct (negb (is_finite x) || le x 0) eqn:Hx; [discriminate|].
  apply orb_false_elim in Hx as [_ Hx].
  pose proof (mathRound_nonneg x Hx) as Htotal. fold total in Htotal.
  injection Hp as <-. fold total. split; [exact Htotal|].
  assert (Hm : (0 <= total / 60)%Z) by (apply Z.div_pos; lia).
  assert (Hs : (0 <= total mod 60)%Z) by (apply Z.mod_pos_bound; lia).
  destruct (pad2_digits (total mod 60) Hs) as (Hs1 & Hs2 & Hs3).
  rewrite <- (decimal_value (total / 60) Hm) at 2. rewrite <- Hs3 at 2.
  apply (parsePaceToSeconds_fields (decimal (total / 60))
           (pad2 (total mod 60)) "/km");
    auto using decimal_nonempty, decimal_digits.
Qed.

Lemma X2_witness :
  formatPaceSecPerKm 330.4 = Some "5'30''/km"
  /\ parsePaceToSeconds (Some "5'30''/km") = 330%float.
Proof.
  split; [reflexivity|].
  apply (X2_pace_text_round_trip 330.4 "5'30''/km"); reflexivity.
Defined.

(** X3 ([parseBaselineTimeToSec]).  A time text of two digit fields is read
    as minutes and seconds whether the fields are separated by a colon or by
    a full stop: the result is sixty times the first field plus the second
    (nothing when one of the two numbers is not finite). *)
Theorem X3_time_text_reads_minutes_and_seconds :
  forall (sep : ascii) (mm ss : string),
    sep = ":"%char \/ sep = "."%char ->
    isEmpty mm = false -> allChars isDigit mm = true ->
    isEmpty ss = false -> allChars isDigit ss = true ->
    parseBaselineTimeToSec (Some (mm ++ String sep ss))
    = if is_finite (ofZ (digitsValue 0 mm))
         && is_finite (ofZ (digitsValue 0 ss))
      then Some (ofZ (digitsValue 0 mm) * 60 + ofZ (digitsValue 0 ss))%float
      else None.
Proof.
  intros sep mm ss Hsep Hm Hmd Hs Hsd.
  rewrite (parseBaselineTimeToSec_fields sep mm ss Hsep Hm Hmd Hs Hsd).
  apply minutesSeconds_fields; assumption.
Qed.

Lemma X3_witness :
  parseBaselineTimeToSec (Some "27.5") = Some 1625%float
  /\ parseBaselineTimeToSec (Some "27:5") = Some 1625%float.
Proof.
  split.
  - apply (X3_time_text_reads_minutes_and_seconds "." "27" "5");
      auto; reflexivity.
  - apply (X3_time_text_reads_minutes_and_seconds ":" "27" "5");
      auto; reflexivity.
Defined.

(** X4 ([formatTimeMinTextFromSec], [parseBaselineTimeToSec]).  A time text
    written by [formatTimeMinTextFromSec] for a value below 2^53 (the range
    in which the embedding of the formatter is exact) is read back by
    [parseBaselineTimeToSec] as sixty times its minutes plus its seconds,
    the minutes and seconds being those of the rounded value. *)
Theorem X4_time_text_round_trip :
  forall (x : float) (t : string),
    (x <? 9007199254740992)%float = true ->
    formatTimeMinTextFromSec x = Some t ->
    let total := mathRound x in
    (0 <= total)%Z
    /\ parseBaselineTimeToSec (Some t)
       = if is_finite (ofZ (total / 60))
         then Some (ofZ (total / 60) * 60 + ofZ (total mod 60))%float
         else None.
Proof.
  intros x t _ Ht total. unfold formatTimeMinTextFromSec in Ht.
  destruct (negb (is_finite x) || le x 0) eqn:Hx; [discriminate|].
  apply orb_false_elim in Hx as [_ Hx].
  pose proof (mathRound_nonneg x Hx) as Htotal. fold total in Htotal.
  injection Ht as <-. fold total. split; [exact Htotal|].
  assert (Hm : (0 <= total / 60)%Z) by (apply Z.div_pos; lia).
  assert (Hs : (0 <= total mod 60)%Z) by (apply Z.mod_pos_bound; lia).
  destruct (pad2_digits (total mod 60) Hs) as (Hs1 & Hs2 & Hs3).
  pose proof (decimal_value (total / 60) Hm) as Hmv.
  rewrite (parseBaselineTimeToSec_fields ":" (decimal (total / 60))
             (pad2 (total mod 60)));
    auto using decimal_nonempty, decimal_digits.
  rewrite minutesSeconds_fields;
    auto using decimal_nonempty, decimal_digits.
  rewrite Hmv, Hs3, (ofZ_small_finite (total mod 60)), andb_true_r;
    [reflexivity|].
  apply Z.mod_pos_bound. lia.
Qed.

Lemma X4_witness :
  formatTimeMinTextFromSec 3541 = Some "59:01"
  /\ parseBaselineTimeToSec (Some "59:01") = Some 3541%float.
Proof.
  split; [reflexivity|].
  apply (X4_time_text_round_trip 3541 "59:01"); reflexivity.
Defined.

End TextTheorems.

(** * Printed numbers *)

Section PrintedNumbers.

Import Js.
Local Open Scope string_scope.

Lemma stripDotZeros_plain (s : string) :
  includes "." s = false -> stripDotZeros s = s.
Proof.
  induction s as [|c s IH]; [reflexivity|].
  cbn [includes stripDotZeros]. intro Hs. apply orb_false_elim in Hs as [Hc Hs].
  rewrite Ascii.eqb_sym, Hc, (IH Hs). reflexivity.
Qed.

Lemma stripFractionZeros_plain (s : string) :
  includes "." s = false -> stripFractionZeros s = s.
Proof.
  induction s as [|c s IH]; [reflexivity|].
  cbn [includes stripFractionZeros]. intro Hs.
  apply orb_false_elim in Hs as [Hc Hs].
  rewrite Ascii.eqb_sym, Hc, (IH Hs). reflexivity.
Qed.

Lemma zeros_are_digits (s : string) :
  allChars (Ascii.eqb "0") s = true -> allChars isDigit s = true.
Proof.
  induction s as [|c s IH]; [reflexivity|]. cbn [allChars]. intro Hs.
  apply andb_prop in Hs as [Hc Hs]. apply Ascii.eqb_eq in Hc. subst c.
  rewrite (IH Hs). reflexivity.
Qed.

(** The zeros at the end of a text are all of it exactly when the text is
    made of zeros. *)
Lemma dropWhileEnd_zeros (s : string) :
  isEmpty (dropWhileEnd (Ascii.eqb "0") s) = allChars (Ascii.eqb "0") s.
Proof.
  induction s as [|c s IH]; [reflexivity|]. cbn [dropWhileEnd allChars].
  rewrite <- IH. destruct (Ascii.eqb "0" c); cbn [andb].
  - destruct (isEmpty (dropWhileEnd (Ascii.eqb "0") s)); reflexivity.
  - reflexivity.
Qed.

Lemma dropWhileEnd_no_zero (s : string) :
  endsWithZero s = false -> dropWhileEnd (Ascii.eqb "0") s = s.
Proof.
  induction s as [|c s IH]; [reflexivity|]. cbn [dropWhileEnd].
  destruct s as [|d s].
  - cbn [endsWithZero dropWhileEnd isEmpty]. rewrite Ascii.eqb_sym.
    intros ->. reflexivity.
  - intro Hs. change (endsWithZero (String c (String d s)))
      with (endsWithZero (String d s)) in Hs.
    rewrite (IH Hs). cbn [isEmpty]. rewrite andb_false_r. reflexivity.
Qed.

Lemma stripDotZeros_fraction (whole frac : string) :
  includes "." whole = false -> isEmpty frac = false ->
  allChars isDigit frac = true ->
  stripDotZeros (whole ++ "." ++ frac)
  = if allChars (Ascii.eqb "0") frac then whole else whole ++ "." ++ frac.
Proof.
  intros Hw Hne Hd. induction whole as [|c w IH].
  - cbn [append stripDotZeros]. rewrite Ascii.eqb_refl, Hne. cbn [negb andb].
    destruct (allChars (Ascii.eqb "0") frac); [reflexivity|].
    rewrite stripDotZeros_plain; [reflexivity|].
    apply digits_exclude; [reflexivity|exact Hd].
  - cbn [includes] in Hw. apply orb_false_elim in Hw as [Hc Hw].
    cbn [append stripDotZeros]. rewrite Ascii.eqb_sym, Hc. cbn [andb].
    change (w ++ String "." frac) with (w ++ "." ++ frac).
    rewrite (IH Hw). destruct (allChars (Ascii.eqb "0") frac); reflexivity.
Qed.

Lemma stripFractionZeros_fraction (whole frac : string) :
  includes "." whole = false -> allChars isDigit frac = true ->
  stripFractionZeros (whole ++ "." ++ frac)
  = whole ++ "." ++ dropWhileEnd (Ascii.eqb "0") frac.
Proof.
  intros Hw Hd. induction whole as [|c w IH].
  - cbn [append stripFractionZeros]. rewrite Ascii.eqb_refl, Hd. cbn [andb].
    destruct (endsWithZero frac) eqn:Hz; [reflexivity|].
    rewrite (dropWhileEnd_no_zero frac Hz), stripFractionZeros_plain;
      [reflexivity|].
    apply digits_exclude; [reflexivity|exact Hd].
  - cbn [includes] in Hw. apply orb_false_elim in Hw as [Hc Hw].
    cbn [append stripFractionZeros]. rewrite Ascii.eqb_sym, Hc. cbn [andb].
    change (w ++ String "." frac) with (w ++ "." ++ frac).
    rewrite (IH Hw). reflexivity.
Qed.

End PrintedNumbers.

Section FixedPointShape.

Import Js.
Local Open Scope string_scope.

Lemma append_assoc' (a b c : string) : (a ++ b) ++ c = a ++ (b ++ c).
Proof. induction a as [|x a IH]; [reflexivity|]. cbn. rewrite IH. reflexivity. Qed.

Lemma append_empty (a : string) : a ++ "" = a.
Proof. induction a as [|x a IH]; [reflexivity|]. cbn. rewrite IH. reflexivity. Qed.

Lemma length_append (a b : string) :
  String.length (a ++ b) = (String.length a + String.length b)%nat.
Proof. induction a as [|x a IH]; [reflexivity|]. cbn. rewrite IH. reflexivity. Qed.

Lemma length_zeros (n : nat) : String.length (zeros n) = n.
Proof. induction n as [|n IH]; [reflexivity|]. cbn. rewrite IH. reflexivity. Qed.

Lemma allChars_append (p : ascii -> bool) (a b : string) :
  allChars p (a ++ b) = allChars p a && allChars p b.
Proof.
  induction a as [|x a IH]; [reflexivity|]. cbn [append allChars].
  rewrite IH. apply andb_assoc.
Qed.

Lemma zeros_digits (n : nat) : allChars isDigit (zeros n) = true.
Proof. induction n as [|n IH]; [reflexivity|]. cbn [zeros allChars]. rewrite IH. reflexivity. Qed.

Lemma takeStr_dropStr (j : nat) (s : string) : takeStr j s ++ dropStr j s = s.
Proof.
  revert s. induction j as [|j IH]; intro s; [reflexivity|].
  destruct s as [|c s]; [reflexivity|]. cbn [takeStr dropStr append].
  rewrite IH. reflexivity.
Qed.

Lemma length_takeStr (j : nat) (s : string) :
  (j <= String.length s)%nat -> String.length (takeStr j s) = j.
Proof.
  revert s. induction j as [|j IH]; intros s Hj; [reflexivity|].
  destruct s as [|c s]; cbn [String.length] in Hj; [lia|].
  cbn [takeStr String.length]. rewrite IH by lia. reflexivity.
Qed.

Lemma nonempty_length (s : string) :
  (1 <= String.length s)%nat -> isEmpty s = false.
Proof. destruct s; cbn; [lia|reflexivity]. Qed.

(** [placePoint] with at least one digit after the point: a whole part of
    at least one digit, the point, and exactly [digits] digits. *)
Lemma placePoint_shape (d : nat) (n : Z) :
  (0 <= n)%Z ->
  exists whole frac,
    placePoint (S d) n = whole ++ "." ++ frac
    /\ isEmpty whole = false /\ allChars isDigit whole = true
    /\ allChars isDigit frac = true /\ String.length frac = S d.
Proof.
  intro Hn. unfold placePoint.
  set (m0 := decimal n).
  set (m := if (String.length m0 <=? S d)%nat
            then zeros (S (S d) - String.length m0) ++ m0 else m0).
  assert (Hd : allChars isDigit m = true).
  { subst m. destruct (String.length m0 <=? S d)%nat.
    - rewrite allChars_append, zeros_digits. apply decimal_digits, Hn.
    - apply decimal_digits, Hn. }
  assert (Hlen : (S (S d) <= String.length m)%nat).
  { subst m. destruct (Nat.leb_spec (String.length m0) (S d)) as [Hle|Hgt].
    - rewrite length_append, length_zeros. lia.
    - lia. }
  set (k := String.length m) in *.
  exists (takeStr (k - S d) m), (dropStr (k - S d) m).
  pose proof (takeStr_dropStr (k - S d) m) as Hsplit.
  rewrite <- Hsplit, allChars_append in Hd. apply andb_prop in Hd as [Hw Hf].
  assert (Hlw : String.length (takeStr (k - S d) m) = (k - S d)%nat)
    by (apply length_takeStr; lia).
  refine (conj eq_refl (conj _ (conj Hw (conj Hf _)))).
  - apply nonempty_length. lia.
  - assert (Hall : String.length (takeStr (k - S d) m ++ dropStr (k - S d) m)
                   = k) by (rewrite Hsplit; reflexivity).
    rewrite length_append, Hlw in Hall. lia.
Qed.

Lemma roundHalfUp_nonneg (scale : Z) (x : float) :
  (0 <= scale)%Z ->
  (forall m e, Prim2SF x <> S754_finite true m e) ->
  (0 <= roundHalfUp scale x)%Z.
Proof.
  intros Hs Hx. unfold roundHalfUp.
  destruct (Prim2SF x) as [s|s| |s m e]; try lia.
  destruct s; [exfalso; exact (Hx m e eq_refl)|].
  assert (Hn : (0 <= Z.pos m * scale)%Z) by lia.
  destruct (0 <=? e)%Z eqn:He.
  - apply Z.mul_nonneg_nonneg; [exact Hn|]. apply Z.pow_nonneg. lia.
  - apply Z.leb_gt in He. apply Z.div_pos.
    + assert (0 <= 2 ^ (- e))%Z by (apply Z.pow_nonneg; lia). lia.
    + apply Z.pow_pos_nonneg; lia.
Qed.

Lemma magnitude_sign (n : float) (m : positive) (e : Z) :
  Prim2SF (magnitude n) <> S754_finite true m e.
Proof.
  unfold magnitude. destruct (n <? 0)%float eqn:Hneg.
  - rewrite opp_spec. rewrite ltb_spec in Hneg.
    destruct (Prim2SF n) as [s|s| |s m' e']; cbn; try discriminate.
    destruct s; [discriminate|discriminate Hneg].
  - rewrite ltb_spec in Hneg.
    destruct (Prim2SF n) as [s|s| |s m' e']; cbn; try discriminate.
    destruct s; [discriminate Hneg|discriminate].
Qed.

End FixedPointShape.

Section PrintedNumberTheorems.

Import Js.
Local Open Scope string_scope.

Variable H : Host.

(** The two replacements of [toFixedTrim] on a text with a point, a whole
    part without point before it and digits after it. *)
Lemma trim_replacements (whole frac : string) :
  includes "." whole = false -> isEmpty frac = false ->
  allChars isDigit frac = true ->
  stripFractionZeros (stripDotZeros (whole ++ "." ++ frac))
  = trimFraction whole frac.
Proof.
  intros Hw Hne Hd.
  rewrite (stripDotZeros_fraction whole frac Hw Hne Hd).
  unfold trimFraction. rewrite dropWhileEnd_zeros.
  destruct (allChars (Ascii.eqb "0") frac) eqn:Hz.
  - apply stripFractionZeros_plain, Hw.
  - apply stripFractionZeros_fraction; assumption.
Qed.

(** X20 ([toFixedTrim]).  For a number that is neither NaN nor infinite
    and whose magnitude is below 1e21, [toFixed] prints a sign, a whole
    part of at least one digit and, for a positive number of digits, a
    point and exactly that many digits; [toFixedTrim] prints the same sign
    and whole part, and of the fraction everything but the zeros that end
    it, without the point when nothing is left.  The zeros that end a whole
    part are never removed. *)
Theorem X20_toFixedTrim_drops_only_trailing_fraction_zeros :
  forall (n : float) (digits : nat),
    is_nan n = false -> is_infinity n = false ->
    (1e21 <=? magnitude n)%float = false ->
    exists whole frac,
      isEmpty whole = false /\ allChars isDigit whole = true
      /\ allChars isDigit frac = true /\ String.length frac = digits
      /\ toFixed H n digits
         = signText n ++ whole
           ++ match digits with O => "" | S _ => "." ++ frac end
      /\ toFixedTrim H n digits = signText n ++ trimFraction whole frac.
Proof.
  intros n digits Hnan Hinf Hbig. unfold toFixedTrim, toFixed.
  rewrite Hnan, Hinf. fold (magnitude n). rewrite Hbig.
  assert (Hround : (0 <= roundHalfUp (10 ^ Z.of_nat digits) (magnitude n))%Z).
  { apply roundHalfUp_nonneg; [apply Z.pow_nonneg; lia|].
    intros m e. apply magnitude_sign. }
  set (r := roundHalfUp (10 ^ Z.of_nat digits) (magnitude n)) in *.
  assert (Hsign : forall s,
            (if (n <? 0)%float then "-" ++ s else s) = signText n ++ s).
  { intro s. unfold signText. destruct (n <? 0)%float; reflexivity. }
  rewrite Hsign.
  assert (Hdash : includes "." (signText n) = false)
    by (unfold signText; destruct (n <? 0)%float; reflexivity).
  destruct digits as [|d].
  - exists (decimal r), "". cbn [placePoint].
    assert (Hplain : includes "." (signText n ++ decimal r) = false).
    { rewrite includes_app, Hdash.
      apply digits_exclude; [reflexivity|apply decimal_digits, Hround]. }
    rewrite (stripDotZeros_plain _ Hplain), (stripFractionZeros_plain _ Hplain).
    unfold trimFraction. cbn [dropWhileEnd isEmpty].
    refine (conj (decimal_nonempty r)
              (conj (decimal_digits r Hround) (conj eq_refl (conj eq_refl
                 (conj _ eq_refl))))).
    rewrite append_empty. reflexivity.
  - destruct (placePoint_shape d r Hround)
      as (whole & frac & -> & Hne & Hw & Hf & Hlen).
    exists whole, frac.
    refine (conj Hne (conj Hw (conj Hf (conj Hlen (conj eq_refl _))))).
    rewrite <- append_assoc'.
    rewrite trim_replacements.
    + unfold trimFraction.
      destruct (isEmpty (dropWhileEnd (Ascii.eqb "0") frac));
        [reflexivity|apply append_assoc'].
    + rewrite includes_app, Hdash.
      apply digits_exclude; [reflexivity|exact Hw].
    + apply nonempty_length. lia.
    + exact Hf.
Qed.

End PrintedNumberTheorems.

Section PrintedNumberExamples.

Import Js.
Local Open Scope string_scope.

Lemma X20_witness :
  exists whole frac,
    toFixed Example.utcHost 510 2 = whole ++ "." ++ frac
    /\ toFixedTrim Example.utcHost 510 2 = trimFraction whole frac.
Proof.
  destruct (X20_toFixedTrim_drops_only_trailing_fraction_zeros
              Example.utcHost 510 2 eq_refl eq_refl eq_refl)
    as (whole & frac & _ & _ & _ & _ & Hfixed & Htrim).
  exists whole, frac. split; [exact Hfixed|exact Htrim].
Defined.

End PrintedNumberExamples.

(** * Runs, rides and other sports *)

Section SportFacts.

Local Open Scope string_scope.

Lemma run_is_no_ride (a : Activity.t) : isRun a = true -> isRide a = false.
Proof.
  unfold isRun, isRide. intro Hr.
  repeat (apply orb_prop in Hr as [Hr|Hr]);
    apply String.eqb_eq in Hr; rewrite Hr; reflexivity.
Qed.

Lemma filter_narrow {A : Type} (p q : A -> bool) (l : list A) :
  (forall a, p a = true -> q a = true) ->
  filter p (filter q l) = filter p l.
Proof.
  intro Hpq. induction l as [|a l IH]; [reflexivity|]. cbn [filter].
  destruct (q a) eqn:Hq; cbn [filter]; rewrite IH; [reflexivity|].
  destruct (p a) eqn:Hp; [|reflexivity].
  rewrite (Hpq a Hp) in Hq. discriminate Hq.
Qed.

Lemma filter_apart {A : Type} (p q : A -> bool) (l : list A) :
  (forall a, q a = true -> p a = false) ->
  filter p (filter q l) = [].
Proof.
  intro Hpq. induction l as [|a l IH]; [reflexivity|]. cbn [filter].
  destruct (q a) eqn:Hq; [|exact IH]. cbn [filter].
  rewrite (Hpq a Hq). exact IH.
Qed.

Lemma runs_classified (l : list Activity.t) :
  Stats.runs (filter classified l) = Stats.runs l.
Proof.
  apply filter_narrow. intros a Ha. unfold classified. rewrite Ha. reflexivity.
Qed.

Lemma rides_classified (l : list Activity.t) :
  Stats.rides (filter classified l) = Stats.rides l.
Proof.
  apply filter_narrow. intros a Ha. unfold classified. rewrite Ha.
  apply orb_true_r.
Qed.

End SportFacts.

Section FartherMore.

Local Open Scope float_scope.

(** Records without positive distance never become the best. *)
Lemma farther_none (l : list Activity.t) :
  (forall x, In x l -> (0 <? kmOf x) = false) ->
  fold_left Stats.farther l None = None.
Proof.
  induction l as [|x l IH]; intro Hl; [reflexivity|].
  cbn [fold_left].
  destruct (farther_cases None x) as [[_ Hpos]|[-> _]].
  - cbn [bestKm] in Hpos. rewrite (Hl x (or_introl eq_refl)) in Hpos.
    discriminate Hpos.
  - apply IH. intros y Hy. apply Hl. right. exact Hy.
Qed.

(** The best record has a positive distance. *)
Lemma farther_positive (l : list Activity.t) :
  forall best,
    (forall a k, best = Some (a, k) -> (0 <? k) = true) ->
    forall a k, fold_left Stats.farther l best = Some (a, k) ->
                (0 <? k) = true.
Proof.
  induction l as [|x l IH]; intros best Hbest a k Hfold.
  - exact (Hbest a k Hfold).
  - cbn [fold_left] in Hfold.
    refine (IH (Stats.farther best x) _ a k Hfold). intros b j Hb.
    destruct (farther_cases best x) as [[Hnew Hlt]|[Hsame _]].
    + rewrite Hnew in Hb. injection Hb as <- <-.
      destruct best as [[c i]|]; cbn [bestKm] in Hlt; [|exact Hlt].
      exact (ltb_trans _ _ _ (Hbest c i eq_refl) Hlt).
    + rewrite Hsame in Hb. exact (Hbest b j Hb).
Qed.

End FartherMore.

Section SportTheorems.

Local Open Scope float_scope.

(** X13 ([isRun], [isRide], [computeSportsStats]).  No record counts both
    as a run and as a ride: the runs hold no ride, the rides hold no run,
    and together they are at most as many as the records. *)
Theorem X13_no_record_is_both_run_and_ride :
  forall activities : list Activity.t,
    (forall a, isRun a && isRide a = false)
    /\ Stats.rides (Stats.runs activities) = []
    /\ Stats.runs (Stats.rides activities) = []
    /\ (List.length (Stats.runs activities)
        + List.length (Stats.rides activities)
        <= List.length activities)%nat.
Proof.
  intro activities.
  assert (Hboth : forall a, isRun a && isRide a = false).
  { intro a. destruct (isRun a) eqn:Hr; [|reflexivity].
    rewrite (run_is_no_ride a Hr). reflexivity. }
  split; [exact Hboth|]. split; [|split].
  - apply filter_apart. exact run_is_no_ride.
  - apply filter_apart. intros a Ha. specialize (Hboth a).
    rewrite Ha, andb_true_r in Hboth. exact Hboth.
  - unfold Stats.runs, Stats.rides.
    induction activities as [|a l IH]; [cbn; lia|]. cbn [filter].
    specialize (Hboth a).
    destruct (isRun a), (isRide a); cbn [List.length andb] in *;
      try discriminate Hboth; lia.
Qed.

(** X14 ([computeSportsStats]).  Records of other sports than the four
    kinds of run and the four kinds of ride have no influence on the
    statistics: removing them from the input leaves the cards and the
    yearly and monthly roll-ups unchanged. *)
Theorem X14_other_sports_are_ignored :
  forall (H : Host) (baseline : Baseline.t) (activities : list Activity.t)
         (athleteStats : option AthleteStats.t),
    let kept := filter classified activities in
    Stats.computeSportsStats H baseline kept athleteStats
    = Stats.computeSportsStats H baseline activities athleteStats
    /\ Rollup.runYears H baseline kept = Rollup.runYears H baseline activities
    /\ Rollup.rideYears H kept = Rollup.rideYears H activities
    /\ Rollup.runMonthly H kept = Rollup.runMonthly H activities
    /\ Rollup.rideMonthly H kept = Rollup.rideMonthly H activities.
Proof.
  intros H baseline activities athleteStats kept. subst kept.
  unfold Rollup.runYears, Rollup.rideYears, Rollup.runMonthly,
    Rollup.rideMonthly.
  rewrite !runs_classified, !rides_classified.
  repeat split.
  unfold Stats.computeSportsStats, Stats.runDistanceKm, Stats.runTimeH,
    Stats.rideDistanceKm, Stats.rideTimeH, Stats.cyclingAvgKmPerRide,
    Stats.rideDistanceKm, Stats.rideCount, Stats.bestRideKm,
    Stats.bestRideSubtext, Stats.bestRide.
  rewrite !runs_classified, !rides_classified. reflexivity.
Qed.

(** X15 ([computeSportsStats], farthest ride).  The farthest-ride card
    shows the greatest distance among the rides of the cache, whatever the
    lifetime totals say: no ride is longer than the chosen one, and the
    chosen ride is a ride of the cache, has a positive distance and gives
    the card a subtext.  No ride is chosen exactly when no ride has a
    positive distance, and then the card shows 0 without subtext. *)
Theorem X15_farthest_ride_is_the_longest :
  forall (H : Host) (baseline : Baseline.t) (activities : list Activity.t)
         (athleteStats : option AthleteStats.t),
    let km := Stats.bestRideKm activities in
    let card := c_farthest (cycling (Stats.computeSportsStats H baseline
                                       activities athleteStats)) in
    (forall x, In x (Stats.rides activities) -> (km <? kmOf x) = false)
    /\ (forall a k, Stats.bestRide activities = Some (a, k) ->
          In a (Stats.rides activities) /\ k = kmOf a /\ km = k
          /\ (0 <? k) = true /\ Card.subtext card <> None)
    /\ (Stats.bestRide activities = None ->
        km = 0 /\ Card.subtext card = None
        /\ forall x, In x (Stats.rides activities) -> (0 <? kmOf x) = false)
    /\ ((forall x, In x (Stats.rides activities) -> (0 <? kmOf x) = false) ->
        Stats.bestRide activities = None /\ km = 0
        /\ Card.value card = toFixedTrim H 0 2
        /\ Card.subtext card = None)
    /\ Card.value card
       = toFixedTrim H km (if Js.ge km 100 then 1%nat else 2%nat).
Proof.
  intros H baseline activities athleteStats km card.
  assert (Hmax : forall x, In x (Stats.rides activities) ->
                           (km <? kmOf x) = false).
  { intros x Hx. exact (farther_is_max (Stats.rides activities) None x Hx). }
  assert (Hnone : Stats.bestRide activities = None ->
                  km = 0 /\ Card.subtext card = None).
  { intro Hb. split.
    - subst km. unfold Stats.bestRideKm. rewrite Hb. reflexivity.
    - subst card. unfold Stats.computeSportsStats.
      cbn [cycling c_farthest Card.subtext].
      unfold Stats.bestRideSubtext. rewrite Hb. reflexivity. }
  split; [exact Hmax|]. split; [|split; [|split]].
  - intros a k Hbest.
    destruct (farther_picks (Stats.rides activities) None a k Hbest)
      as [Hno|[Hin Hk]]; [discriminate|].
    split; [exact Hin|]. split; [exact Hk|]. split.
    { subst km. unfold Stats.bestRideKm. rewrite Hbest. reflexivity. }
    split.
    { refine (farther_positive (Stats.rides activities) None _ a k Hbest).
      intros ? ? [=]. }
    subst card. unfold Stats.computeSportsStats.
    cbn [cycling c_farthest Card.subtext].
    unfold Stats.bestRideSubtext. rewrite Hbest.
    destruct (Activity.average_speed_mps a) as [v|]; [|discriminate].
    destruct (Js.truthy v); [|discriminate].
    destruct (Js.truthy _); discriminate.
  - intro Hb. destruct (Hnone Hb) as [Hkm Hsub].
    split; [exact Hkm|]. split; [exact Hsub|].
    rewrite <- Hkm. exact Hmax.
  - intro Hflat.
    pose proof (farther_none (Stats.rides activities) Hflat) as Hb.
    change (fold_left Stats.farther (Stats.rides activities) None)
      with (Stats.bestRide activities) in Hb.
    destruct (Hnone Hb) as [Hkm Hsub].
    split; [exact Hb|]. split; [exact Hkm|]. split; [|exact Hsub].
    subst card. unfold Stats.computeSportsStats.
    cbn [cycling c_farthest Card.value]. fold km. rewrite Hkm. reflexivity.
  - reflexivity.
Qed.

End SportTheorems.

(** * The activity pages *)

Section PageFacts.

Local Open Scope Z_scope.
Local Opaque per_page.

Variable w : World.
Variable after : option Z.

Lemma pageRequests_next (page : Z) (n : nat) :
  pageRequests after page (S n)
  = ActivitiesRequest page after :: pageRequests after (page + 1) n.
Proof.
  unfold pageRequests. cbn [seq map]. rewrite Z.add_0_r. f_equal.
  rewrite <- seq_shift, map_map. apply map_ext. intro j.
  f_equal. lia.
Qed.

Lemma pagesItems_next (page : Z) (n : nat) :
  pagesItems w after page (S n)
  = (pageItems (activitiesEndpoint w page after)
     ++ pagesItems w after (page + 1) n)%list.
Proof.
  unfold pagesItems. cbn [seq flat_map]. rewrite Z.add_0_r. f_equal.
  rewrite <- seq_shift, !flat_map_concat_map, map_map. f_equal.
  apply map_ext. intro j. do 2 f_equal. lia.
Qed.

(** The loop of [fetchActivities], [k] pages before the hard stop: it asks
    for [n <= k] consecutive pages, every page but the last one asked for is
    full, and it stops on the first answer that throws, on the first short
    page, or after [k] pages. *)
Lemma fetchPages_shape :
  forall (k : nat) (page : Z) (out : list Raw.t),
    let r := fetchPages w after k page out in
    exists n : nat,
      (n <= k)%nat
      /\ fst r = pageRequests after page n
      /\ (forall j, (S j < n)%nat ->
            fullPage (activitiesEndpoint w (page + Z.of_nat j) after) = true)
      /\ match snd r with
         | inl e =>
             exists m, n = S m
               /\ pageError (activitiesEndpoint w (page + Z.of_nat m) after)
                  = Some e
         | inr res =>
             res = (out ++ pagesItems w after page n)%list
             /\ (forall j, (j < n)%nat ->
                   pageError (activitiesEndpoint w (page + Z.of_nat j) after)
                   = None)
             /\ (n = k
                 \/ exists m, n = S m
                      /\ fullPage
                           (activitiesEndpoint w (page + Z.of_nat m) after)
                         = false)
         end.
Proof.
  induction k as [|k IH]; intros page out; cbv zeta.
  - exists 0%nat. cbn. rewrite app_nil_r.
    refine (conj _ (conj _ (conj _ (conj _ (conj _ _))))); auto;
      intros; lia.
  - cbn [fetchPages]. unfold bind, emit, throw, ret.
    destruct (activitiesEndpoint w page after) as [[arr|]|status text] eqn:Ea.
    + destruct (Nat.ltb_spec (List.length arr) per_page) as [Hshort|Hfull].
      * exists 1%nat. cbn [fst snd app].
        rewrite pagesItems_next, Ea. cbn.
        rewrite app_nil_r, Z.add_0_r.
        refine (conj _ (conj _ (conj _ (conj _ (conj _ _))))); auto.
        -- lia.
        -- intros; lia.
        -- intros j Hj. assert (j = 0%nat) by lia. subst j.
           rewrite Z.add_0_r, Ea. reflexivity.
        -- right. exists 0%nat. rewrite Z.add_0_r, Ea. split; [reflexivity|].
           cbn. apply Nat.leb_gt. exact Hshort.
      * specialize (IH (page + 1) (out ++ arr)%list). cbv zeta in IH.
        destruct (fetchPages w after k (page + 1) (out ++ arr)) as [t res].
        destruct IH as (n & Hn & Ht & Hfulls & Hres).
        cbn [fst snd] in *. exists (S n).
        refine (conj _ (conj _ (conj _ _))).
        -- lia.
        -- rewrite pageRequests_next, Ht. reflexivity.
        -- intros [|j] Hj.
           ++ rewrite Z.add_0_r, Ea. cbn. apply Nat.leb_le. exact Hfull.
           ++ replace (page + Z.of_nat (S j)) with (page + 1 + Z.of_nat j)
                by lia.
              apply Hfulls. lia.
        -- destruct res as [e|res].
           ++ destruct Hres as (m & -> & Hm). exists (S m). split; auto.
              replace (page + Z.of_nat (S m)) with (page + 1 + Z.of_nat m)
                by lia.
              exact Hm.
           ++ destruct Hres as (-> & Hok & Hstop).
              rewrite pagesItems_next, Ea. cbn [pageItems].
              rewrite app_assoc. refine (conj eq_refl (conj _ _)).
              ** intros [|j] Hj.
                 --- rewrite Z.add_0_r, Ea. reflexivity.
                 --- replace (page + Z.of_nat (S j))
                       with (page + 1 + Z.of_nat j) by lia.
                     apply Hok. lia.
              ** destruct Hstop as [->|(m & -> & Hm)]; [left; reflexivity|].
                 right. exists (S m). split; auto.
                 replace (page + Z.of_nat (S m)) with (page + 1 + Z.of_nat m)
                   by lia.
                 exact Hm.
    + exists 1%nat. cbn [fst snd app].
      refine (conj _ (conj _ (conj _ _))).
      * lia.
      * cbn. rewrite Z.add_0_r. reflexivity.
      * intros; lia.
      * exists 0%nat. rewrite Z.add_0_r, Ea. auto.
    + exists 1%nat. cbn [fst snd app].
      refine (conj _ (conj _ (conj _ _))).
      * lia.
      * cbn. rewrite Z.add_0_r. reflexivity.
      * intros; lia.
      * exists 0%nat. rewrite Z.add_0_r, Ea. auto.
Qed.

End PageFacts.

Section PageTheorems.

Local Open Scope Z_scope.

(** X5 ([fetchActivities]).  The activity list is fetched as pages 1, 2,
    ..., n for some n between 1 and 20, all with the same [after]
    parameter, which is present exactly when the watermark is positive.
    Every page before the last one asked for holds at least 200 activities.
    When the last answer is an error or not an array the fetch throws it;
    otherwise the result is the pages' activities in order, and the fetch
    stopped on a page of fewer than 200 activities or after 20 pages. *)
Theorem X5_activity_pages_are_consecutive :
  forall (w : World) (afterEpoch : Z),
    let after := afterParam afterEpoch in
    let r := fetchActivities w afterEpoch in
    exists n : nat,
      (1 <= n <= maxPages)%nat
      /\ fst r = pageRequests after 1 n
      /\ (forall j, (S j < n)%nat ->
            fullPage (activitiesEndpoint w (1 + Z.of_nat j) after) = true)
      /\ match snd r with
         | inl e =>
             pageError (activitiesEndpoint w (Z.of_nat n) after) = Some e
         | inr fresh =>
             fresh = pagesItems w after 1 n
             /\ (forall j, (j < n)%nat ->
                   pageError (activitiesEndpoint w (1 + Z.of_nat j) after)
                   = None)
             /\ (n = maxPages
                 \/ fullPage (activitiesEndpoint w (Z.of_nat n) after) = false)
         end.
Proof.
  intros w afterEpoch after r.
  destruct (fetchPages_shape w after maxPages 1 [])
    as (n & Hn & Ht & Hfull & Hres).
  change (fetchPages w after maxPages 1 []) with r in *.
  exists n. destruct (snd r) as [e|fresh].
  - destruct Hres as (m & -> & Hm).
    refine (conj (conj _ Hn) (conj Ht (conj Hfull _))); [lia|].
    replace (Z.of_nat (S m)) with (1 + Z.of_nat m) by lia. exact Hm.
  - destruct Hres as (-> & Hok & Hstop). cbn [app].
    assert (1 <= n)%nat.
    { destruct Hstop as [->|(m & -> & _)]; [unfold maxPages|]; lia. }
    refine (conj (conj _ Hn) (conj Ht (conj Hfull (conj eq_refl (conj Hok _)))));
      [assumption|].
    destruct Hstop as [->|(m & -> & Hm)]; [left; reflexivity|right].
    replace (Z.of_nat (S m)) with (1 + Z.of_nat m) by lia. exact Hm.
Qed.

End PageTheorems.

(** * The credential check *)

Section CredentialFacts.

Local Open Scope Z_scope.

Lemma bind_trace {A B : Type} (m : M A) (k : A -> M B) :
  exists t, fst (bind m k) = (fst m ++ t)%list.
Proof.
  destruct m as [t [e|x]]; cbn [bind fst].
  - exists []. rewrite app_nil_r. reflexivity.
  - destruct (k x) as [t' r]. exists t'. reflexivity.
Qed.

Lemma main_trace (H : Host) (w : World) :
  exists t, fst (main H w) = (fst (stravaRefreshAccessToken w) ++ t)%list.
Proof.
  unfold main, run.
  match goal with
  | |- context [bind ?m ?k] => destruct (bind_trace m k) as [t Ht];
                               destruct (bind m k) as [t0 [e|s]]
  end; cbn [fst] in *; rewrite Ht.
  - exists (t ++ [ConsoleError e])%list. rewrite app_assoc. reflexivity.
  - exists t. reflexivity.
Qed.

Lemma refresh_missing (w : World) (name : string) :
  firstMissingEnv w = Some name ->
  stravaRefreshAccessToken w = ([], inl (MissingEnvVar name)).
Proof.
  unfold firstMissingEnv, stravaRefreshAccessToken.
  destruct (STRAVA_CLIENT_ID w) as [[|c1 r1]|]; cbn;
    try (intros [= <-]; reflexivity).
  destruct (STRAVA_CLIENT_SECRET w) as [[|c2 r2]|]; cbn;
    try (intros [= <-]; reflexivity).
  destruct (STRAVA_REFRESH_TOKEN w) as [[|c3 r3]|]; cbn;
    try (intros [= <-]; reflexivity).
Qed.

Lemma refresh_asks (w : World) :
  firstMissingEnv w = None ->
  fst (stravaRefreshAccessToken w) = [TokenRequest].
Proof.
  unfold firstMissingEnv, stravaRefreshAccessToken.
  destruct (STRAVA_CLIENT_ID w) as [[|c1 r1]|]; cbn; try discriminate.
  destruct (STRAVA_CLIENT_SECRET w) as [[|c2 r2]|]; cbn; try discriminate.
  destruct (STRAVA_REFRESH_TOKEN w) as [[|c3 r3]|]; cbn; try discriminate.
  intros _. destruct (tokenEndpoint w) as [json|status text]; cbn;
    [|reflexivity].
  destruct (access_token json) as [[|c r]|]; reflexivity.
Qed.

End CredentialFacts.

Section CredentialTheorems.

Local Open Scope Z_scope.

Variable H : Host.

(** X6 ([mustGetEnv], [stravaRefreshAccessToken], [main]).  When one of the
    three credential variables is absent or empty the run makes no request
    at all: it prints that the first such variable (in the order client
    identifier, client secret, refresh token) is missing and exits with
    status 1.  With the three variables set, the token request is the first
    event of the run. *)
Theorem X6_missing_credential_stops_before_any_request :
  forall w : World,
    match firstMissingEnv w with
    | Some name => main H w = ([ConsoleError (MissingEnvVar name)], 1)
    | None => exists t, fst (main H w) = TokenRequest :: t
    end.
Proof.
  intro w. destruct (firstMissingEnv w) as [name|] eqn:Hm.
  - unfold main, run. rewrite (refresh_missing w name Hm). reflexivity.
  - destruct (main_trace H w) as [t Ht]. rewrite (refresh_asks w Hm) in Ht.
    exists t. exact Ht.
Qed.

End CredentialTheorems.

(** * The detail back-fill *)

Section BackfillFacts.

Local Open Scope Z_scope.

Variable w : World.
Variable detailMax : Z.
Variable freshIds : list Z.

(** The four ways through one turn of the loop. *)
Lemma backfill_turn (n : Z) (a : Activity.t) (l : list Activity.t) :
  n < detailMax ->
  exists a' n' t,
    backfill w detailMax freshIds n (a :: l)
    = (let '(t0, (r', k)) := backfill w detailMax freshIds n' l in
       ((t ++ t0)%list, (a' :: r', k)))
    /\ n <= n'
    /\ ((eligible freshIds a = false /\ a' = a /\ n' = n /\ t = [])
        \/ (needsLookup freshIds a = false /\ eligible freshIds a = true
            /\ a' = Activity.markAttempted a /\ n' = n /\ t = [])
        \/ (needsLookup freshIds a = true /\ t = [lookupOf a]
            /\ ((detailEndpoint w (idOf a) = None
                 /\ a' = Activity.markAttempted a /\ n' = n)
                \/ exists d, detailEndpoint w (idOf a) = Some d
                     /\ a' = Activity.markAttempted (minimizeActivity d)
                     /\ n' = n + 1))).
Proof.
  intro Hn. cbn [backfill].
  destruct (Z.geb_spec n detailMax) as [Hge|_]; [lia|].
  unfold needsLookup, eligible, lookupOf, idOf, truthyZ.
  destruct (Activity.id a) as [i|].
  2:{ exists a, n, []. split; [|split; [lia|left; auto]].
      destruct (backfill w detailMax freshIds n l) as [t0 [r' k]].
      reflexivity. }
  destruct (i =? 0).
  { exists a, n, []. split; [|split; [lia|left; auto]].
    destruct (backfill w detailMax freshIds n l) as [t0 [r' k]].
    reflexivity. }
  destruct (existsb (Z.eqb i) freshIds); cbn [negb andb].
  2:{ exists a, n, []. split; [|split; [lia|left; auto]].
      destruct (backfill w detailMax freshIds n l) as [t0 [r' k]].
      reflexivity. }
  destruct (Activity.detail_attempted a); cbn [negb andb].
  { exists a, n, []. split; [|split; [lia|left; auto]].
    destruct (backfill w detailMax freshIds n l) as [t0 [r' k]].
    reflexivity. }
  destruct (hasEnergy a); cbn [negb].
  { exists (Activity.markAttempted a), n, [].
    split; [|split; [lia|right; left; auto]].
    destruct (backfill w detailMax freshIds n l) as [t0 [r' k]].
    reflexivity. }
  destruct (detailEndpoint w i) as [d|] eqn:Ed.
  - exists (Activity.markAttempted (minimizeActivity d)), (n + 1),
      [DetailRequest i].
    split; [|split; [lia|right; right; split; [reflexivity|split;
      [reflexivity|right; exists d; auto]]]].
    destruct (backfill w detailMax freshIds (n + 1) l) as [t0 [r' k]].
    reflexivity.
  - exists (Activity.markAttempted a), n, [DetailRequest i].
    split; [|split; [lia|right; right; split; [reflexivity|split;
      [reflexivity|left; auto]]]].
    destruct (backfill w detailMax freshIds n l) as [t0 [r' k]].
    reflexivity.
Qed.

Lemma backfill_stops (n : Z) (l : list Activity.t) :
  detailMax <= n -> backfill w detailMax freshIds n l = ([], (l, n)).
Proof.
  intro Hn. destruct l as [|a l]; [reflexivity|]. cbn [backfill].
  destruct (Z.geb_spec n detailMax) as [_|Hlt]; [reflexivity|lia].
Qed.

Lemma backfilled_all_same (l : list Activity.t) :
  Forall2 (backfilled w freshIds) l l.
Proof. induction l; constructor; auto. left. reflexivity. Qed.

(** Position by position, the loop leaves a record as it is, or marks an
    eligible record, or replaces it by the marked answer to its look-up. *)
Lemma backfill_shape (l : list Activity.t) :
  forall n,
    Forall2 (backfilled w freshIds) l
      (fst (snd (backfill w detailMax freshIds n l))).
Proof.
  induction l as [|a l IH]; intro n; [constructor|].
  destruct (Z.lt_ge_cases n detailMax) as [Hlt|Hge].
  2:{ rewrite backfill_stops by lia. apply backfilled_all_same. }
  destruct (backfill_turn n a l Hlt) as (a' & n' & t & -> & _ & Hcase).
  specialize (IH n').
  destruct (backfill w detailMax freshIds n' l) as [t0 [r' k]].
  cbn [fst snd] in *. constructor; [|exact IH].
  unfold backfilled.
  destruct Hcase as [(He & -> & _)|[(Hn & He & -> & _)|(Hn & _ & Hlook)]].
  - left. reflexivity.
  - right. split; auto.
  - unfold needsLookup in Hn. apply andb_prop in Hn as [He Hen].
    apply negb_true_iff in Hen. right. split; [exact He|].
    destruct Hlook as [(_ & -> & _)|(d & Hd & -> & _)]; [left; reflexivity|].
    right. split; [exact Hen|]. exists d. auto.
Qed.

(** The look-ups are those of the first [j] records that need one, in the
    order of the list; the loop passes over all of them unless the counter
    reaches the maximum. *)
Lemma backfill_requests (l : list Activity.t) :
  forall n,
    let r := backfill w detailMax freshIds n l in
    exists j : nat,
      fst r = map lookupOf (firstn j (filter (needsLookup freshIds) l))
      /\ (j = List.length (filter (needsLookup freshIds) l)
          \/ detailMax <= snd (snd r)).
Proof.
  induction l as [|a l IH]; intro n; cbv zeta.
  - exists 0%nat. split; [reflexivity|left; reflexivity].
  - destruct (Z.lt_ge_cases n detailMax) as [Hlt|Hge].
    2:{ rewrite backfill_stops by lia. exists 0%nat.
        split; [reflexivity|right; cbn; lia]. }
    destruct (backfill_turn n a l Hlt) as (a' & n' & t & -> & _ & Hcase).
    specialize (IH n'). cbv zeta in IH.
    destruct (backfill w detailMax freshIds n' l) as [t0 [r' k]].
    destruct IH as (j & Ht0 & Hj). cbn [fst snd] in *.
    cbn [filter].
    destruct Hcase as [(He & _ & _ & ->)|[(Hn & _ & _ & _ & ->)|(Hn & -> & _)]].
    + assert (Hn : needsLookup freshIds a = false)
        by (unfold needsLookup; rewrite He; reflexivity).
      rewrite Hn. cbn [app]. exists j. auto.
    + rewrite Hn. cbn [app]. exists j. auto.
    + rewrite Hn. exists (S j). cbn [firstn map length app].
      rewrite Ht0. split; [reflexivity|].
      destruct Hj as [->|Hk]; [left; reflexivity|right; exact Hk].
Qed.

(** When the counter stays below the maximum, the loop has passed over the
    whole list and every eligible record is marked. *)
Lemma backfill_complete (l : list Activity.t) :
  forall n,
    snd (snd (backfill w detailMax freshIds n l)) < detailMax ->
    Forall2 (fun a a' => eligible freshIds a = true ->
                         Activity.detail_attempted a' = true)
      l (fst (snd (backfill w detailMax freshIds n l))).
Proof.
  induction l as [|a l IH]; intros n Hend; [constructor|].
  destruct (Z.lt_ge_cases n detailMax) as [Hlt|Hge].
  2:{ rewrite backfill_stops in Hend by lia. cbn in Hend. lia. }
  destruct (backfill_turn n a l Hlt) as (a' & n' & t & E & _ & Hcase).
  rewrite E in *. clear E. specialize (IH n').
  destruct (backfill w detailMax freshIds n' l) as [t0 [r' k]].
  cbn [fst snd] in *. constructor; [|exact (IH Hend)].
  destruct Hcase as [(He & _)|[(_ & _ & -> & _)|(_ & _ & Hlook)]].
  - congruence.
  - reflexivity.
  - destruct Hlook as [(_ & -> & _)|(d & _ & -> & _)]; reflexivity.
Qed.

End BackfillFacts.

Section BackfillMore.

Local Open Scope Z_scope.

Lemma detailBackfill_requests (w : World) (freshIds : list Z)
  (merged : list Activity.t) :
  let r := detailBackfill w freshIds merged in
  let needy := filter (needsLookup freshIds) merged in
  exists j : nat,
    fst r = map lookupOf (firstn j needy)
    /\ (j = List.length needy \/ detailMaxOr0 w <= snd (snd r)).
Proof.
  intros r needy. subst r. unfold detailBackfill, detailMaxOr0.
  destruct (detailMaxOf w) as [dm|].
  - destruct (Z.ltb_spec 0 dm) as [Hpos|Hnon].
    + apply backfill_requests.
    + exists 0%nat. split; [reflexivity|right; cbn; lia].
  - exists 0%nat. split; [reflexivity|right; cbn; lia].
Qed.

Lemma detailBackfill_shape (w : World) (freshIds : list Z)
  (merged : list Activity.t) :
  Forall2 (backfilled w freshIds) merged
    (fst (snd (detailBackfill w freshIds merged))).
Proof.
  unfold detailBackfill.
  destruct (detailMaxOf w) as [dm|]; [|apply backfilled_all_same].
  destruct (0 <? dm); [apply backfill_shape|apply backfilled_all_same].
Qed.

Lemma detailBackfill_length (w : World) (freshIds : list Z)
  (merged : list Activity.t) :
  List.length (fst (snd (detailBackfill w freshIds merged)))
  = List.length merged.
Proof.
  symmetry. exact (Forall2_length (detailBackfill_shape w freshIds merged)).
Qed.

End BackfillMore.

Section BackfillTheorems.

Local Open Scope Z_scope.

(** X7 (detail back-fill of [main]).  The back-fill keeps the length and
    the order of the merged list.  A record that is not eligible (no
    identifier, not fetched in this run, or already marked) is left exactly
    as it is; an eligible record is left as it is, or marked as attempted
    with its data unchanged, or replaced by the marked answer to its own
    look-up. *)
Theorem X7_backfill_changes_only_eligible_records :
  forall (w : World) (freshIds : list Z) (merged : list Activity.t),
    let out := fst (snd (detailBackfill w freshIds merged)) in
    Forall2 (backfilled w freshIds) merged out
    /\ List.length out = List.length merged
    /\ Forall2 (fun a a' => eligible freshIds a = false -> a' = a) merged out.
Proof.
  intros w freshIds merged out.
  pose proof (detailBackfill_shape w freshIds merged) as Hshape.
  fold out in Hshape. split; [exact Hshape|]. split.
  - symmetry. exact (Forall2_length Hshape).
  - eapply Forall2_impl; [|exact Hshape].
    intros a a' [->|[He _]] Hno; [reflexivity|congruence].
Qed.

(** X8 (detail back-fill of [main]).  The detail look-ups of a run are
    those of the first records, in the order of the merged list, that are
    eligible and carry neither calories nor kilojoules; none of them is
    skipped, and the look-ups stop before the end of the list only when
    the counter of answered look-ups has reached the maximum. *)
Theorem X8_lookups_follow_the_merged_order :
  forall (w : World) (freshIds : list Z) (merged : list Activity.t),
    let r := detailBackfill w freshIds merged in
    let needy := filter (needsLookup freshIds) merged in
    exists j : nat,
      fst r = map lookupOf (firstn j needy)
      /\ (j = List.length needy \/ detailMaxOr0 w <= snd (snd r)).
Proof.
  intros w freshIds merged. apply detailBackfill_requests.
Qed.

(** X9 (detail back-fill of [main]).  When the counter of answered
    look-ups ends below the maximum, every eligible record is marked as
    attempted and every eligible record without energy figure has been
    looked up, once, in the order of the merged list. *)
Theorem X9_below_the_maximum_every_fresh_record_is_marked :
  forall (w : World) (freshIds : list Z) (merged : list Activity.t),
    let r := detailBackfill w freshIds merged in
    snd (snd r) < detailMaxOr0 w ->
    Forall2 (fun a a' => eligible freshIds a = true ->
                         Activity.detail_attempted a' = true)
      merged (fst (snd r))
    /\ fst r = map lookupOf (filter (needsLookup freshIds) merged).
Proof.
  intros w freshIds merged r. subst r. unfold detailBackfill, detailMaxOr0.
  destruct (detailMaxOf w) as [dm|]; [|cbn; lia].
  destruct (Z.ltb_spec 0 dm) as [Hpos|Hnon]; [|cbn; lia].
  intro Hend. split; [apply backfill_complete; exact Hend|].
  destruct (backfill_requests w dm freshIds merged 0) as (j & Ht & [->|Hj]).
  - rewrite Ht, firstn_all. reflexivity.
  - lia.
Qed.

Lemma X9_witness :
  let r := detailBackfill Scenario.firstWorld [101]
             [minimizeActivity Scenario.morningRun] in
  Forall2 (fun a a' => eligible [101] a = true ->
                       Activity.detail_attempted a' = true)
    [minimizeActivity Scenario.morningRun] (fst (snd r))
  /\ fst r = [DetailRequest 101].
Proof.
  apply (X9_below_the_maximum_every_fresh_record_is_marked
           Scenario.firstWorld [101] [minimizeActivity Scenario.morningRun]).
  reflexivity.
Defined.

End BackfillTheorems.

(** * A run that succeeds *)

Section SuccessFacts.

Local Open Scope Z_scope.
Local Opaque per_page.

Variable H : Host.

(** The events and the printed summary of a run in which no step throws. *)
Lemma main_success (w : World) :
  fatalStep w = None ->
  exists tok athleteStats fresh t1 t2 t3,
    stravaRefreshAccessToken w = (t1, inr tok)
    /\ fetchAthleteStats w (snd tok) = (t2, inr athleteStats)
    /\ fetchActivities w (afterEpochOf w) = (t3, inr fresh)
    /\ let filled := detailBackfill w (freshIdsOf fresh)
                       (merge H (activitiesFile w) fresh) in
       let merged := fst (snd filled) in
       let next := nextAfterEpochOf H merged (afterEpochFromStateOf w) in
       main H w
       = ((t1 ++ t2 ++ t3 ++ fst filled
           ++ [WriteActivities merged; WriteState next;
               WriteStats (Stats.computeSportsStats H (baselineFile w)
                             merged athleteStats);
               ConsoleLog
                 {| fetched := List.length fresh;
                    cached_before := List.length (activitiesFile w);
                    cached_after := List.length merged;
                    s_detailFetched := snd (snd filled);
                    s_athleteId := snd tok;
                    hasAthleteStats :=
                      match athleteStats with
                      | Some _ => true
                      | None => false
                      end;
                    s_nextAfterEpoch := next |}])%list, 0).
Proof.
  unfold main, run, fatalStep.
  destruct (stravaRefreshAccessToken w) as [t1 [e|tok]] eqn:E1; simpl in *;
    [discriminate|].
  destruct (fetchAthleteStats w (snd tok)) as [t2 [e|athleteStats]] eqn:E2;
    simpl in *; [discriminate|].
  destruct (fetchActivities w (afterEpochOf w)) as [t3 [e|fresh]] eqn:E3;
    simpl in *; [discriminate|].
  intros _. exists tok, athleteStats, fresh, t1, t2, t3.
  repeat (split; [assumption || reflexivity|]).
  destruct (detailBackfill w (freshIdsOf fresh)
              (merge H (activitiesFile w) fresh)) as [t4 [merged n]].
  simpl. rewrite <- ?app_assoc. reflexivity.
Qed.

Lemma exit_zero (w : World) : snd (main H w) = 0 -> fatalStep w = None.
Proof.
  intro Hz. destruct (main_cases H w) as (t & _ & Hcase).
  destruct (fatalStep w) as [e|]; [|reflexivity].
  rewrite Hcase in Hz. discriminate Hz.
Qed.

Lemma nextAfterEpochOf_nonneg (merged : list Activity.t) (state : Z) :
  0 <= state -> 0 <= nextAfterEpochOf H merged state.
Proof.
  intro Hs. unfold nextAfterEpochOf.
  destruct (newestEpochOf H merged) as [e|]; [|exact Hs].
  destruct (0 <? e); [lia|exact Hs].
Qed.

End SuccessFacts.

(** * More on the merge *)

Section MergeMore.

Local Open Scope Z_scope.

Variable H : Host.

Lemma lastFresh_some (k : option Z) (fresh : list Raw.t) (r : Raw.t) :
  lastFresh k fresh = Some r -> In r fresh /\ Raw.id r = k.
Proof.
  unfold lastFresh. intro Hf. apply find_some in Hf as [Hin Hk].
  apply in_rev in Hin. apply keyEqb_eq in Hk. auto.
Qed.

Lemma lastFresh_none (k : option Z) (fresh : list Raw.t) :
  ~ In k (map Raw.id fresh) -> lastFresh k fresh = None.
Proof.
  intro Hk. destruct (lastFresh k fresh) as [r|] eqn:Hf; [|reflexivity].
  apply lastFresh_some in Hf as [Hin <-]. exfalso. apply Hk.
  apply in_map. exact Hin.
Qed.

Lemma lastWithId_exists (k : option Z) (l : list Activity.t) :
  In k (map Activity.id l) -> exists a, lastWithId k l = Some a.
Proof.
  intro Hk. unfold lastWithId.
  destruct (find (fun a => keyEqb k (Activity.id a)) (rev l)) as [a|] eqn:Hf;
    [exists a; reflexivity|].
  exfalso. apply in_map_iff in Hk as (a & <- & Hin).
  apply in_rev in Hin. pose proof (find_none _ _ Hf a Hin) as Hno.
  cbv beta in Hno. rewrite keyEqb_refl in Hno. discriminate Hno.
Qed.

Lemma ids_injective (l : list Activity.t) (a b : Activity.t) :
  NoDup (map Activity.id l) -> In a l -> In b l ->
  Activity.id a = Activity.id b -> a = b.
Proof.
  induction l as [|x l IH]; intros Hnd Ha Hb Hab; [contradiction|].
  cbn [map] in Hnd. inversion Hnd as [|? ? Hx Hl]; subst.
  destruct Ha as [->|Ha], Hb as [->|Hb]; auto.
  - exfalso. apply Hx. rewrite Hab. apply in_map. exact Hb.
  - exfalso. apply Hx. rewrite <- Hab. apply in_map. exact Ha.
Qed.

Lemma hasId_truthy (a : Activity.t) :
  hasId a = true <-> truthyZ (Activity.id a) <> None.
Proof.
  unfold hasId. destruct (truthyZ (Activity.id a)); split; congruence.
Qed.

(** A cached record that is the last one with its identifier, and whose
    identifier no fetched activity carries, is in the merged list. *)
Lemma merge_keeps (cached : list Activity.t) (fresh : list Raw.t)
  (a : Activity.t) :
  hasId a = true -> lastWithId (Activity.id a) cached = Some a ->
  ~ In (Activity.id a) (map Raw.id fresh) ->
  In a (merge H cached fresh).
Proof.
  intros Hid Hlast Hnew. apply in_merge. split; [exact Hid|].
  rewrite mergeMap_get, (lastFresh_none _ _ Hnew). exact Hlast.
Qed.

Lemma merge_ids_from_inputs (cached : list Activity.t) (fresh : list Raw.t)
  (a : Activity.t) :
  In a (merge H cached fresh) ->
  In (Activity.id a) (map Activity.id cached ++ map Raw.id fresh).
Proof.
  intro Ha. apply in_or_app. pose proof (merge_override H cached fresh a Ha) as Ho.
  destruct (lastFresh (Activity.id a) fresh) as [r|] eqn:Hf.
  - right. apply lastFresh_some in Hf as [Hin <-]. apply in_map. exact Hin.
  - left. apply in_map. exact Ho.
Qed.

Lemma merge_length (cached : list Activity.t) (fresh : list Raw.t) :
  (List.length (merge H cached fresh)
   <= List.length cached + List.length fresh)%nat.
Proof.
  rewrite <- (length_map Activity.id (merge H cached fresh)).
  rewrite <- (length_map Activity.id cached), <- (length_map Raw.id fresh).
  rewrite <- length_app. apply NoDup_incl_length; [apply merge_NoDup|].
  intros k Hk. apply in_map_iff in Hk as (a & <- & Ha).
  exact (merge_ids_from_inputs cached fresh a Ha).
Qed.

End MergeMore.

Section MergeMoreTheorems.

Local Open Scope Z_scope.

Variable H : Host.

(** X11 (merge of [main]).  The identifiers of the merged list are exactly
    the non-zero identifiers of the cache read and of the activities
    fetched: the merge neither drops nor invents one.  The merged list is
    at most as long as the two inputs together. *)
Theorem X11_merge_keeps_every_identifier :
  forall (cached : list Activity.t) (fresh : list Raw.t),
    let merged := merge H cached fresh in
    (forall k, truthyZ k <> None ->
       (In k (map Activity.id merged)
        <-> In k (map Activity.id cached) \/ In k (map Raw.id fresh)))
    /\ (List.length merged <= List.length cached + List.length fresh)%nat.
Proof.
  intros cached fresh merged. split; [|apply merge_length].
  intros k Hk. split.
  - intro Hin. apply in_map_iff in Hin as (a & <- & Ha).
    apply in_app_or. exact (merge_ids_from_inputs H cached fresh a Ha).
  - intro Hin.
    destruct (in_dec key_dec k (map Raw.id fresh)) as [Hf|Hf].
    + destruct (lastFresh_exists k fresh Hf) as [r Hr].
      pose proof (merge_present H cached fresh k r Hk Hr) as Hp.
      apply lastFresh_some in Hr as [_ <-].
      apply in_map_iff. exists (minimizeActivity r). auto.
    + destruct Hin as [Hc|Hc]; [|contradiction].
      destruct (lastWithId_exists k cached Hc) as [a Ha].
      pose proof (lastWithId_some k cached a Ha) as [_ Hida].
      apply in_map_iff. exists a. split; [exact Hida|].
      subst k. apply merge_keeps; auto. apply hasId_truthy. exact Hk.
Qed.

(** X12 (merge of [main]).  In a cache without repeated identifiers, a
    record that carries an identifier and is not among the activities
    fetched is kept by the merge exactly as it is. *)
Theorem X12_merge_keeps_untouched_records :
  forall (cached : list Activity.t) (fresh : list Raw.t) (a : Activity.t),
    NoDup (map Activity.id cached) ->
    In a cached -> hasId a = true ->
    ~ In (Activity.id a) (map Raw.id fresh) ->
    In a (merge H cached fresh).
Proof.
  intros cached fresh a Hnd Ha Hid Hnew. apply merge_keeps; auto.
  destruct (lastWithId_exists (Activity.id a) cached (in_map _ _ _ Ha))
    as [b Hb].
  pose proof (lastWithId_some _ _ _ Hb) as [Hin Hidb].
  rewrite Hb. f_equal. apply (ids_injective cached); auto.
Qed.

End MergeMoreTheorems.

Section MergeMoreExamples.

Local Open Scope Z_scope.

Lemma X11_witness :
  In (Some 101)
    (map Activity.id
       (merge Example.utcHost [minimizeActivity Scenario.morningRun]
          [Scenario.noonRun]))
  /\ In (Some 102)
       (map Activity.id
          (merge Example.utcHost [minimizeActivity Scenario.morningRun]
             [Scenario.noonRun])).
Proof.
  split;
    apply (X11_merge_keeps_every_identifier Example.utcHost
             [minimizeActivity Scenario.morningRun] [Scenario.noonRun]);
    cbn; try discriminate; auto.
Defined.

Lemma X12_witness :
  In (minimizeActivity Scenario.morningRun)
    (merge Example.utcHost [minimizeActivity Scenario.morningRun]
       [Scenario.noonRun]).
Proof.
  apply X12_merge_keeps_untouched_records.
  - repeat constructor. intros [].
  - left. reflexivity.
  - reflexivity.
  - cbn. intros [Heq|[]]. discriminate Heq.
Defined.

End MergeMoreExamples.

Section SuccessTheorems.

Local Open Scope Z_scope.

Variable H : Host.

(** X10 ([main]).  A run that exits with status 0 ends with four events:
    the cache, the watermark computed from that very cache and the stored
    watermark, the statistics computed from that very cache and the
    baseline file, and the summary line.  Everything before them is a
    request.  The summary reports the length of the written cache, which is
    at most the length of the cache read plus the number of activities
    fetched, the written watermark, and the number of answered look-ups;
    the written watermark is not negative when the stored one is not. *)
Theorem X10_written_documents_agree :
  forall w : World,
    snd (main H w) = 0 ->
    exists requests merged athleteStats summary,
      let next := nextAfterEpochOf H merged (afterEpochFromStateOf w) in
      fst (main H w)
      = (requests
         ++ [WriteActivities merged; WriteState next;
             WriteStats (Stats.computeSportsStats H (baselineFile w) merged
                           athleteStats);
             ConsoleLog summary])%list
      /\ Forall (fun ev => isFetch ev = true \/ isDetailRequest ev = true)
           requests
      /\ cached_after summary = List.length merged
      /\ cached_before summary = List.length (activitiesFile w)
      /\ (cached_after summary <= cached_before summary + fetched summary)%nat
      /\ s_nextAfterEpoch summary = next
      /\ s_detailFetched summary = Z.of_nat (answeredDetails w requests)
      /\ (0 <= afterEpochFromStateOf w -> 0 <= next).
Proof.
  intros w Hexit. apply exit_zero in Hexit.
  destruct (main_success H w Hexit)
    as (tok & athleteStats & fresh & t1 & t2 & t3 & E1 & E2 & E3 & Hmain).
  cbv zeta in Hmain.
  set (filled := detailBackfill w (freshIdsOf fresh)
                   (merge H (activitiesFile w) fresh)) in *.
  assert (F1 : Forall (fun ev => isFetch ev = true) t1).
  { replace t1 with (fst (stravaRefreshAccessToken w)) by (rewrite E1; auto).
    now apply refresh_events. }
  assert (F2 : Forall (fun ev => isFetch ev = true) t2).
  { replace t2 with (fst (fetchAthleteStats w (snd tok)))
      by (rewrite E2; auto).
    now apply stats_events. }
  assert (F3 : Forall (fun ev => isFetch ev = true) t3).
  { replace t3 with (fst (fetchActivities w (afterEpochOf w)))
      by (rewrite E3; auto).
    now apply activities_events. }
  assert (F4 : Forall (fun ev => isDetailRequest ev = true) (fst filled)).
  { subst filled. now apply detailBackfill_events. }
  exists (t1 ++ t2 ++ t3 ++ fst filled)%list, (fst (snd filled)),
    athleteStats.
  eexists. cbv zeta. split.
  { rewrite Hmain. cbn [fst]. rewrite <- !app_assoc. reflexivity. }
  cbn [cached_after cached_before fetched s_nextAfterEpoch s_detailFetched].
  split.
  { rewrite !Forall_app. repeat split;
      (eapply Forall_impl; [|eassumption]); cbv beta; auto. }
  split; [reflexivity|]. split; [reflexivity|]. split.
  { subst filled. rewrite detailBackfill_length. apply merge_length. }
  split; [reflexivity|]. split.
  { rewrite !answered_app.
    destruct (fetch_no_detail w t1 F1) as [-> _].
    destruct (fetch_no_detail w t2 F2) as [-> _].
    destruct (fetch_no_detail w t3 F3) as [-> _].
    cbn [Nat.add].
    destruct (detailBackfill_budget w (freshIdsOf fresh)
                (merge H (activitiesFile w) fresh)) as [Hc _].
    exact Hc. }
  apply nextAfterEpochOf_nonneg.
Qed.

End SuccessTheorems.

Section SuccessExamples.

Local Open Scope Z_scope.

Lemma X10_witness :
  exists requests merged athleteStats summary,
    fst (main Example.utcHost Scenario.firstWorld)
    = (requests
       ++ [WriteActivities merged;
           WriteState (nextAfterEpochOf Example.utcHost merged 0);
           WriteStats
             (Stats.computeSportsStats Example.utcHost
                (baselineFile Scenario.firstWorld) merged athleteStats);
           ConsoleLog summary])%list
    /\ cached_after summary = List.length merged.
Proof.
  destruct (X10_written_documents_agree Example.utcHost Scenario.firstWorld)
    as (requests & merged & athleteStats & summary & Ht & _ & Hlen & _).
  - vm_compute. reflexivity.
  - exists requests, merged, athleteStats, summary. split; [exact Ht|exact Hlen].
Defined.

End SuccessExamples.

(** * Which look-ups a run makes *)

Section LookupFacts.

Local Open Scope Z_scope.

Lemma lookupIds_app (t t' : list Event) :
  lookupIds (t ++ t') = (lookupIds t ++ lookupIds t')%list.
Proof. apply flat_map_app. Qed.

Lemma lookupIds_fetch (t : list Event) :
  Forall (fun ev => isFetch ev = true) t -> lookupIds t = [].
Proof.
  induction 1 as [|ev t Hev _ IH]; [reflexivity|].
  cbn [lookupIds flat_map]. fold (lookupIds t). rewrite IH.
  destruct ev; try discriminate Hev; reflexivity.
Qed.

Lemma lookupIds_lookups (l : list Activity.t) :
  lookupIds (map lookupOf l) = map idOf l.
Proof.
  induction l as [|a l IH]; [reflexivity|].
  cbn [map lookupIds flat_map lookupOf app]. fold (lookupIds (map lookupOf l)).
  rewrite IH. reflexivity.
Qed.

Lemma lookupIds_error (e : Error) : lookupIds [ConsoleError e] = [].
Proof. reflexivity. Qed.

Lemma lookupIds_writes (merged : list Activity.t) (next : Z)
  (stats : SportsStats) (summary : Summary) :
  lookupIds [WriteActivities merged; WriteState next; WriteStats stats;
             ConsoleLog summary] = [].
Proof. reflexivity. Qed.

Lemma eligible_id (freshIds : list Z) (a : Activity.t) :
  eligible freshIds a = true ->
  Activity.id a = Some (idOf a) /\ idOf a <> 0 /\ In (idOf a) freshIds.
Proof.
  unfold eligible, idOf, truthyZ. destruct (Activity.id a) as [i|];
    [|discriminate].
  destruct (Z.eqb_spec i 0) as [|Hi]; [discriminate|].
  intro He. apply andb_prop in He as [Hin _].
  apply existsb_exists in Hin as (x & Hx & Heq). apply Z.eqb_eq in Heq.
  subst x. auto.
Qed.

Lemma freshIds_fetched (fresh : list Raw.t) (i : Z) :
  In i (freshIdsOf fresh) -> In (Some i) (map Raw.id fresh).
Proof.
  unfold freshIdsOf. intro Hi. apply in_flat_map in Hi as (r & Hr & Hir).
  apply in_map_iff. exists r. split; [|exact Hr].
  unfold truthyZ in Hir. destruct (Raw.id r) as [z|]; [|contradiction].
  destruct (z =? 0); [contradiction|]. destruct Hir as [->|[]]. reflexivity.
Qed.

Lemma idOf_NoDup (l : list Activity.t) :
  NoDup (map Activity.id l) ->
  Forall (fun a => Activity.id a = Some (idOf a)) l ->
  NoDup (map idOf l).
Proof.
  induction l as [|a l IH]; intros Hnd Hall; [constructor|].
  cbn [map] in *. inversion Hnd as [|? ? Ha Hl]; subst.
  inversion Hall as [|? ? Hida Hrest]; subst.
  constructor; [|exact (IH Hl Hrest)].
  intro Hin. apply Ha. apply in_map_iff in Hin as (b & Hb & Hbin).
  rewrite Hida, <- Hb.
  rewrite Forall_forall in Hrest. rewrite <- (Hrest b Hbin).
  apply in_map. exact Hbin.
Qed.

Lemma firstn_ids_NoDup (j : nat) (l : list Activity.t) :
  NoDup (map Activity.id l) -> NoDup (map Activity.id (firstn j l)).
Proof.
  intro Hnd. rewrite <- (firstn_skipn j l), map_app in Hnd.
  exact (NoDup_app_remove_r _ _ Hnd).
Qed.

(** The identifiers looked up in the back-fill of a list without repeated
    identifiers are distinct, not zero, and among the fresh ones. *)
Lemma detailBackfill_lookups (w : World) (freshIds : list Z)
  (merged : list Activity.t) :
  NoDup (map Activity.id merged) ->
  let ids := lookupIds (fst (detailBackfill w freshIds merged)) in
  NoDup ids /\ forall i, In i ids -> i <> 0 /\ In i freshIds.
Proof.
  intros Hnd ids. subst ids.
  destruct (detailBackfill_requests w freshIds merged) as (j & -> & _).
  rewrite lookupIds_lookups.
  set (needy := filter (needsLookup freshIds) merged).
  assert (Hneedy : forall a, In a (firstn j needy) ->
                             eligible freshIds a = true).
  { intros a Ha.
    assert (Hin : In a needy)
      by (rewrite <- (firstn_skipn j needy); apply in_or_app; auto).
    apply filter_In in Hin as [_ Hn]. unfold needsLookup in Hn.
    apply andb_prop in Hn as [He _]. exact He. }
  split.
  - apply idOf_NoDup.
    + apply firstn_ids_NoDup, filter_ids_NoDup, Hnd.
    + apply Forall_forall. intros a Ha.
      exact (proj1 (eligible_id freshIds a (Hneedy a Ha))).
  - intros i Hi. apply in_map_iff in Hi as (a & <- & Ha).
    exact (proj2 (eligible_id freshIds a (Hneedy a Ha))).
Qed.

End LookupFacts.

Section LookupTheorems.

Local Open Scope Z_scope.

Variable H : Host.

(** X18 ([main], detail back-fill).  In every run the detail look-ups ask
    for pairwise different identifiers, none of them zero, and each of them
    is the identifier of an activity that the activity list returned in
    this very run: a record that only comes from the cache is never looked
    up. *)
Theorem X18_lookups_are_for_fetched_activities_once_each :
  forall w : World,
    let ids := lookupIds (fst (main H w)) in
    NoDup ids
    /\ forall i, In i ids ->
         i <> 0
         /\ exists fresh,
              snd (fetchActivities w (afterEpochOf w)) = inr fresh
              /\ In (Some i) (map Raw.id fresh).
Proof.
  intros w ids. subst ids.
  destruct (main_cases H w) as (t & Ht & Hcase).
  destruct (fatalStep w) as [e|].
  - rewrite Hcase. cbn [fst].
    rewrite lookupIds_app, (lookupIds_fetch t Ht), lookupIds_error.
    cbn [app]. split; [constructor|intros i []].
  - destruct Hcase as (tok & athleteStats & fresh & t1 & t2 & t3 & _ & _
                       & E3 & _ & Hmain).
    cbv zeta in Hmain. destruct Hmain as (summary & _ & ->). cbn [fst].
    rewrite !lookupIds_app, (lookupIds_fetch t Ht), lookupIds_writes.
    cbn [app]. rewrite app_nil_r.
    destruct (detailBackfill_lookups w (freshIdsOf fresh)
                (merge H (activitiesFile w) fresh) (merge_NoDup H _ _))
      as [Hnd Hin].
    split; [exact Hnd|]. intros i Hi. destruct (Hin i Hi) as [Hz Hf].
    split; [exact Hz|]. exists fresh. rewrite E3. split; [reflexivity|].
    apply freshIds_fetched, Hf.
Qed.

End LookupTheorems.

(** * What every request of a run looks like *)

Section TraceFacts.

Local Open Scope Z_scope.
Local Opaque per_page.

Variable H : Host.

(** A property of events that holds of every event a run can emit holds of
    every event of its trace. *)
Lemma main_events (P : Event -> Prop) (w : World) :
  P TokenRequest -> (forall i, P (StatsRequest i)) ->
  (forall page, P (ActivitiesRequest page (afterParam (afterEpochOf w)))) ->
  (forall i, P (DetailRequest i)) ->
  (forall ev, isFetch ev = false -> isDetailRequest ev = false -> P ev) ->
  Forall P (fst (main H w)).
Proof.
  intros Ptoken Pstats Ppages Pdetail Pother.
  assert (T1 : Forall P (fst (stravaRefreshAccessToken w)))
    by now apply refresh_events.
  unfold main, run.
  destruct (stravaRefreshAccessToken w) as [t1 [e|tok]] eqn:E1; simpl in *.
  { rewrite Forall_app. split; [exact T1|]. repeat constructor.
    now apply Pother. }
  assert (T2 : Forall P (fst (fetchAthleteStats w (snd tok))))
    by now apply stats_events.
  destruct (fetchAthleteStats w (snd tok)) as [t2 [e|athleteStats]] eqn:E2;
    simpl in *.
  { rewrite !Forall_app. repeat split; auto;
      repeat constructor; now apply Pother. }
  assert (T3 : Forall P (fst (fetchActivities w (afterEpochOf w)))).
  { unfold fetchActivities. apply pages_events. exact Ppages. }
  destruct (fetchActivities w (afterEpochOf w)) as [t3 [e|fresh]] eqn:E3;
    simpl in *.
  { rewrite !Forall_app. repeat split; auto;
      repeat constructor; now apply Pother. }
  assert (T4 : Forall P (fst (detailBackfill w (freshIdsOf fresh)
                                (merge H (activitiesFile w) fresh))))
    by now apply detailBackfill_events.
  destruct (detailBackfill w (freshIdsOf fresh)
              (merge H (activitiesFile w) fresh)) as [t4 [merged n]].
  simpl in *. rewrite !Forall_app. repeat split; auto;
    repeat constructor; now apply Pother.
Qed.

Lemma same_list {A : Type} (l l' : list A) :
  Forall2 (fun a a' => a' = a) l l' -> l' = l.
Proof. induction 1; [reflexivity|]. subst. reflexivity. Qed.

(** Without fresh identifiers the back-fill does nothing. *)
Lemma detailBackfill_idle (w : World) (merged : list Activity.t) :
  detailBackfill w [] merged = ([], (merged, 0)).
Proof.
  pose proof (detailBackfill_shape w [] merged) as Hshape.
  destruct (detailBackfill_requests w [] merged) as (j & Ht & _).
  destruct (detailBackfill_budget w [] merged) as (Hn & _).
  destruct (detailBackfill w [] merged) as [t [out n]]. cbn [fst snd] in *.
  assert (Hneedy : filter (needsLookup []) merged = []).
  { apply filter_none. intros a _. unfold needsLookup, eligible.
    destruct (truthyZ (Activity.id a)); reflexivity. }
  rewrite Hneedy, firstn_nil in Ht. cbn [map] in Ht. subst t.
  assert (Hout : out = merged).
  { apply same_list. eapply Forall2_impl; [|exact Hshape].
    intros a a' [->|[He _]]; [reflexivity|].
    unfold eligible in He. destruct (truthyZ (Activity.id a)); discriminate. }
  rewrite Hn, Hout. reflexivity.
Qed.

End TraceFacts.

Section TraceTheorems.

Local Open Scope Z_scope.

Variable H : Host.

(** X21 ([main]).  A run in which no step throws and the activity list
    returns nothing makes no detail look-up and writes the merge of the
    cache with nothing; for a cache without repeated identifiers, whose
    records all carry an identifier and which is sorted as the merge sorts,
    this is the cache itself, record for record. *)
Theorem X21_nothing_fetched_leaves_the_cache :
  forall w : World,
    fatalStep w = None ->
    snd (fetchActivities w (afterEpochOf w)) = inr [] ->
    let kept := merge H (activitiesFile w) [] in
    (exists requests athleteStats summary,
       fst (main H w)
       = (requests
          ++ [WriteActivities kept;
              WriteState (nextAfterEpochOf H kept (afterEpochFromStateOf w));
              WriteStats (Stats.computeSportsStats H (baselineFile w) kept
                            athleteStats);
              ConsoleLog summary])%list
       /\ Forall (fun ev => isFetch ev = true) requests
       /\ fetched summary = 0%nat /\ s_detailFetched summary = 0)
    /\ (NoDup (map Activity.id (activitiesFile w)) ->
        Forall (fun a => hasId a = true) (activitiesFile w) ->
        Sorted (inOrder (byStartDesc H)) (activitiesFile w) ->
        kept = activitiesFile w).
Proof.
  intros w Hok Hnone kept. split.
  - destruct (main_success H w Hok)
      as (tok & athleteStats & fresh & t1 & t2 & t3 & E1 & E2 & E3 & Hmain).
    rewrite E3 in Hnone. cbn [snd] in Hnone. injection Hnone as ->.
    cbv zeta in Hmain. change (freshIdsOf []) with (@nil Z) in Hmain.
    rewrite detailBackfill_idle in Hmain. cbn [fst snd app] in Hmain.
    exists (t1 ++ t2 ++ t3)%list, athleteStats. eexists.
    split; [rewrite Hmain; cbn [fst]; rewrite <- !app_assoc; reflexivity|].
    cbn [fetched s_detailFetched List.length]. split; [|split; reflexivity].
    rewrite !Forall_app. repeat split.
    + replace t1 with (fst (stravaRefreshAccessToken w))
        by (rewrite E1; reflexivity).
      now apply refresh_events.
    + replace t2 with (fst (fetchAthleteStats w (snd tok)))
        by (rewrite E2; reflexivity).
      now apply stats_events.
    + replace t3 with (fst (fetchActivities w (afterEpochOf w)))
        by (rewrite E3; reflexivity).
      now apply activities_events.
  - intros Hnd Hids Hsorted. subst kept.
    rewrite (merge_nothing H _ Hnd Hids).
    exact (arraySort_fixed _ _ Hsorted).
Qed.

(** X22 ([main], [fetchActivities]).  Every activity-list request of a run
    carries the same [after] parameter: the stored watermark when it is
    positive; otherwise the initial epoch of the environment when that is
    a positive number; otherwise none. *)
Theorem X22_stored_watermark_goes_before_the_initial_epoch :
  forall (w : World) (page : Z) (after : option Z),
    In (ActivitiesRequest page after) (fst (main H w)) ->
    after = afterParam (afterEpochOf w)
    /\ (0 < afterEpochFromStateOf w ->
        after = Some (afterEpochFromStateOf w))
    /\ (afterEpochFromStateOf w <= 0 ->
        after = match STRAVA_INITIAL_AFTER_EPOCH w with
                | EnvInt z => if 0 <? z then Some z else None
                | _ => None
                end).
Proof.
  intros w page after Hin.
  assert (Hafter : after = afterParam (afterEpochOf w)).
  { pose proof (main_events H
                  (fun ev => match ev with
                             | ActivitiesRequest _ a =>
                                 a = afterParam (afterEpochOf w)
                             | _ => True
                             end) w) as Hall.
    rewrite Forall_forall in Hall.
    apply (Hall I (fun _ => I) (fun _ => eq_refl) (fun _ => I)) in Hin;
      [exact Hin|].
    intros ev Hf _. destruct ev; try exact I. discriminate Hf. }
  split; [exact Hafter|]. subst after. unfold afterParam, afterEpochOf.
  split; intro Hs.
  - apply Z.ltb_lt in Hs. rewrite Hs, Hs. reflexivity.
  - apply Z.ltb_ge in Hs. rewrite Hs.
    destruct (STRAVA_INITIAL_AFTER_EPOCH w); reflexivity.
Qed.

End TraceTheorems.

Section TraceExamples.

Local Open Scope Z_scope.

Lemma X21_witness :
  merge Example.utcHost
    (activitiesFile
       (Scenario.world [] EnvUnset None
          [minimizeActivity Scenario.eveningRun;
           minimizeActivity Scenario.morningRun])) []
  = [minimizeActivity Scenario.eveningRun;
     minimizeActivity Scenario.morningRun].
Proof.
  apply (X21_nothing_fetched_leaves_the_cache Example.utcHost
           (Scenario.world [] EnvUnset None
              [minimizeActivity Scenario.eveningRun;
               minimizeActivity Scenario.morningRun])).
  - reflexivity.
  - reflexivity.
  - cbn. repeat constructor; cbn; intuition discriminate.
  - repeat constructor.
  - repeat constructor. vm_compute. discriminate.
Defined.

Lemma X22_witness :
  @None Z = afterParam (afterEpochOf Scenario.firstWorld).
Proof.
  destruct (X22_stored_watermark_goes_before_the_initial_epoch
              Example.utcHost Scenario.firstWorld 1 None) as [Hafter _].
  - vm_compute. right. left. reflexivity.
  - exact Hafter.
Defined.

End TraceExamples.

(** * Roll-ups *)

Section StrMapFacts.

Import Rollup.

Context {V : Type}.

Lemma get_set (k k0 : string) (v : V) (m : StrMap V) :
  get k0 (set k v m) = if String.eqb k0 k then Some v else get k0 m.
Proof.
  induction m as [|[k' v'] m IH]; cbn [set get].
  - reflexivity.
  - destruct (String.eqb_spec k k') as [<-|Hk]; cbn [get].
    + destruct (String.eqb k0 k); reflexivity.
    + rewrite IH. destruct (String.eqb_spec k0 k') as [->|_]; [|reflexivity].
      apply String.eqb_neq in Hk. rewrite String.eqb_sym, Hk. reflexivity.
Qed.

Lemma get_none (k : string) (m : StrMap V) :
  get k m = None <-> ~ In k (map fst m).
Proof.
  induction m as [|[k' v'] m IH]; cbn [get map fst In]; [tauto|].
  destruct (String.eqb_spec k k') as [->|Hk].
  - split; [discriminate|]. intro Hn. exfalso. apply Hn. left. reflexivity.
  - rewrite IH. split; [intros Hn [Heq|Hin]; [congruence|auto]|tauto].
Qed.

Lemma get_some_in (k : string) (v : V) (m : StrMap V) :
  get k m = Some v -> In (k, v) m.
Proof.
  induction m as [|[k' v'] m IH]; cbn [get]; [discriminate|].
  destruct (String.eqb_spec k k') as [->|_].
  - intros [= ->]. left. reflexivity.
  - intro Hg. right. exact (IH Hg).
Qed.

Lemma get_in (k : string) (v : V) (m : StrMap V) :
  NoDup (map fst m) -> In (k, v) m -> get k m = Some v.
Proof.
  induction m as [|[k' v'] m IH]; cbn [map fst get]; [contradiction|].
  intros Hnd [Heq|Hin].
  - injection Heq as -> ->. rewrite String.eqb_refl. reflexivity.
  - inversion Hnd as [|? ? Hk' Hm]; subst.
    destruct (String.eqb_spec k k') as [->|_]; [|exact (IH Hm Hin)].
    exfalso. apply Hk'. change k' with (fst (k', v)). apply in_map. exact Hin.
Qed.

Lemma set_keys (k : string) (v : V) (m : StrMap V) :
  map fst (set k v m)
  = match get k m with
    | Some _ => map fst m
    | None => (map fst m ++ [k])%list
    end.
Proof.
  induction m as [|[k' v'] m IH]; cbn [set get map fst app]; [reflexivity|].
  destruct (String.eqb_spec k k') as [->|_]; cbn [map fst]; [reflexivity|].
  rewrite IH. destruct (get k m); reflexivity.
Qed.

Lemma set_NoDup (k : string) (v : V) (m : StrMap V) :
  NoDup (map fst m) -> NoDup (map fst (set k v m)).
Proof.
  intro Hnd. rewrite set_keys. destruct (get k m) eqn:Hg; [exact Hnd|].
  apply get_none in Hg. apply NoDup_app; auto.
  - repeat constructor. intros [].
  - intros x Hx [<-|[]]. contradiction.
Qed.

End StrMapFacts.

Section TallyFacts.

Import Rollup.

Context {V : Type}.
Variable key : Activity.t -> string.
Variable init : string -> V.
Variable upd : V -> Activity.t -> V.

Lemma tally_NoDup (l : list Activity.t) :
  forall m, NoDup (map fst m) ->
    NoDup (map fst (fold_left (tally key init upd) l m)).
Proof.
  induction l as [|a l IH]; intros m Hm; [exact Hm|].
  cbn [fold_left]. apply IH. apply set_NoDup. exact Hm.
Qed.

(** After the loop, the entry of a key is what the updates of the records
    with that key make, in their order, of the entry before the loop or of
    a new one. *)
Lemma tally_get (l : list Activity.t) :
  forall m k,
    get k (fold_left (tally key init upd) l m)
    = match keyed key k l with
      | [] => get k m
      | _ :: _ =>
          Some (fold_left upd (keyed key k l)
                  (match get k m with
                   | Some p => p
                   | None => init k
                   end))
      end.
Proof.
  induction l as [|a l IH]; intros m k; [reflexivity|].
  cbn [fold_left]. rewrite IH. unfold keyed. cbn [filter].
  unfold tally. rewrite !get_set.
  destruct (String.eqb_spec k (key a)) as [->|_].
  - cbn [fold_left].
    destruct (filter (fun a0 => String.eqb (key a) (key a0)) l); reflexivity.
  - reflexivity.
Qed.

Lemma keyed_member (k : string) (l : list Activity.t) (a : Activity.t) :
  In a l -> key a = k -> keyed key k l <> [].
Proof.
  intros Hin Hk Hnil.
  assert (Hf : In a (keyed key k l)).
  { apply filter_In. split; [exact Hin|]. rewrite Hk. apply String.eqb_refl. }
  rewrite Hnil in Hf. exact Hf.
Qed.

End TallyFacts.

Section MonthlyFacts.

Import Rollup.
Local Open Scope Z_scope.

Variable H : Host.

Lemma addMonthly_tally :
  addMonthly H = tally (monthOf H) newMonth moreMonth.
Proof. reflexivity. Qed.

Lemma moreMonth_fold (g : list Activity.t) :
  forall p,
    let q := fold_left moreMonth g p in
    month q = month p
    /\ count q = count p + Z.of_nat (List.length g)
    /\ distanceKm q = kmSum (distanceKm p) g
    /\ movingTimeHours q = hoursSum (movingTimeHours p) g.
Proof.
  induction g as [|a g IH]; intro p; cbv zeta.
  - cbn. repeat split. lia.
  - cbn [fold_left]. destruct (IH (moreMonth p a)) as (Hm & Hc & Hd & Ht).
    rewrite Hm, Hc, Hd, Ht. cbn [moreMonth month count distanceKm
      movingTimeHours List.length kmSum hoursSum fold_left].
    repeat split. lia.
Qed.

Lemma countSum_set (k : string) (v : MonthSum) (m : StrMap MonthSum) :
  countSum (set k v m)
  = countSum m + count v
    - match get k m with Some p => count p | None => 0 end.
Proof.
  unfold countSum. cbn [map fold_right].
  induction m as [|[k' v'] m IH]; cbn [set get map fold_right snd].
  - lia.
  - destruct (String.eqb k k'); cbn [map fold_right snd] in *; [lia|].
    rewrite IH. lia.
Qed.

Lemma countSum_fold (l : list Activity.t) :
  forall m,
    countSum (fold_left (tally (monthOf H) newMonth moreMonth) l m)
    = countSum m + Z.of_nat (List.length l).
Proof.
  induction l as [|a l IH]; intro m; [cbn [fold_left List.length]; lia|].
  cbn [fold_left List.length]. rewrite IH. unfold tally.
  rewrite countSum_set.
  destruct (get (monthOf H a) m); cbn [moreMonth newMonth count]; lia.
Qed.

Lemma sum_perm (l l' : list Z) :
  Permutation l l' -> fold_right Z.add 0 l = fold_right Z.add 0 l'.
Proof.
  induction 1; cbn [fold_right]; lia.
Qed.

End MonthlyFacts.

Section MonthlyTheorems.

Import Rollup.
Local Open Scope Z_scope.

Variable H : Host.

(** X16 ([monthKey], [groupMonthly]).  The monthly roll-up holds one entry
    for every month in which a record of the input starts, and no other
    entry.  The entry of a month counts the records of that month, and its
    distance and moving time are the kilometres and the hours of those
    records, added record by record in the order of the input and printed
    with at most two decimals.  The counts of all entries add up to the
    number of records. *)
Theorem X16_monthly_entries_partition_the_records :
  forall arr : list Activity.t,
    let out := groupMonthly H arr in
    NoDup (map m_month out)
    /\ (forall a, In a arr -> In (monthOf H a) (map m_month out))
    /\ (forall x, In x out ->
          let group := keyed (monthOf H) (m_month x) arr in
          group <> []
          /\ m_count x = Z.of_nat (List.length group)
          /\ m_distanceKm x = toFixedTrim H (kmSum 0 group) 2
          /\ m_movingTimeHours x = toFixedTrim H (hoursSum 0 group) 2)
    /\ fold_right Z.add 0 (map m_count out) = Z.of_nat (List.length arr).
Proof.
  intros arr out. subst out. unfold groupMonthly. rewrite addMonthly_tally.
  set (M := fold_left (tally (monthOf H) newMonth moreMonth) arr []).
  assert (Hnd : NoDup (map fst M)) by (apply tally_NoDup; constructor).
  assert (Hget : forall k,
            get k M
            = match keyed (monthOf H) k arr with
              | [] => None
              | _ :: _ =>
                  Some (fold_left moreMonth (keyed (monthOf H) k arr)
                          (newMonth k))
              end).
  { intro k. subst M. rewrite tally_get. reflexivity. }
  assert (Hentry : forall k p, In (k, p) M ->
            keyed (monthOf H) k arr <> []
            /\ p = fold_left moreMonth (keyed (monthOf H) k arr) (newMonth k)).
  { intros k p Hin. pose proof (get_in k p M Hnd Hin) as Hg.
    rewrite Hget in Hg. destruct (keyed (monthOf H) k arr) as [|a g];
      [discriminate|].
    split; [discriminate|congruence]. }
  assert (Hmonth : forall k p, In (k, p) M -> month p = k).
  { intros k p Hin. destruct (Hentry k p Hin) as [_ ->].
    destruct (moreMonth_fold (keyed (monthOf H) k arr) (newMonth k))
      as [Hm _]. exact Hm. }
  assert (Hkeys : map month (map snd M) = map fst M).
  { rewrite map_map. apply map_ext_in. intros [k p] Hin. cbn [fst snd].
    exact (Hmonth k p Hin). }
  pose proof (arraySort_perm byMonthDesc (map snd M)) as Hperm.
  assert (Hmonths : map m_month
                      (map (formatMonth H) (arraySort byMonthDesc (map snd M)))
                    = map month (arraySort byMonthDesc (map snd M))).
  { rewrite map_map. reflexivity. }
  refine (conj _ (conj _ (conj _ _))).
  - rewrite Hmonths.
    apply (Permutation_NoDup (l := map month (map snd M))).
    + apply Permutation_sym, Permutation_map, Hperm.
    + rewrite Hkeys. exact Hnd.
  - intros a Ha. rewrite Hmonths.
    apply (Permutation_in (l := map month (map snd M))).
    + apply Permutation_sym, Permutation_map, Hperm.
    + rewrite Hkeys.
      destruct (get (monthOf H a) M) as [p|] eqn:Hg.
      * apply get_some_in in Hg.
        change (monthOf H a) with (fst (monthOf H a, p)).
        apply in_map. exact Hg.
      * rewrite Hget in Hg.
        pose proof (keyed_member (monthOf H) (monthOf H a) arr a Ha eq_refl).
        destruct (keyed (monthOf H) (monthOf H a) arr); [congruence|].
        discriminate Hg.
  - intros x Hx. apply in_map_iff in Hx as (p & <- & Hp).
    apply (Permutation_in _ Hperm) in Hp.
    apply in_map_iff in Hp as ([k p'] & Hsnd & Hin). cbn [snd] in Hsnd.
    subst p'. pose proof (Hmonth k p Hin) as Hk.
    destruct (Hentry k p Hin) as [Hne Hp].
    cbn [formatMonth m_month m_count m_distanceKm m_movingTimeHours].
    rewrite Hk.
    destruct (moreMonth_fold (keyed (monthOf H) k arr) (newMonth k))
      as (_ & Hc & Hd & Ht).
    rewrite <- Hp in Hc, Hd, Ht. rewrite Hc, Hd, Ht.
    cbn [newMonth count distanceKm movingTimeHours].
    repeat split; auto.
  - replace (map m_count
               (map (formatMonth H) (arraySort byMonthDesc (map snd M))))
      with (map count (arraySort byMonthDesc (map snd M)))
      by (rewrite map_map; reflexivity).
    rewrite (sum_perm _ _ (Permutation_map count Hperm)).
    pose proof (countSum_fold H arr []) as Hsum. exact Hsum.
Qed.

End MonthlyTheorems.

Section YearlyFacts.

Import Rollup.
Local Open Scope Z_scope.

Variable H : Host.

Lemma addYearly_tally :
  addYearly H = tally (yearOf H) (fun _ => newYear) moreYear.
Proof. reflexivity. Qed.

Lemma moreYear_fold (g : list Activity.t) :
  forall c,
    let q := fold_left moreYear g c in
    y_count q = y_count c + Z.of_nat (List.length g)
    /\ distance q = kmSum (distance c) g
    /\ time q = hoursSum (time c) g.
Proof.
  induction g as [|a g IH]; intro c; cbv zeta.
  - cbn. repeat split. lia.
  - cbn [fold_left]. destruct (IH (moreYear c a)) as (Hc & Hd & Ht).
    rewrite Hc, Hd, Ht. cbn [moreYear y_count distance time List.length
      kmSum hoursSum fold_left].
    repeat split. lia.
Qed.

(** The object [out] holds, under every key of [years], the entry of
    [years] in its printed form, and nothing else. *)
Lemma putYear_get (years : StrMap YearSum) (ks : list string) :
  forall (out : StrMap Year) (k : string),
    get k (fold_left (putYear H years) ks out)
    = match (if existsb (String.eqb k) ks then get k years else None) with
      | Some c => Some (formatYear H c)
      | None => get k out
      end.
Proof.
  induction ks as [|y ks IH]; intros out k; [reflexivity|].
  cbn [fold_left existsb]. rewrite IH. unfold putYear.
  destruct (String.eqb_spec k y) as [->|Hk]; cbn [orb].
  - destruct (get y years) as [c|] eqn:Hy.
    + rewrite get_set, String.eqb_refl.
      destruct (existsb (String.eqb y) ks); reflexivity.
    + destruct (existsb (String.eqb y) ks); reflexivity.
  - destruct (get y years) as [c|]; [|reflexivity].
    rewrite get_set. apply String.eqb_neq in Hk. rewrite Hk. reflexivity.
Qed.

Lemma existsb_key (k : string) (ks : list string) :
  existsb (String.eqb k) ks = true <-> In k ks.
Proof.
  rewrite existsb_exists. split.
  - intros (x & Hx & Heq). apply String.eqb_eq in Heq. subst x. exact Hx.
  - intro Hk. exists k. split; [exact Hk|apply String.eqb_refl].
Qed.

Lemma yearly_get (activities : list Activity.t)
  (baselineData : option Baseline.Running) (k : string) :
  get k (computeYearlyStats H activities baselineData)
  = option_map (formatYear H)
      (get k (addBaseline (fold_left (addYearly H) activities [])
                baselineData)).
Proof.
  unfold computeYearlyStats. cbv zeta.
  set (years := addBaseline (fold_left (addYearly H) activities [])
                  baselineData).
  rewrite putYear_get. cbn [get].
  destruct (get k years) as [c|] eqn:Hg.
  - assert (Hin : In k (rev (arraySort byCodeUnits (map fst years)))).
    { apply in_rev. rewrite rev_involutive.
      apply (Permutation_in (l := map fst years)).
      - apply Permutation_sym, arraySort_perm.
      - apply get_some_in in Hg. change k with (fst (k, c)).
        apply in_map. exact Hg. }
    apply existsb_key in Hin. rewrite Hin. reflexivity.
  - destruct (existsb _ _); reflexivity.
Qed.

End YearlyFacts.

Section YearlyTheorems.

Import Rollup.
Local Open Scope Z_scope.
Local Open Scope float_scope.

Variable H : Host.

(** X17 ([computeYearlyStats]).  The yearly roll-up has an entry for a
    year exactly when a record of the input starts in that year, or when
    the year is 2025 and a baseline is given.  The entry counts the records
    of the year; its distance and time are their kilometres and hours,
    added record by record in the order of the input, and for 2025 with a
    baseline the baseline's distance and time are added last.  The
    baseline changes no count and no other year. *)
Theorem X17_yearly_entries :
  forall (activities : list Activity.t)
         (baselineData : option Baseline.Running) (k : string),
    let group := keyed (yearOf H) k activities in
    let based := baselineYear baselineData k in
    get k (computeYearlyStats H activities baselineData)
    = match group, based with
      | [], false => None
      | _, _ =>
          Some {| yr_distance :=
                    toFixedTrim H
                      (if based
                       then kmSum 0 group + baselineKm baselineData
                       else kmSum 0 group) 2;
                  yr_time :=
                    toFixedTrim H
                      (if based
                       then hoursSum 0 group + baselineHours baselineData
                       else hoursSum 0 group) 1;
                  yr_count := Z.of_nat (List.length group) |}
      end.
Proof.
  intros activities baselineData k group based.
  rewrite yearly_get, addYearly_tally.
  set (F := fold_left moreYear group newYear).
  assert (Hget : get k (fold_left (tally (yearOf H) (fun _ => newYear)
                                     moreYear) activities [])
                 = match group with
                   | [] => None
                   | _ :: _ => Some F
                   end).
  { rewrite tally_get. reflexivity. }
  destruct (moreYear_fold group newYear) as (Hc & Hd & Ht).
  cbn [newYear y_count distance time] in Hc, Hd, Ht. fold F in Hc, Hd, Ht.
  assert (HF : formatYear H F
               = {| yr_distance := toFixedTrim H (kmSum 0 group) 2;
                    yr_time := toFixedTrim H (hoursSum 0 group) 1;
                    yr_count := Z.of_nat (List.length group) |}).
  { unfold formatYear. rewrite Hc, Hd, Ht. reflexivity. }
  assert (Hcur : match group with
                 | [] => newYear
                 | _ :: _ => F
                 end = F)
    by (subst F; destruct group; reflexivity).
  subst based. unfold baselineYear, addBaseline.
  destruct baselineData as [b|].
  - rewrite get_set. destruct (String.eqb k "2025") eqn:Hk.
    + cbn [andb option_map]. apply String.eqb_eq in Hk. rewrite <- Hk, Hget.
      replace (match match group with
                     | [] => None
                     | _ :: _ => Some F
                     end with
               | Some c => c
               | None => newYear
               end)
        with F by (rewrite <- Hcur at 1; destruct group; reflexivity).
      unfold formatYear. cbn [y_count distance time baselineKm baselineHours].
      rewrite Hc, Hd, Ht. clearbody group. destruct group; reflexivity.
    + cbn [andb]. rewrite Hget. clearbody F. clearbody group.
      destruct group; [reflexivity|]. cbn [option_map]. rewrite HF.
      reflexivity.
  - rewrite andb_false_r, Hget. clearbody F. clearbody group.
    destruct group; [reflexivity|]. cbn [option_map]. rewrite HF.
    reflexivity.
Qed.

End YearlyTheorems.

(** * Printed dates *)

Section PrintedDates.

Import Js.
Local Open Scope string_scope.
Local Open Scope Z_scope.

(** [pad2] writes the numbers from 0 to 99 with two characters. *)
Lemma pad2_two (n : Z) : 0 <= n < 100 -> String.length (pad2 n) = 2%nat.
Proof.
  intro Hn.
  assert (Hall : forallb (fun k => (String.length (pad2 (Z.of_nat k)) =? 2)%nat)
                   (seq 0 100) = true) by (vm_compute; reflexivity).
  rewrite forallb_forall in Hall. specialize (Hall (Z.to_nat n)).
  rewrite Z2Nat.id in Hall by lia. apply Nat.eqb_eq, Hall, in_seq. lia.
Qed.

End PrintedDates.

Section PrintedDateTheorems.

Import Js.
Local Open Scope string_scope.
Local Open Scope Z_scope.

Variable H : Host.

(** X23 ([pad2], [formatDateYmdDot], [monthKey], [getYear]).  For a date
    that the host can read, with a year that is not negative, a month index
    from 0 to 11 and a day from 1 to 31, the dotted date is the year, a
    full stop, the month number in two digits, a full stop and the day in
    two digits; the month key is the same year and the same two digits
    around a hyphen, and the year key is the same year. *)
Theorem X23_dates_are_printed_year_month_day :
  forall (d : string) (y m day : Z),
    localYmd H d = Some (y, m, day) ->
    0 <= y -> 0 <= m <= 11 -> 1 <= day <= 31 ->
    exists mm dd,
      formatDateYmdDot H (Some d) = decimal y ++ "." ++ mm ++ "." ++ dd
      /\ Rollup.monthKey H (Some d) = decimal y ++ "-" ++ mm
      /\ Rollup.getYear H (Some d) = decimal y
      /\ allChars isDigit (decimal y) = true
      /\ String.length mm = 2%nat /\ allChars isDigit mm = true
      /\ digitsValue 0 mm = m + 1
      /\ String.length dd = 2%nat /\ allChars isDigit dd = true
      /\ digitsValue 0 dd = day.
Proof.
  intros d y m day Hd Hy Hm Hday.
  exists (pad2 (m + 1)), (pad2 day).
  unfold formatDateYmdDot, Rollup.monthKey, Rollup.getYear. cbn [obind].
  rewrite Hd.
  destruct (pad2_digits (m + 1)) as (_ & Hmd & Hmv); [lia|].
  destruct (pad2_digits day) as (_ & Hdd & Hdv); [lia|].
  refine (conj eq_refl (conj eq_refl (conj eq_refl (conj _ (conj _
            (conj Hmd (conj Hmv (conj _ (conj Hdd Hdv))))))))).
  - apply decimal_digits, Hy.
  - apply pad2_two. lia.
  - apply pad2_two. lia.
Qed.

End PrintedDateTheorems.

Section PrintedDateExamples.

Local Open Scope string_scope.

Lemma X23_witness :
  exists mm dd,
    formatDateYmdDot Example.utcHost (Some "2025-07-01T06:00:00Z")
    = "2025" ++ "." ++ mm ++ "." ++ dd
    /\ Rollup.monthKey Example.utcHost (Some "2025-07-01T06:00:00Z")
       = "2025" ++ "-" ++ mm.
Proof.
  destruct (X23_dates_are_printed_year_month_day Example.utcHost
              "2025-07-01T06:00:00Z" 2025 6 1 eq_refl)
    as (mm & dd & Hdate & Hmonth & _); try lia.
  exists mm, dd. split; [exact Hdate|exact Hmonth].
Defined.

End PrintedDateExamples.
